(** * learn-ifc: the building-model assembler, embedded and verified

    The development follows the Python sources:
    - [Py]: the fragment of Python strings the scripts rely on
      ([str.lower], [in], decimal formatting);
    - [Annotate]: the scripts that annotate an existing model with property
      sets (add_fire_ratings.py, add_building_fire_info.py,
      add_property_sets.py);
    - [House]: the scripts that build a model from scratch
      (create_small_house.py, test_ifc_window.py). *)

From Stdlib Require Import ZArith Floats Reals Lra String Ascii List Bool Lia.
From Stdlib Require Import DecimalString.
From stdpp Require Import base list strings.

Local Open Scope string_scope.

(** Instances of a model are referred to by their position in it. *)
Abbreviation inst_id := nat (only parsing).

(** * Python strings *)

Module Py.

(** A Python [str] is a sequence of code points.  A Rocq [string] is a
    sequence of 8-bit characters: it stands for the Python strings whose code
    points are all below 256.  On these, [str.lower] shifts [A]-[Z] and the
    Latin-1 capitals (U+00C0-U+00D6, U+00D8-U+00DE) by 32 and leaves every
    other code point alone. *)
Definition lower_char (c : ascii) : ascii :=
  let n := nat_of_ascii c in
  if (((65 <=? n) && (n <=? 90)) || ((192 <=? n) && (n <=? 214))
      || ((216 <=? n) && (n <=? 222)))%nat
  then ascii_of_nat (n + 32) else c.

Fixpoint lower (s : string) : string :=
  match s with
  | EmptyString => EmptyString
  | String c s' => String (lower_char c) (lower s')
  end.

(** [needle in hay] *)
Fixpoint contains (needle hay : string) : bool :=
  String.prefix needle hay
  || match hay with
     | EmptyString => false
     | String _ hay' => contains needle hay'
     end.

(** [x or y] on an optional string: [None] and the empty string are falsy. *)
Definition or_else (x : option string) (y : string) : string :=
  match x with
  | Some (String c s) => String c s
  | _ => y
  end.

(** [str(n)] for a natural number. *)
Definition str_nat (n : nat) : string := NilZero.string_of_uint (Nat.to_uint n).

(** [f"{n:03d}"] for a natural number: zero-padded to three digits. *)
Definition str_nat_03d (n : nat) : string :=
  let s := str_nat n in
  match String.length s with
  | 1 => "00" ++ s
  | 2 => "0" ++ s
  | _ => s
  end.

(** What a Python call produces: a value, or an exception that propagates. *)
Inductive Outcome (A : Type) : Type :=
| Returns (a : A)
| Raises (exn : string).
Arguments Returns {A} a.
Arguments Raises {A} exn.

(** Code that runs against a mutable state of type [St]. *)
Definition Eff (St A : Type) : Type := St -> Outcome A * St.

Definition ret {St A} (a : A) : Eff St A := fun st => (Returns a, st).

Definition bind {St A B} (c : Eff St A) (k : A -> Eff St B) : Eff St B :=
  fun st => match c st with
            | (Returns a, st') => k a st'
            | (Raises e, st') => (Raises e, st')
            end.

Definition raise {St A} (e : string) : Eff St A := fun st => (Raises e, st).

Definition lift {St A} (o : Outcome A) : Eff St A := fun st => (o, st).

Notation "'let*' x ':=' c 'in' k" := (bind c (fun x => k))
  (at level 10, x name, c at level 200, k at level 200).

(** [try: ...; return True  except Exception: return False] *)
Definition try_except {St} (body : Eff St unit) : St -> bool * St :=
  fun st => match body st with
            | (Returns _, st') => (true, st')
            | (Raises _, st') => (false, st')
            end.

(** [for i, x in enumerate(l): body(i, x)], counting from [i]. *)
Fixpoint for_enumerate {St A} (body : nat -> A -> Eff St unit) (i : nat)
    (l : list A) : Eff St unit :=
  match l with
  | [] => ret tt
  | x :: l' => let* _ := body i x in for_enumerate body (S i) l'
  end.

(** [d.get(k)] on a dictionary literal. *)
Fixpoint dict_get {V} (d : list (string * V)) (k : string) : option V :=
  match d with
  | [] => None
  | (k', v) :: d' => if String.eqb k' k then Some v else dict_get d' k
  end.

(** [d[k]] on a dictionary literal. *)
Definition dict_item {V} (d : list (string * V)) (k : string) : Outcome V :=
  match dict_get d k with
  | Some v => Returns v
  | None => Raises "KeyError"
  end.

End Py.

(** * Building a model from scratch

    create_small_house.py and test_ifc_window.py start from an empty model and
    create every instance with positional arguments.  Python floats are
    idealised as real numbers: the arithmetic of these scripts ([+], [-], [/],
    [**2], [math.sqrt], [math.cos], [math.sin], [math.pi]) is the exact one. *)

Module House.
Import Py.

Local Open Scope R_scope.

(** The arguments of [model.createIfc...(...)]: [None], booleans, integers,
    floats, strings (also for enumeration values), identifiers drawn from
    [ifcopenshell.guid.new()] (the [k]-th one is [VGuid k]), references to
    instances, and lists or tuples. *)
Inductive Value : Type :=
| VNone
| VBool (b : bool)
| VInt (z : Z)
| VReal (r : R)
| VStr (s : string)
| VGuid (k : nat)
| VRef (i : inst_id)
| VList (l : list Value).

(** An instance: its class and its attributes in schema order. *)
Record Instance : Type := mkInstance {
  is_a : string;
  args : list Value
}.

Record State : Type := mkState {
  model : list Instance;
  guid_calls : nat
}.

Definition Eff : Type -> Type := Py.Eff State.

(** [model.createIfcXxx(a1, ..., an)] *)
Definition create (cls : string) (a : list Value) : Eff inst_id :=
  fun st => (Returns (length (model st)),
             mkState (model st ++ [mkInstance cls a]) (guid_calls st)).

(** [ifcopenshell.guid.new()] *)
Definition guid_new : Eff Value :=
  fun st => (Returns (VGuid (guid_calls st)),
             mkState (model st) (S (guid_calls st))).

(** [x.Attr = v], [Attr] being the [k]-th attribute of the class of [x] *)
Definition set_attr (x : inst_id) (k : nat) (v : Value) : Eff unit :=
  fun st => match model st !! x with
            | Some i =>
                (Returns tt,
                 mkState (<[x := mkInstance (is_a i) (<[k := v]> (args i))]> (model st))
                   (guid_calls st))
            | None => (Raises "AttributeError", st)
            end.

(** [l[i]] *)
Definition item {A} (l : list A) (i : nat) : Outcome A :=
  match l !! i with
  | Some x => Returns x
  | None => Raises "IndexError"
  end.

(** [x / y] on floats *)
Definition div (x y : R) : Outcome R :=
  if Req_dec_T y 0 then Raises "ZeroDivisionError" else Returns (x / y).

(** [for x in l: body(x)] *)
Fixpoint for_each {A} (body : A -> Eff unit) (l : list A) : Eff unit :=
  match l with
  | [] => ret tt
  | x :: l' => let* _ := body x in for_each body l'
  end.

(** [[body(x) for x in l]], in order *)
Fixpoint map_each {A B} (body : A -> Eff B) (l : list A) : Eff (list B) :=
  match l with
  | [] => ret []
  | x :: l' => let* y := body x in let* ys := map_each body l' in ret (y :: ys)
  end.

Definition reals (l : list R) : Value := VList (map VReal l).
Definition refs (l : list inst_id) : Value := VList (map VRef l).

(** ** create_small_house.py: [create_wall_with_proper_joins] *)

(** The frame of a wall, lines 16-26 of the function: length, centre and
    rotation angle (in radians). *)
Definition wall_length (start_x start_y end_x end_y : R) : R :=
  sqrt ((end_x - start_x) ^ 2 + (end_y - start_y) ^ 2).

Definition wall_center (start_x start_y end_x end_y : R) : R * R :=
  ((start_x + end_x) / 2, (start_y + end_y) / 2).

Definition wall_angle (start_x start_y end_x end_y : R) : R :=
  if Req_dec_T start_x end_x
  then (if Rgt_dec end_y start_y then PI / 2 else - PI / 2)
  else (if Rgt_dec end_x start_x then 0 else PI).

Definition create_wall_with_proper_joins
    (world_placement world_z world_x body_context : inst_id)
    (start_x start_y end_x end_y : R) (wall_name : string)
    (base_height wall_height : R) : Eff inst_id :=
  let wall_length := wall_length start_x start_y end_x end_y in
  let '(wall_center_x, wall_center_y) := wall_center start_x start_y end_x end_y in
  let angle := wall_angle start_x start_y end_x end_y in
  let* wall_point :=
    create "IfcCartesianPoint" [reals [wall_center_x; wall_center_y; base_height]] in
  let* wall_placement :=
    if Req_dec_T angle 0
    then create "IfcAxis2Placement3D" [VRef wall_point; VRef world_z; VRef world_x]
    else
      let cos_angle := cos angle in
      let sin_angle := sin angle in
      let* wall_x_dir := create "IfcDirection" [reals [cos_angle; sin_angle; 0.0]] in
      create "IfcAxis2Placement3D" [VRef wall_point; VRef world_z; VRef wall_x_dir] in
  let* wall_local_placement :=
    create "IfcLocalPlacement" [VRef world_placement; VRef wall_placement] in
  let* profile_origin := create "IfcCartesianPoint" [reals [0.0; 0.0]] in
  let* profile_placement := create "IfcAxis2Placement2D" [VRef profile_origin] in
  let* wall_profile :=
    create "IfcRectangleProfileDef"
      [VStr "AREA"; VNone; VRef profile_placement; VReal wall_length; VReal 0.2] in
  let* extrude_dir := create "IfcDirection" [reals [0.0; 0.0; 1.0]] in
  let* wall_solid :=
    create "IfcExtrudedAreaSolid"
      [VRef wall_profile; VRef profile_placement; VRef extrude_dir;
       VReal wall_height] in
  let* wall_shape :=
    create "IfcShapeRepresentation"
      [VRef body_context; VStr "Body"; VStr "SweptSolid"; refs [wall_solid]] in
  let* wall_definition :=
    create "IfcProductDefinitionShape" [VNone; VNone; refs [wall_shape]] in
  let* g := guid_new in
  let* wall :=
    create "IfcWall"
      [g; VNone; VStr wall_name; VNone; VNone; VRef wall_local_placement;
       VRef wall_definition; VNone; VStr "STANDARD"] in
  ret wall.

(** ** create_small_house.py: [create_slab] *)

Definition create_slab (world_placement body_context : inst_id)
    (length width base_z thickness : R) (slab_name : string) : Eff inst_id :=
  let slab_center_x := length / 2 in
  let slab_center_y := width / 2 in
  let slab_center_z := base_z in
  let* slab_point :=
    create "IfcCartesianPoint" [reals [slab_center_x; slab_center_y; slab_center_z]] in
  let* slab_axis := create "IfcAxis2Placement3D" [VRef slab_point] in
  let* slab_placement :=
    create "IfcLocalPlacement" [VRef world_placement; VRef slab_axis] in
  let* profile_origin := create "IfcCartesianPoint" [reals [0.0; 0.0]] in
  let* profile_placement := create "IfcAxis2Placement2D" [VRef profile_origin] in
  let* slab_profile :=
    create "IfcRectangleProfileDef"
      [VStr "AREA"; VNone; VRef profile_placement; VReal length; VReal width] in
  let* extrude_dir := create "IfcDirection" [reals [0.0; 0.0; 1.0]] in
  let* slab_solid :=
    create "IfcExtrudedAreaSolid"
      [VRef slab_profile; VRef profile_placement; VRef extrude_dir;
       VReal thickness] in
  let* slab_shape :=
    create "IfcShapeRepresentation"
      [VRef body_context; VStr "Body"; VStr "SweptSolid"; refs [slab_solid]] in
  let* slab_definition :=
    create "IfcProductDefinitionShape" [VNone; VNone; refs [slab_shape]] in
  let* g := guid_new in
  let* slab :=
    create "IfcSlab"
      [g; VNone; VStr slab_name; VNone; VNone; VRef slab_placement;
       VRef slab_definition; VNone; VStr "FLOOR"] in
  let* slab_color :=
    if contains "Roof" slab_name
    then create "IfcColourRgb" [VNone; VReal 0.7; VReal 0.7; VReal 0.7]
    else create "IfcColourRgb" [VNone; VReal 0.8; VReal 0.8; VReal 0.8] in
  let* surface_style :=
    create "IfcSurfaceStyleRendering"
      [VRef slab_color; VReal 0.0; VRef slab_color; VNone; VNone; VNone; VNone;
       VNone; VStr "FLAT"] in
  let* surface_styles :=
    create "IfcSurfaceStyle" [VStr "SlabStyle"; VStr "BOTH"; refs [surface_style]] in
  let* styled_item :=
    create "IfcStyledItem" [VRef slab_solid; refs [surface_styles]; VStr "SlabStyle"] in
  ret slab.

(** ** create_small_house.py: [create_small_house] *)

(** The variables of [create_small_house] that its later parts read. *)
Record Site : Type := {
  world_placement : inst_id;
  world_z : inst_id;
  world_x : inst_id;
  body_context : inst_id;
  ground_storey : inst_id;
  first_storey : inst_id
}.

Definition house_length : R := 8.0.
Definition house_width : R := 6.0.
Definition wall_height : R := 3.0.
Definition wall_thickness : R := 0.2.
Definition slab_thickness : R := 0.2.

(** [[start_x, start_y, end_x, end_y, name]] *)
Definition wall_configs : list (R * R * R * R * string) :=
  [(0, 0, house_length, 0, "Front Wall");
   (house_length, 0, house_length, house_width, "Right Wall");
   (house_length, house_width, 0, house_width, "Back Wall");
   (0, house_width, 0, 0, "Left Wall")].

(** [[storey, wall_index, offset_from_start, window_name]] *)
Definition window_configs : list (nat * nat * R * string) :=
  [(0%nat, 0%nat, 2.0, "Ground Front Window 1");
   (0%nat, 0%nat, 6.0, "Ground Front Window 2");
   (0%nat, 2%nat, 3.0, "Ground Back Window");
   (1%nat, 0%nat, 2.0, "First Front Window 1");
   (1%nat, 0%nat, 6.0, "First Front Window 2");
   (1%nat, 2%nat, 3.0, "First Back Window")].

(** Lines 117-157: project, units, contexts and the spatial hierarchy. *)
Definition create_hierarchy : Eff Site :=
  let* g := guid_new in
  let* project :=
    create "IfcProject"
      [g; VNone; VStr "Small House Project"; VNone; VNone; VNone; VNone; VNone;
       VNone] in
  let* length_unit := create "IfcSIUnit" [VNone; VStr "LENGTHUNIT"; VNone; VStr "METRE"] in
  let* area_unit :=
    create "IfcSIUnit" [VNone; VStr "AREAUNIT"; VNone; VStr "SQUARE_METRE"] in
  let* volume_unit :=
    create "IfcSIUnit" [VNone; VStr "VOLUMEUNIT"; VNone; VStr "CUBIC_METRE"] in
  let* unit_assignment :=
    create "IfcUnitAssignment" [refs [length_unit; area_unit; volume_unit]] in
  let* world_origin := create "IfcCartesianPoint" [reals [0.0; 0.0; 0.0]] in
  let* world_z := create "IfcDirection" [reals [0.0; 0.0; 1.0]] in
  let* world_x := create "IfcDirection" [reals [1.0; 0.0; 0.0]] in
  let* world_placement :=
    create "IfcAxis2Placement3D" [VRef world_origin; VRef world_z; VRef world_x] in
  let* geom_context :=
    create "IfcGeometricRepresentationContext"
      [VNone; VStr "Model"; VInt 3; VReal 1e-05; VRef world_placement;
       VRef world_z] in
  let* body_context :=
    create "IfcGeometricRepresentationSubContext"
      [VStr "Body"; VStr "Model"; VNone; VNone; VNone; VNone; VRef geom_context;
       VNone; VStr "MODEL_VIEW"; VNone] in
  let* g := guid_new in
  let* site :=
    create "IfcSite"
      [g; VNone; VStr "House Site"; VNone; VNone; VRef world_placement; VNone;
       VNone; VNone; VNone; VNone; VNone; VNone] in
  let* g := guid_new in
  let* building :=
    create "IfcBuilding"
      [g; VNone; VStr "Small House"; VNone; VNone; VRef world_placement; VNone;
       VNone; VNone; VNone; VNone; VNone] in
  let* g := guid_new in
  let* ground_storey :=
    create "IfcBuildingStorey"
      [g; VNone; VStr "Ground Floor"; VNone; VNone; VRef world_placement; VNone;
       VNone; VNone; VReal 0.0] in
  let* g := guid_new in
  let* first_storey :=
    create "IfcBuildingStorey"
      [g; VNone; VStr "First Floor"; VNone; VNone; VRef world_placement; VNone;
       VNone; VNone; VReal 3.0] in
  let* g := guid_new in
  let* _ := create "IfcRelAggregates"
              [g; VNone; VNone; VNone; VRef project; refs [site]] in
  let* g := guid_new in
  let* _ := create "IfcRelAggregates"
              [g; VNone; VNone; VNone; VRef site; refs [building]] in
  let* g := guid_new in
  let* _ := create "IfcRelAggregates"
              [g; VNone; VNone; VNone; VRef building;
               refs [ground_storey; first_storey]] in
  ret {| world_placement := world_placement; world_z := world_z;
         world_x := world_x; body_context := body_context;
         ground_storey := ground_storey; first_storey := first_storey |}.

(** Lines 176-196: the walls of one storey, each assigned to the storey;
    [rename] gives the name of a wall of the storey. *)
Definition create_storey_walls (s : Site) (storey : inst_id)
    (rename : string -> string) (base_height : R) : Eff (list inst_id) :=
  map_each
    (fun '(start_x, start_y, end_x, end_y, wall_name) =>
       let* wall :=
         create_wall_with_proper_joins (world_placement s) (world_z s) (world_x s)
           (body_context s) start_x start_y end_x end_y (rename wall_name)
           base_height wall_height in
       let* g := guid_new in
       let* _ := create "IfcRelContainedInSpatialStructure"
                   [g; VNone; VNone; VNone; refs [wall]; VRef storey] in
       ret wall)
    wall_configs.

(** Lines 200-270: the window type with its two property collections and
    the door type. *)
Definition create_types : Eff (inst_id * inst_id) :=
  let* g := guid_new in
  let* window_type :=
    create "IfcWindowType"
      [g; VNone; VStr "Standard Window Type"; VStr "Standard single-hung window";
       VNone; VNone; VNone; VNone; VStr "Standard Window Type"; VStr "WINDOW";
       VStr "SINGLE_PANEL"; VBool true; VNone] in
  let* g := guid_new in
  let* lining_props :=
    create "IfcWindowLiningProperties"
      [g; VNone; VStr "Window Lining Properties"; VNone; VReal 0.05; VReal 0.025;
       VReal 0.01; VReal 0.01; VNone; VNone; VNone; VNone; VNone; VReal 0.075;
       VReal 0.01; VReal 0.01] in
  let* g := guid_new in
  let* panel_props :=
    create "IfcWindowPanelProperties"
      [g; VNone; VStr "Window Panel Properties"; VNone; VStr "SIDEHUNGRIGHTHAND";
       VStr "RIGHT"; VReal 1.5; VReal 1.2; VNone] in
  let* _ := set_attr window_type 5 (refs [lining_props; panel_props]) in
  let* g := guid_new in
  let* door_type :=
    create "IfcDoorType"
      [g; VNone; VStr "Standard Door Type"; VStr "Standard hinged door"; VNone;
       VNone; VNone; VNone; VStr "Standard Door Type"; VStr "DOOR";
       VStr "SINGLE_SWING_RIGHT"; VBool true; VNone] in
  ret (window_type, door_type).

(** Lines 349-362, the opening of a window: the cutout, the relationship
    that voids [wall] and the one that fills the cutout with [window].  The
    parameters are the variables of the loop body that these lines read. *)
Definition cut_window_opening (body_context profile_placement window_placement
    wall window : inst_id) (window_name : string)
    (window_width window_height wall_thickness : R) : Eff inst_id :=
  let opening_width := window_width + 0.02 in
  let opening_depth := wall_thickness + 0.05 in
  let* opening_profile :=
    create "IfcRectangleProfileDef"
      [VStr "AREA"; VStr "OpeningProfile"; VRef profile_placement;
       VReal opening_width; VReal opening_depth] in
  let* extrude_dir := create "IfcDirection" [reals [0.0; 0.0; 1.0]] in
  let* opening_solid :=
    create "IfcExtrudedAreaSolid"
      [VRef opening_profile; VRef profile_placement; VRef extrude_dir;
       VReal (window_height + 0.01)] in
  let* opening_shape :=
    create "IfcShapeRepresentation"
      [VRef body_context; VStr "Body"; VStr "SweptSolid"; refs [opening_solid]] in
  let* opening_definition :=
    create "IfcProductDefinitionShape" [VNone; VNone; refs [opening_shape]] in
  let* g := guid_new in
  let* opening :=
    create "IfcOpeningElement"
      [g; VNone; VStr (window_name ++ " Opening"); VNone; VNone;
       VRef window_placement; VRef opening_definition; VNone; VStr "OPENING"] in
  let* g := guid_new in
  let* _ := create "IfcRelVoidsElement"
              [g; VNone; VStr "Window Opening"; VNone; VRef wall; VRef opening] in
  let* g := guid_new in
  let* _ := create "IfcRelFillsElement"
              [g; VNone; VStr "Window Fills Opening"; VNone; VRef opening;
               VRef window] in
  ret opening.

(** Lines 286-375, the body of the loop over [window_configs]; it returns
    the window and its opening. *)
Definition add_window (s : Site) (window_type : inst_id)
    (all_walls : list (list inst_id)) (cfg : nat * nat * R * string)
  : Eff (inst_id * inst_id) :=
  let '(storey_idx, wall_idx, offset, window_name) := cfg in
  let* storey_walls := lift (item all_walls storey_idx) in
  let* wall := lift (item storey_walls wall_idx) in
  let storey := if Nat.eqb storey_idx 0 then ground_storey s else first_storey s in
  let base_z := if Nat.eqb storey_idx 0 then 0.0 else wall_height in
  let window_width := 1.5 in
  let window_height := 1.2 in
  let window_depth := 0.25 in
  let window_sill_height := base_z + 1.0 in
  let* wall_config := lift (item wall_configs wall_idx) in
  let '(start_x, start_y, end_x, end_y, _) := wall_config in
  let wall_length := sqrt ((end_x - start_x) ^ 2 + (end_y - start_y) ^ 2) in
  let* t := lift (div offset wall_length) in
  let window_x := start_x + t * (end_x - start_x) in
  let window_y := start_y + t * (end_y - start_y) in
  let '(offset_x, offset_y) :=
    if Req_dec_T start_x end_x
    then ((if Nat.eqb wall_idx 1 then wall_thickness / 2 else - wall_thickness / 2), 0)
    else (0, 0) in
  let* window_point :=
    create "IfcCartesianPoint"
      [reals [window_x + offset_x; window_y + offset_y; window_sill_height]] in
  let* window_axis := create "IfcAxis2Placement3D" [VRef window_point] in
  let* window_placement :=
    create "IfcLocalPlacement" [VRef (world_placement s); VRef window_axis] in
  let* profile_origin := create "IfcCartesianPoint" [reals [0.0; 0.0]] in
  let* profile_placement := create "IfcAxis2Placement2D" [VRef profile_origin] in
  let* window_profile :=
    create "IfcRectangleProfileDef"
      [VStr "AREA"; VStr "WindowProfile"; VRef profile_placement;
       VReal window_width; VReal window_depth] in
  let* extrude_dir := create "IfcDirection" [reals [0.0; 0.0; 1.0]] in
  let* window_solid :=
    create "IfcExtrudedAreaSolid"
      [VRef window_profile; VRef profile_placement; VRef extrude_dir;
       VReal window_height] in
  let* window_shape :=
    create "IfcShapeRepresentation"
      [VRef (body_context s); VStr "Body"; VStr "SweptSolid"; refs [window_solid]] in
  let* window_definition :=
    create "IfcProductDefinitionShape" [VNone; VNone; refs [window_shape]] in
  let* g := guid_new in
  let* window :=
    create "IfcWindow"
      [g; VNone; VStr window_name; VNone; VNone; VRef window_placement;
       VRef window_definition; VNone; VReal window_height; VReal window_width;
       VStr "WINDOW"; VNone; VNone] in
  let* window_color := create "IfcColourRgb" [VNone; VReal 0.7; VReal 0.9; VReal 1.0] in
  let* surface_style :=
    create "IfcSurfaceStyleRendering"
      [VRef window_color; VReal 0.4; VRef window_color; VNone; VNone; VNone;
       VNone; VNone; VStr "FLAT"] in
  let* surface_styles :=
    create "IfcSurfaceStyle" [VStr "WindowStyle"; VStr "BOTH"; refs [surface_style]] in
  let* styled_item :=
    create "IfcStyledItem"
      [VRef window_solid; refs [surface_styles]; VStr "WindowStyle"] in
  let* opening :=
    cut_window_opening (body_context s) profile_placement window_placement wall
      window window_name window_width window_height wall_thickness in
  let* g := guid_new in
  let* _ := create "IfcRelDefinesByType"
              [g; VNone; VStr "Window Type Assignment"; VNone; refs [window];
               VRef window_type] in
  let* g := guid_new in
  let* _ := create "IfcRelContainedInSpatialStructure"
              [g; VNone; VStr "Contains Windows"; VNone; refs [window];
               VRef storey] in
  ret (window, opening).

(** Lines 379-453: the door in the right wall of the ground floor; it
    returns the door and its opening.  Lines 428-440 are the opening. *)
Definition cut_door_opening (body_context profile_placement door_placement
    door : inst_id) (ground_walls : list inst_id)
    (door_width door_height wall_thickness : R) : Eff inst_id :=
  let door_opening_width := door_width + 0.02 in
  let door_opening_depth := wall_thickness + 0.05 in
  let* door_opening_profile :=
    create "IfcRectangleProfileDef"
      [VStr "AREA"; VStr "DoorOpeningProfile"; VRef profile_placement;
       VReal door_opening_width; VReal door_opening_depth] in
  let* extrude_dir := create "IfcDirection" [reals [0.0; 0.0; 1.0]] in
  let* door_opening_solid :=
    create "IfcExtrudedAreaSolid"
      [VRef door_opening_profile; VRef profile_placement; VRef extrude_dir;
       VReal (door_height + 0.01)] in
  let* door_opening_shape :=
    create "IfcShapeRepresentation"
      [VRef body_context; VStr "Body"; VStr "SweptSolid";
       refs [door_opening_solid]] in
  let* door_opening_definition :=
    create "IfcProductDefinitionShape" [VNone; VNone; refs [door_opening_shape]] in
  let* g := guid_new in
  let* door_opening :=
    create "IfcOpeningElement"
      [g; VNone; VStr "Door Opening"; VNone; VNone; VRef door_placement;
       VRef door_opening_definition; VNone; VStr "OPENING"] in
  let* g := guid_new in
  let* wall := lift (item ground_walls 1) in
  let* _ := create "IfcRelVoidsElement"
              [g; VNone; VStr "Door Opening"; VNone; VRef wall;
               VRef door_opening] in
  let* g := guid_new in
  let* _ := create "IfcRelFillsElement"
              [g; VNone; VStr "Door Fills Opening"; VNone; VRef door_opening;
               VRef door] in
  ret door_opening.

Definition add_door (s : Site) (door_type : inst_id) (ground_walls : list inst_id)
  : Eff (inst_id * inst_id) :=
  let door_offset := 2.0 in
  let door_width := 0.9 in
  let door_height := 2.1 in
  let door_depth := 0.25 in
  let* right_wall_config := lift (item wall_configs 1) in
  let door_x := house_length in
  let door_y := door_offset in
  let* door_point := create "IfcCartesianPoint" [reals [door_x; door_y; 0.0]] in
  let* door_y_dir := create "IfcDirection" [reals [0.0; 1.0; 0.0]] in
  let* door_axis :=
    create "IfcAxis2Placement3D" [VRef door_point; VRef (world_z s); VRef door_y_dir] in
  let* door_placement :=
    create "IfcLocalPlacement" [VRef (world_placement s); VRef door_axis] in
  let* profile_origin := create "IfcCartesianPoint" [reals [0.0; 0.0]] in
  let* profile_placement := create "IfcAxis2Placement2D" [VRef profile_origin] in
  let* door_profile :=
    create "IfcRectangleProfileDef"
      [VStr "AREA"; VStr "DoorProfile"; VRef profile_placement; VReal door_width;
       VReal door_depth] in
  let* extrude_dir := create "IfcDirection" [reals [0.0; 0.0; 1.0]] in
  let* door_solid :=
    create "IfcExtrudedAreaSolid"
      [VRef door_profile; VRef profile_placement; VRef extrude_dir;
       VReal door_height] in
  let* door_shape :=
    create "IfcShapeRepresentation"
      [VRef (body_context s); VStr "Body"; VStr "SweptSolid"; refs [door_solid]] in
  let* door_definition :=
    create "IfcProductDefinitionShape" [VNone; VNone; refs [door_shape]] in
  let* g := guid_new in
  let* door :=
    create "IfcDoor"
      [g; VNone; VStr "Front Door"; VNone; VNone; VRef door_placement;
       VRef door_definition; VNone; VReal door_height; VReal door_width;
       VStr "DOOR"; VNone; VNone] in
  let* door_color := create "IfcColourRgb" [VNone; VReal 0.6; VReal 0.4; VReal 0.2] in
  let* door_surface_style :=
    create "IfcSurfaceStyleRendering"
      [VRef door_color; VReal 0.0; VRef door_color; VNone; VNone; VNone; VNone;
       VNone; VStr "FLAT"] in
  let* door_surface_styles :=
    create "IfcSurfaceStyle"
      [VStr "DoorStyle"; VStr "BOTH"; refs [door_surface_style]] in
  let* door_styled_item :=
    create "IfcStyledItem"
      [VRef door_solid; refs [door_surface_styles]; VStr "DoorStyle"] in
  let* door_opening :=
    cut_door_opening (body_context s) profile_placement door_placement door
      ground_walls door_width door_height wall_thickness in
  let* g := guid_new in
  let* _ := create "IfcRelDefinesByType"
              [g; VNone; VStr "Door Type Assignment"; VNone; refs [door];
               VRef door_type] in
  let* g := guid_new in
  let* _ := create "IfcRelContainedInSpatialStructure"
              [g; VNone; VStr "Contains Door"; VNone; refs [door];
               VRef (ground_storey s)] in
  ret (door, door_opening).

(** Lines 457-476: the three slabs. *)
Definition create_slabs (s : Site) : Eff (list inst_id) :=
  let ground_slab_z := 0.0 in
  let* ground_slab :=
    create_slab (world_placement s) (body_context s) house_length house_width
      ground_slab_z slab_thickness "Ground Floor Slab" in
  let* g := guid_new in
  let* _ := create "IfcRelContainedInSpatialStructure"
              [g; VNone; VStr "Contains Floor Slab"; VNone; refs [ground_slab];
               VRef (ground_storey s)] in
  let first_slab_z := wall_height in
  let* first_slab :=
    create_slab (world_placement s) (body_context s) house_length house_width
      first_slab_z slab_thickness "First Floor Slab" in
  let* g := guid_new in
  let* _ := create "IfcRelContainedInSpatialStructure"
              [g; VNone; VStr "Contains Floor Slab"; VNone; refs [first_slab];
               VRef (first_storey s)] in
  let roof_slab_z := 2 * wall_height in
  let* roof_slab :=
    create_slab (world_placement s) (body_context s) house_length house_width
      roof_slab_z slab_thickness "Roof Slab" in
  let* g := guid_new in
  let* _ := create "IfcRelContainedInSpatialStructure"
              [g; VNone; VStr "Contains Roof Slab"; VNone; refs [roof_slab];
               VRef (first_storey s)] in
  ret [ground_slab; first_slab; roof_slab].

(** Lines 480-493: one material layer set per wall and per slab. *)
Definition associate_material (concrete_material : inst_id) (axis name : string)
    (element : inst_id) : Eff unit :=
  let* material_layer :=
    create "IfcMaterialLayer" [VRef concrete_material; VInt 200; VNone] in
  let* material_layer_set :=
    create "IfcMaterialLayerSet" [refs [material_layer]; VNone] in
  let* material_layer_set_usage :=
    create "IfcMaterialLayerSetUsage"
      [VRef material_layer_set; VStr axis; VStr "POSITIVE"; VInt (-100)] in
  let* g := guid_new in
  let* _ := create "IfcRelAssociatesMaterial"
              [g; VNone; VStr name; VNone; refs [element];
               VRef material_layer_set_usage] in
  ret tt.

Definition create_small_house : Eff unit :=
  let* s := create_hierarchy in
  let* ground_walls :=
    create_storey_walls s (ground_storey s) (fun wall_name => wall_name) 0.0 in
  let* first_walls :=
    create_storey_walls s (first_storey s)
      (fun wall_name => wall_name ++ " - First Floor") wall_height in
  let walls := (ground_walls ++ first_walls)%list in
  let* types := create_types in
  let all_walls := [ground_walls; first_walls] in
  let* _ :=
    for_each (fun cfg => let* _ := add_window s (fst types) all_walls cfg in ret tt)
      window_configs in
  let* _ := add_door s (snd types) ground_walls in
  let* slabs := create_slabs s in
  let* concrete_material := create "IfcMaterial" [VStr "Concrete"] in
  let* _ :=
    for_each (associate_material concrete_material "AXIS2" "Wall Material") walls in
  for_each (associate_material concrete_material "AXIS3" "Slab Material") slabs.

(** ** test_ifc_window.py: the opening of the test window *)

(** [window_params], in millimetres. *)
Record WindowParams : Type := {
  wp_name : string;
  wp_width : R;
  wp_depth : R;
  wp_height : R;
  wp_offset_x : R;
  wp_offset_y : R;
  wp_offset_z : R
}.

Definition to_m (v_mm : R) : R := v_mm / 1000.0.

(** Lines 332-409 of [create_test_ifc_with_window]. *)
Definition cut_test_opening (world_placement body_context wall window : inst_id)
    (window_params : WindowParams) : Eff inst_id :=
  let* opening_point :=
    create "IfcCartesianPoint"
      [reals [to_m (wp_offset_x window_params); to_m (wp_offset_y window_params);
              to_m (wp_offset_z window_params)]] in
  let* opening_axis := create "IfcAxis2Placement3D" [VRef opening_point] in
  let* opening_placement :=
    create "IfcLocalPlacement" [VRef world_placement; VRef opening_axis] in
  let* opening_profile_origin := create "IfcCartesianPoint" [reals [0.0; 0.0]] in
  let* opening_profile_placement :=
    create "IfcAxis2Placement2D" [VRef opening_profile_origin] in
  let opening_width := to_m (wp_width window_params) + 0.02 in
  let opening_depth := 0.25 in
  let* opening_profile :=
    create "IfcRectangleProfileDef"
      [VStr "AREA"; VStr "OpeningProfile"; VRef opening_profile_placement;
       VReal opening_width; VReal opening_depth] in
  let* extrude_dir := create "IfcDirection" [reals [0.0; 0.0; 1.0]] in
  let* opening_solid :=
    create "IfcExtrudedAreaSolid"
      [VRef opening_profile; VRef opening_profile_placement; VRef extrude_dir;
       VReal (to_m (wp_height window_params) + 0.01)] in
  let* opening_shape :=
    create "IfcShapeRepresentation"
      [VRef body_context; VStr "Body"; VStr "SweptSolid"; refs [opening_solid]] in
  let* opening_definition :=
    create "IfcProductDefinitionShape" [VNone; VNone; refs [opening_shape]] in
  let* g := guid_new in
  let* opening :=
    create "IfcOpeningElement"
      [g; VNone; VStr "Window Opening"; VNone; VNone; VRef opening_placement;
       VRef opening_definition; VNone; VStr "OPENING"] in
  let* g := guid_new in
  let* _ := create "IfcRelVoidsElement"
              [g; VNone; VStr "Wall Opening Relationship"; VNone; VRef wall;
               VRef opening] in
  let* g := guid_new in
  let* _ := create "IfcRelFillsElement"
              [g; VNone; VStr "Window Fills Opening"; VNone; VRef opening;
               VRef window] in
  ret opening.

End House.

(** * Annotating a model with property sets

    add_fire_ratings.py, add_building_fire_info.py and add_property_sets.py
    open an existing model and attach property sets to its objects. *)

Module Annotate.
Import Py.

(** ** The configuration tables of add_fire_ratings.py *)

Module FireRatingConfig.

Definition pset_table : list (string * string) :=
  [("wall", "Pset_WallCommon"); ("door", "Pset_DoorCommon");
   ("slab", "Pset_SlabCommon"); ("beam", "Pset_BeamCommon");
   ("column", "Pset_ColumnCommon"); ("window", "Pset_WindowCommon");
   ("stair", "Pset_StairCommon"); ("building", "Pset_BuildingCommon")].

Definition PSET_NAMES : list (string * list (string * string)) :=
  [("en", pset_table); ("de", pset_table); ("fr", pset_table);
   ("ch", pset_table)].

Definition european_ratings : list (string * string) :=
  [("external_wall", "REI 90"); ("internal_wall", "REI 60");
   ("loadbearing_wall", "REI 90"); ("fire_separation_wall", "REI 120");
   ("external_door", "EI2 30-C5-Sa"); ("internal_door", "EI2 30-C5");
   ("fire_door", "EI2 60-C5-S200");
   ("slab", "REI 60"); ("beam", "R 90"); ("column", "R 120");
   ("roof", "REI 30"); ("stair", "R 60"); ("window", "EW 30")].

Definition swiss_ratings : list (string * string) :=
  [("external_wall", "REI 90"); ("internal_wall", "REI 60");
   ("loadbearing_wall", "REI 90"); ("fire_separation_wall", "REI 120");
   ("external_door", "T 30"); ("internal_door", "T 30");
   ("fire_door", "T 60");
   ("slab", "REI 60"); ("beam", "R 90"); ("column", "R 120");
   ("roof", "REI 30"); ("stair", "R 60"); ("window", "EI 30")].

Definition FIRE_RATING_VALUES : list (string * list (string * string)) :=
  [("en", european_ratings); ("de", european_ratings);
   ("fr", european_ratings); ("ch", swiss_ratings)].

Definition ELEMENT_TYPE_MAP : list (string * string) :=
  [("IfcWall", "wall"); ("IfcDoor", "door"); ("IfcSlab", "slab");
   ("IfcBeam", "beam"); ("IfcColumn", "column"); ("IfcWindow", "window");
   ("IfcStair", "stair"); ("IfcStairFlight", "stair")].

End FireRatingConfig.

(** ** The configuration tables of add_building_fire_info.py *)

Module FireSafetyConfig.

Definition pset_table : list (string * string) :=
  [("project", "Pset_ProjectCommon"); ("site", "Pset_SiteCommon");
   ("building", "Pset_BuildingCommon"); ("storey", "Pset_BuildingStoreyCommon")].

Definition PSET_NAMES : list (string * list (string * string)) :=
  [("en", pset_table); ("de", pset_table); ("fr", pset_table);
   ("ch", pset_table)].

End FireSafetyConfig.

Section Model.

(** The values a caller passes as [property_value], [str] on them, and
    whether ifcopenshell's [createIfcInteger] and [createIfcReal] take them
    (they raise otherwise).  ifcopenshell is not part of the repository: its
    behaviour on values is a parameter of the model. *)
Context {PyVal : Type}.
Variable py_str : PyVal -> string.
Variable accepts_integer accepts_real : PyVal -> bool.

(** [guid_seq k] is the identifier that the [k]-th call of
    [ifcopenshell.guid.new()] returns. *)
Variable guid_seq : nat -> string.

Inductive NominalValue : Type :=
| IfcText (s : string)
| IfcLabel (s : string)
| IfcBoolean (b : bool)
| IfcInteger (v : PyVal)
| IfcReal (v : PyVal).

(** The instances the three scripts read or create, with the attributes they
    touch.  [IfcObject] is any object or spatial element (wall, door, site,
    building, storey, ...), [is_a] being its class; [IfcOther] is an instance
    of any other class, with its [Name] attribute when the class has one
    ([Some None] when it has one that is not set). *)
Inductive Instance : Type :=
| IfcObject (is_a GlobalId : string) (Name : option string)
    (Elevation : option float)
| IfcPropertySet (GlobalId : string) (OwnerHistory : option inst_id)
    (Name Description : option string) (HasProperties : list inst_id)
| IfcPropertySingleValue (Name : string) (Description : option string)
    (NominalValue : NominalValue) (Unit : option inst_id)
| IfcRelDefinesByProperties (GlobalId : string) (OwnerHistory : option inst_id)
    (Name Description : option string) (RelatedObjects : list inst_id)
    (RelatingPropertyDefinition : inst_id)
| IfcRelDefinesByType (RelatedObjects : list inst_id) (RelatingType : inst_id)
| IfcRelContainedInSpatialStructure (RelatedElements : list inst_id)
    (RelatingStructure : option inst_id)
| IfcOther (is_a : string) (Name : option (option string)).

(** ** Attribute access *)

Definition is_a (i : Instance) : string :=
  match i with
  | IfcObject t _ _ _ => t
  | IfcPropertySet _ _ _ _ _ => "IfcPropertySet"
  | IfcPropertySingleValue _ _ _ _ => "IfcPropertySingleValue"
  | IfcRelDefinesByProperties _ _ _ _ _ _ => "IfcRelDefinesByProperties"
  | IfcRelDefinesByType _ _ => "IfcRelDefinesByType"
  | IfcRelContainedInSpatialStructure _ _ => "IfcRelContainedInSpatialStructure"
  | IfcOther t _ => t
  end.

(** [hasattr(i, "Name")] and [i.Name]: [None] when the class has no such
    attribute.  The two relationship classes whose name the scripts never
    read are modelled without it. *)
Definition attr_Name (i : Instance) : option (option string) :=
  match i with
  | IfcObject _ _ n _ => Some n
  | IfcPropertySet _ _ n _ _ => Some n
  | IfcPropertySingleValue n _ _ _ => Some (Some n)
  | IfcRelDefinesByProperties _ _ n _ _ _ => Some n
  | IfcRelDefinesByType _ _ => Some None
  | IfcRelContainedInSpatialStructure _ _ => Some None
  | IfcOther _ n => n
  end.

(** [hasattr(rel, "RelatingPropertyDefinition")] and its value. *)
Definition attr_RelatingPropertyDefinition (i : Instance) : option inst_id :=
  match i with
  | IfcRelDefinesByProperties _ _ _ _ _ pd => Some pd
  | _ => None
  end.

(** [hasattr(pset, "HasProperties")] and its value. *)
Definition attr_HasProperties (i : Instance) : option (list inst_id) :=
  match i with
  | IfcPropertySet _ _ _ _ props => Some props
  | _ => None
  end.

Definition mem (x : inst_id) (l : list inst_id) : bool := existsb (Nat.eqb x) l.

(** Positions of the instances of a model that satisfy [p], in file order. *)
Definition select (m : list Instance) (p : Instance -> bool) : list inst_id :=
  List.filter (fun i => match m !! i with Some x => p x | None => false end)
    (seq 0 (length m)).

(** The inverse attribute [element.IsDefinedBy]: the relationships that
    define [element] (by properties or, in IFC2X3, by type). *)
Definition IsDefinedBy (m : list Instance) (element : inst_id) : list inst_id :=
  select m (fun i => match i with
                     | IfcRelDefinesByProperties _ _ _ _ objs _ => mem element objs
                     | IfcRelDefinesByType objs _ => mem element objs
                     | _ => false
                     end).

(** The inverse attribute [element.ContainedInStructure]. *)
Definition ContainedInStructure (m : list Instance) (element : inst_id)
  : list inst_id :=
  select m (fun i => match i with
                     | IfcRelContainedInSpatialStructure els _ => mem element els
                     | _ => false
                     end).

(** [model.by_type(t)] also returns the instances of the subclasses of [t];
    of the classes the scripts ask for, the IFC schemas give subclasses to
    these two. *)
Definition subclasses (t : string) : list string :=
  if String.eqb t "IfcWall" then ["IfcWallStandardCase"; "IfcWallElementedCase"]
  else if String.eqb t "IfcWindow" then ["IfcWindowStandardCase"]
  else [].

Definition by_type (m : list Instance) (t : string) : list inst_id :=
  select m (fun i => String.eqb (is_a i) t
                     || existsb (String.eqb (is_a i)) (subclasses t)).

(** ** The model as mutable state *)

(** A run owns the model and counts its calls of [ifcopenshell.guid.new()]. *)
Record State : Type := mkState {
  model : list Instance;
  guid_calls : nat
}.

Definition Eff : Type -> Type := Py.Eff State.

Definition get_model : Eff (list Instance) := fun st => (Returns (model st), st).

(** [model.createIfc...(...)]: the new instance goes to the end of the model. *)
Definition create (i : Instance) : Eff inst_id :=
  fun st => (Returns (length (model st)),
             mkState (model st ++ [i]) (guid_calls st)).

(** [ifcopenshell.guid.new()] *)
Definition guid_new : Eff string :=
  fun st => (Returns (guid_seq (guid_calls st)),
             mkState (model st) (S (guid_calls st))).

(** Reading an attribute of the instance behind a reference. *)
Definition read {A} (x : inst_id) (attr : Instance -> option A) : Eff A :=
  fun st => match model st !! x with
            | Some i => match attr i with
                        | Some a => (Returns a, st)
                        | None => (Raises "AttributeError", st)
                        end
            | None => (Raises "AttributeError", st)
            end.

(** [pset.HasProperties = props] *)
Definition set_HasProperties (pset : inst_id) (props : list inst_id) : Eff unit :=
  fun st => match model st !! pset with
            | Some (IfcPropertySet g oh n d _) =>
                (Returns tt,
                 mkState (<[pset := IfcPropertySet g oh n d props]> (model st))
                   (guid_calls st))
            | _ => (Raises "AttributeError", st)
            end.

(** ** The scan for an existing property set

    Both managers run the same loop over [IsDefinedBy]:
    the first relationship whose property definition has a [Name] equal to
    [pset_name] wins. *)
Fixpoint scan_psets (m : list Instance) (pset_name : string) (rels : list inst_id)
  : option inst_id :=
  match rels with
  | [] => None
  | rel :: rels' =>
      match m !! rel ≫= attr_RelatingPropertyDefinition with
      | Some prop_def =>
          match m !! prop_def ≫= attr_Name with
          | Some (Some n) =>
              if String.eqb n pset_name then Some prop_def
              else scan_psets m pset_name rels'
          | _ => scan_psets m pset_name rels'
          end
      | None => scan_psets m pset_name rels'
      end
  end.

(** [element.Name or element.GlobalId] *)
Definition name_or_guid (i : Instance) : option string :=
  match i with
  | IfcObject _ g n _ => Some (or_else n g)
  | _ => None
  end.

(** ** add_fire_ratings.py: [ModelAnalyzer] *)

(** [relating_structure and relating_structure.is_a("IfcBuilding")] for one
    containment relationship; no class of the schema derives from
    [IfcBuilding]. *)
Definition in_building (m : list Instance) (rel : inst_id) : bool :=
  match m !! rel with
  | Some (IfcRelContainedInSpatialStructure _ (Some relating_structure)) =>
      match m !! relating_structure with
      | Some i => String.eqb (is_a i) "IfcBuilding"
      | None => false
      end
  | _ => false
  end.

(** The loop over [IsDefinedBy] of [classify_wall] and [classify_door]:
    [hit] is the test on [prop_def.Name.lower()].  [None.lower()] raises. *)
Fixpoint scan_names (m : list Instance) (hit : string -> bool)
    (rels : list inst_id) : Outcome bool :=
  match rels with
  | [] => Returns false
  | rel :: rels' =>
      match m !! rel ≫= attr_RelatingPropertyDefinition with
      | Some prop_def =>
          match m !! prop_def ≫= attr_Name with
          | Some (Some n) =>
              if hit (lower n) then Returns true else scan_names m hit rels'
          | Some None => Raises "AttributeError"
          | None => scan_names m hit rels'
          end
      | None => scan_names m hit rels'
      end
  end.

Definition classify_wall (m : list Instance) (wall : inst_id) : Outcome string :=
  if existsb (in_building m) (ContainedInStructure m wall)
  then Returns "external_wall"
  else match scan_names m (contains "load") (IsDefinedBy m wall) with
       | Returns true => Returns "loadbearing_wall"
       | Returns false => Returns "internal_wall"
       | Raises e => Raises e
       end.

Definition classify_door (m : list Instance) (door : inst_id) : Outcome string :=
  if existsb (in_building m) (ContainedInStructure m door)
  then Returns "external_door"
  else match scan_names m (fun n => contains "fire" n || contains "brand" n)
               (IsDefinedBy m door) with
       | Returns true => Returns "fire_door"
       | Returns false => Returns "internal_door"
       | Raises e => Raises e
       end.

Definition type_mapping : list (string * string) :=
  [("IfcSlab", "slab"); ("IfcBeam", "beam"); ("IfcColumn", "column");
   ("IfcWindow", "window"); ("IfcStair", "stair"); ("IfcStairFlight", "stair")].

Definition get_element_classification (language : string) (m : list Instance)
    (element : inst_id) : Outcome (string * string) :=
  match m !! element with
  | None => Raises "AttributeError"
  | Some i =>
      let element_type := is_a i in
      let classification :=
        if String.eqb element_type "IfcWall" then classify_wall m element
        else if String.eqb element_type "IfcDoor" then classify_door m element
        else if existsb (String.eqb element_type)
                  ["IfcSlab"; "IfcBeam"; "IfcColumn"; "IfcWindow"; "IfcStair";
                   "IfcStairFlight"]
        then Returns (default "internal_wall" (dict_get type_mapping element_type))
        else Returns "internal_wall" in
      match classification with
      | Raises e => Raises e
      | Returns c =>
          match dict_item FireRatingConfig.FIRE_RATING_VALUES language with
          | Raises e => Raises e
          | Returns ratings => Returns (c, default "30 min" (dict_get ratings c))
          end
      end
  end.

(** ** add_fire_ratings.py: [FireRatingManager] *)

(** [self.pset_names], as [__init__] sets it. *)
Definition fire_rating_pset_names (language : string) : Outcome (list (string * string)) :=
  match dict_item FireRatingConfig.PSET_NAMES "en" with
  | Raises e => Raises e
  | Returns en => Returns (default en (dict_get FireRatingConfig.PSET_NAMES language))
  end.

Definition get_pset_name (language element_type : string) : Outcome string :=
  let base_type := default "wall" (dict_get FireRatingConfig.ELEMENT_TYPE_MAP element_type) in
  match fire_rating_pset_names language with
  | Raises e => Raises e
  | Returns pset_names =>
      match dict_item pset_names "wall" with
      | Raises e => Raises e
      | Returns wall_name => Returns (default wall_name (dict_get pset_names base_type))
      end
  end.

Definition add_fire_rating_property_body (language : string) (element : inst_id)
    (fire_rating : string) : Eff unit :=
  let* element_type := read element (fun i => Some (is_a i)) in
  let* pset_name := lift (get_pset_name language element_type) in
  let* m := get_model in
  let* pset :=
    match scan_psets m pset_name (IsDefinedBy m element) with
    | Some prop_def => ret prop_def
    | None =>
        let* g := guid_new in
        let* pset := create (IfcPropertySet g None (Some pset_name)
                               (Some ("Fire rating properties in " ++ language)) []) in
        let* g' := guid_new in
        let* label := read element name_or_guid in
        let* _ := create (IfcRelDefinesByProperties g' None
                            (Some ("Fire rating for " ++ label)) None
                            [element] pset) in
        ret pset
    end in
  let* fire_rating_prop :=
    create (IfcPropertySingleValue "FireRating"
              (Some ("Fire resistance rating in " ++ language))
              (IfcText fire_rating) None) in
  let* existing_properties := read pset attr_HasProperties in
  set_HasProperties pset (existing_properties ++ [fire_rating_prop]).

Definition add_fire_rating_property (language : string) (element : inst_id)
    (fire_rating : string) : State -> bool * State :=
  try_except (add_fire_rating_property_body language element fire_rating).

(** [results] of [process_all_elements]: the counts under "processed" and
    "errors". *)
Fixpoint process_elements (language : string) (elements : list inst_id)
    (results : nat * nat) : Eff (nat * nat) :=
  match elements with
  | [] => ret results
  | element :: elements' =>
      let* m := get_model in
      let* cf := lift (get_element_classification language m element) in
      fun st =>
        match add_fire_rating_property language element (snd cf) st with
        | (true, st') =>
            process_elements language elements' (S (fst results), snd results) st'
        | (false, st') =>
            process_elements language elements' (fst results, S (snd results)) st'
        end
  end.

Fixpoint process_element_types (language : string) (element_types : list string)
    (results : nat * nat) : Eff (nat * nat) :=
  match element_types with
  | [] => ret results
  | element_type :: element_types' =>
      let* m := get_model in
      let* results' := process_elements language (by_type m element_type) results in
      process_element_types language element_types' results'
  end.

Definition process_all_elements (language : string) : Eff (nat * nat) :=
  process_element_types language
    ["IfcWall"; "IfcDoor"; "IfcSlab"; "IfcBeam"; "IfcColumn"; "IfcWindow";
     "IfcStair"; "IfcStairFlight"]
    (0, 0).

(** ** add_building_fire_info.py: [BuildingFireSafetyManager] *)

(** The fields of the manager that [add_fire_safety_property] reads. *)
Record BuildingFireSafetyManager : Type := {
  language : string;
  owner_history : option inst_id
}.

(** [self.pset_names], as [__init__] sets it. *)
Definition fire_safety_pset_names (self : BuildingFireSafetyManager)
  : Outcome (list (string * string)) :=
  match dict_item FireSafetyConfig.PSET_NAMES "en" with
  | Raises e => Raises e
  | Returns en =>
      Returns (default en (dict_get FireSafetyConfig.PSET_NAMES (language self)))
  end.

(** The property set name chosen from the class of the entity. *)
Definition fire_safety_pset_name (self : BuildingFireSafetyManager)
    (entity_type : string) : Outcome string :=
  match fire_safety_pset_names self with
  | Raises e => Raises e
  | Returns pset_names =>
      if contains "Project" entity_type then dict_item pset_names "project"
      else if contains "Site" entity_type then dict_item pset_names "site"
      else if contains "Building" entity_type then dict_item pset_names "building"
      else if contains "BuildingStorey" entity_type then dict_item pset_names "storey"
      else dict_item pset_names "building"
  end.

(** The typed value of the property, from [property_type]. *)
Definition make_nominal_value (property_type : string) (property_value : PyVal)
  : Outcome NominalValue :=
  if String.eqb property_type "integer" then
    if accepts_integer property_value then Returns (IfcInteger property_value)
    else Raises "TypeError"
  else if String.eqb property_type "real" then
    if accepts_real property_value then Returns (IfcReal property_value)
    else Raises "TypeError"
  else Returns (IfcText (py_str property_value)).

Definition add_fire_safety_property_body (self : BuildingFireSafetyManager)
    (entity : inst_id) (property_name : string) (property_value : PyVal)
    (property_type : string) : Eff unit :=
  let* entity_type := read entity (fun i => Some (is_a i)) in
  let* pset_name := lift (fire_safety_pset_name self entity_type) in
  let* m := get_model in
  let* pset :=
    match scan_psets m pset_name (IsDefinedBy m entity) with
    | Some prop_def => ret prop_def
    | None =>
        let* g := guid_new in
        let* pset := create (IfcPropertySet g (owner_history self) (Some pset_name)
                               (Some ("Fire safety properties in " ++ language self))
                               []) in
        let* g' := guid_new in
        let* label := read entity name_or_guid in
        let* _ := create (IfcRelDefinesByProperties g' (owner_history self)
                            (Some ("Fire safety for " ++ label)) None
                            [entity] pset) in
        ret pset
    end in
  let* nominal_value := lift (make_nominal_value property_type property_value) in
  let* fire_safety_prop :=
    create (IfcPropertySingleValue property_name
              (Some ("Fire safety property in " ++ language self))
              nominal_value None) in
  let* existing_properties := read pset attr_HasProperties in
  set_HasProperties pset (existing_properties ++ [fire_safety_prop]).

Definition add_fire_safety_property (self : BuildingFireSafetyManager)
    (entity : inst_id) (property_name : string) (property_value : PyVal)
    (property_type : string) : State -> bool * State :=
  try_except
    (add_fire_safety_property_body self entity property_name property_value
       property_type).

(** The third ground-floor literal of the source, as Python reads it: the
    file holds the bytes C3 83 C2 A9 where an e-acute was meant, that is the
    two code points U+00C3 and U+00A9. *)
Definition rez_de_chaussee : string :=
  "rez-de-chauss" ++ String (ascii_of_nat 195) (String (ascii_of_nat 169) "e").

(** [hasattr(storey, "Elevation")] and its value: only objects carry it. *)
Definition attr_Elevation (i : Instance) : option (option float) :=
  match i with
  | IfcObject _ _ _ e => Some e
  | _ => None
  end.

(** [float(storey.Elevation) if storey.Elevation else 0.0]: a float is falsy
    when it equals zero, [None] is falsy. *)
Definition storey_elevation (storey : Instance) : float :=
  match attr_Elevation storey with
  | Some (Some e) => if PrimFloat.eqb e 0%float then 0%float else e
  | _ => 0%float
  end.

Definition classify_storey_type (storey : Instance) : string :=
  let storey_name := or_else (mjoin (attr_Name storey)) EmptyString in
  let storey_name_str := lower storey_name in
  let elevation := storey_elevation storey in
  if PrimFloat.ltb elevation 0%float then "basement"
  else if PrimFloat.eqb elevation 0%float
          || contains "ground" storey_name_str
          || contains "erdgeschoss" storey_name_str
          || contains rez_de_chaussee storey_name_str
  then "ground"
  else if contains "roof" storey_name_str
          || contains "dach" storey_name_str
          || contains "toit" storey_name_str
  then "roof"
  else "upper".

(** ** add_property_sets.py *)

Definition add_wall_property_sets (owner_history : option inst_id) (i : nat)
    (wall : inst_id) : Eff unit :=
  let* g := guid_new in
  let* wall_pset := create (IfcPropertySet g owner_history (Some "Pset_WallCommon")
                              (Some "Common properties for walls") []) in
  let* is_external_prop :=
    create (IfcPropertySingleValue "IsExternal"
              (Some "Indicates whether the element is external")
              (IfcBoolean true) None) in
  let* load_bearing_prop :=
    create (IfcPropertySingleValue "LoadBearing"
              (Some "Indicates if the element is load bearing")
              (IfcBoolean false) None) in
  let* _ := set_HasProperties wall_pset [is_external_prop; load_bearing_prop] in
  let* g := guid_new in
  let* _ := create (IfcRelDefinesByProperties g owner_history
                      (Some ("Wall " ++ str_nat (i + 1)
                             ++ " Pset_WallCommon Assignment"))
                      None [wall] wall_pset) in
  let* g := guid_new in
  let* custom_pset := create (IfcPropertySet g owner_history (Some "CPset_Custom")
                                (Some "Custom properties for walls") []) in
  let* graffiti_prop :=
    create (IfcPropertySingleValue "Graffitischutz"
              (Some "Indicates if wall has graffiti protection")
              (IfcBoolean true) None) in
  let* _ := set_HasProperties custom_pset [graffiti_prop] in
  let* g := guid_new in
  let* _ := create (IfcRelDefinesByProperties g owner_history
                      (Some ("Wall " ++ str_nat (i + 1)
                             ++ " CPset_Custom Assignment"))
                      None [wall] custom_pset) in
  ret tt.

Definition add_window_property_sets (owner_history : option inst_id) (i : nat)
    (window : inst_id) : Eff unit :=
  let* g := guid_new in
  let* window_pset := create (IfcPropertySet g owner_history
                                (Some "Pset_WindowCommon")
                                (Some "Common properties for windows") []) in
  let* is_external_prop :=
    create (IfcPropertySingleValue "IsExternal"
              (Some "Indicates whether the element is external")
              (IfcBoolean true) None) in
  let* reference_prop :=
    create (IfcPropertySingleValue "Reference"
              (Some "Reference designation for the window")
              (IfcLabel ("WIN-" ++ str_nat_03d (i + 1))) None) in
  let* _ := set_HasProperties window_pset [is_external_prop; reference_prop] in
  let* g := guid_new in
  let* _ := create (IfcRelDefinesByProperties g owner_history
                      (Some ("Window " ++ str_nat (i + 1)
                             ++ " Pset_WindowCommon Assignment"))
                      None [window] window_pset) in
  let* g := guid_new in
  let* reuse_pset := create (IfcPropertySet g owner_history (Some "CPSet_ReUse")
                               (Some "Reuse properties for windows") []) in
  let* reusable_prop :=
    create (IfcPropertySingleValue "Reusable"
              (Some "Indicates if element can be reused")
              (IfcBoolean false) None) in
  let* _ := set_HasProperties reuse_pset [reusable_prop] in
  let* g := guid_new in
  let* _ := create (IfcRelDefinesByProperties g owner_history
                      (Some ("Window " ++ str_nat (i + 1)
                             ++ " CPSet_ReUse Assignment"))
                      None [window] reuse_pset) in
  ret tt.

(** [add_property_sets_to_model] between opening the file and writing it. *)
Definition add_property_sets_to_model : Eff unit :=
  let* m := get_model in
  let owner_history := head (by_type m "IfcOwnerHistory") in
  let walls := by_type m "IfcWall" in
  let windows := by_type m "IfcWindow" in
  let* _ := for_enumerate (add_wall_property_sets owner_history) 0 walls in
  for_enumerate (add_window_property_sets owner_history) 0 windows.

(** ** Storey classification *)








(** C10: a storey without elevation is classified with elevation 0.0, hence
    as ground whatever its name. *)
Theorem classify_storey_type_no_elevation (t g : string) (name : option string) :
  storey_elevation (IfcObject t g name None) = 0%float
  /\ classify_storey_type (IfcObject t g name None) = "ground".
Proof. split; reflexivity. Qed.

(** The third ground-floor literal holds the capital U+00C3, which no
    lowered name contains: it never matches. *)
Lemma lower_char_not_195 c : lower_char c <> ascii_of_nat 195.
Proof.
  destruct c as [[] [] [] [] [] [] [] []]; vm_compute; discriminate.
Qed.

(** ** Property sets attached to an entity *)

(** The references of a relationship to its property definition and of a
    property set to its properties point into the first [n] instances. *)
Definition refs_ok (n : nat) (i : Instance) : bool :=
  match i with
  | IfcRelDefinesByProperties _ _ _ _ _ pd => Nat.ltb pd n
  | IfcPropertySet _ _ _ _ props => forallb (fun p => Nat.ltb p n) props
  | _ => true
  end.

(** A model as ifcopenshell loads or builds it: no reference dangles. *)
Definition wf (m : list Instance) : bool := forallb (refs_ok (length m)) m.

(** The property set behind a relationship, with its name. *)
Definition named_set (m : list Instance) (rel : inst_id) : option (inst_id * string) :=
  match m !! rel ≫= attr_RelatingPropertyDefinition with
  | Some pd =>
      match m !! pd with
      | Some (IfcPropertySet _ _ (Some n) _ _) => Some (pd, n)
      | _ => None
      end
  | None => None
  end.

(** The named property sets attached to [entity], one entry per
    relationship: relationship, property set, name. *)
Definition attached (m : list Instance) (entity : inst_id)
  : list (inst_id * (inst_id * string)) :=
  omap (fun rel => pair rel <$> named_set m rel) (IsDefinedBy m entity).

(** The relationships that attach a property set named [name] to [entity],
    with the set. *)
Definition sets_named (m : list Instance) (entity : inst_id) (name : string)
  : list (inst_id * inst_id) :=
  omap (fun '(rel, (pd, n)) => if String.eqb n name then Some (rel, pd) else None)
    (attached m entity).

(** The names of the properties of a property set, in order. *)
Definition property_names (m : list Instance) (pset : inst_id) : list string :=
  match m !! pset ≫= attr_HasProperties with
  | Some props =>
      omap (fun p => match m !! p with
                     | Some (IfcPropertySingleValue n _ _ _) => Some n
                     | _ => None
                     end) props
  | None => []
  end.

(** At most one property set of a given name is attached to any entity. *)
Definition unique_sets (m : list Instance) : Prop :=
  forall entity name, length (sets_named m entity name) <= 1.

(** *** How the observations change when the model grows *)

Local Open Scope list_scope.

Lemma select_app (m : list Instance) x p :
  select (m ++ [x]) p = select m p ++ (if p x then [length m] else []).
Proof.
  unfold select. rewrite length_app, Nat.add_comm. simpl length.
  rewrite seq_S, List.filter_app. simpl.
  rewrite lookup_app_r, Nat.sub_diag by lia. simpl.
  f_equal.
  apply List.filter_ext_in. intros i Hi. apply in_seq in Hi.
  rewrite lookup_app_l by lia. reflexivity.
Qed.

Lemma select_insert (m : list Instance) i x y p :
  m !! i = Some x -> p y = p x -> select (<[i := y]> m) p = select m p.
Proof.
  intros Hx Hp. unfold select. rewrite length_insert.
  apply List.filter_ext_in. intros j Hj.
  destruct (decide (j = i)) as [->|Hne].
  - rewrite list_lookup_insert_eq by (eapply lookup_lt_Some; eauto).
    rewrite Hx. exact Hp.
  - rewrite list_lookup_insert_ne by congruence. reflexivity.
Qed.

Lemma select_lt (m : list Instance) p i : In i (select m p) -> i < length m.
Proof.
  unfold select. intros Hi. apply List.filter_In in Hi as [Hi _].
  apply in_seq in Hi. lia.
Qed.

Lemma select_In (m : list Instance) p i :
  In i (select m p) <-> exists x, m !! i = Some x /\ p x = true.
Proof.
  unfold select. rewrite List.filter_In, in_seq. split.
  - intros [_ H]. destruct (m !! i) as [x|] eqn:E; [|discriminate].
    exists x. split; [reflexivity | exact H].
  - intros (x & Hx & Hp). rewrite Hx. split; [|exact Hp].
    apply lookup_lt_Some in Hx. lia.
Qed.

(** Whether a relationship defines [entity]. *)
Definition defines (entity : inst_id) (i : Instance) : bool :=
  match i with
  | IfcRelDefinesByProperties _ _ _ _ objs _ => mem entity objs
  | IfcRelDefinesByType objs _ => mem entity objs
  | _ => false
  end.

Lemma IsDefinedBy_select m e : IsDefinedBy m e = select m (defines e).
Proof. reflexivity. Qed.

Lemma refs_ok_mono n n' i : n <= n' -> refs_ok n i = true -> refs_ok n' i = true.
Proof.
  intros Hn. destruct i; simpl; auto.
  - rewrite !forallb_forall. intros H p Hp. specialize (H p Hp).
    apply Nat.ltb_lt in H. apply Nat.ltb_lt. lia.
  - intros H. apply Nat.ltb_lt in H. apply Nat.ltb_lt. lia.
Qed.

Lemma wf_lookup m i x : wf m = true -> m !! i = Some x -> refs_ok (length m) x = true.
Proof.
  unfold wf. rewrite forallb_forall. intros H Hx. apply H.
  apply list_elem_of_In. eapply list_elem_of_lookup_2; eauto.
Qed.

Lemma wf_app m x : wf m = true -> refs_ok (S (length m)) x = true -> wf (m ++ [x]) = true.
Proof.
  unfold wf. intros Hm Hx. rewrite length_app, Nat.add_comm. simpl length.
  rewrite forallb_app. simpl. rewrite Hx, andb_true_r.
  rewrite forallb_forall in *. intros i Hi. eapply refs_ok_mono; [|eauto]. lia.
Qed.

Lemma wf_insert m i x y :
  wf m = true -> m !! i = Some x -> refs_ok (length m) y = true ->
  wf (<[i := y]> m) = true.
Proof.
  unfold wf. intros Hm Hx Hy. rewrite length_insert.
  rewrite forallb_forall in *. intros z Hz.
  apply list_elem_of_In in Hz. apply list_elem_of_lookup_1 in Hz as [j Hj].
  destruct (decide (j = i)) as [->|Hne].
  - rewrite list_lookup_insert_eq in Hj by (eapply lookup_lt_Some; eauto).
    congruence.
  - rewrite list_lookup_insert_ne in Hj by congruence.
    apply Hm. apply list_elem_of_In. eapply list_elem_of_lookup_2; eauto.
Qed.

Lemma lookup_app_old (m : list Instance) x i :
  i < length m -> (m ++ [x]) !! i = m !! i.
Proof. intros. apply lookup_app_l. assumption. Qed.

Lemma rel_target_lt (m : list Instance) (rel : nat) (pd : nat) :
  wf m = true -> m !! rel ≫= attr_RelatingPropertyDefinition = Some pd ->
  rel < length m /\ pd < length m.
Proof.
  intros Hwf H. destruct (m !! rel) as [x|] eqn:E; [|discriminate].
  split; [eapply lookup_lt_Some; eauto|].
  apply (wf_lookup _ _ _ Hwf) in E. destruct x; try discriminate.
  simpl in H. injection H as <-. simpl in E. apply Nat.ltb_lt in E. exact E.
Qed.

(** The relationship read at an old position and what it points to do not
    change when an instance is appended. *)
Lemma target_app (m : list Instance) (x : Instance) (rel : nat) :
  wf m = true -> rel < length m ->
  (m ++ [x]) !! rel ≫= attr_RelatingPropertyDefinition
  = m !! rel ≫= attr_RelatingPropertyDefinition
  /\ forall pd, m !! rel ≫= attr_RelatingPropertyDefinition = Some pd ->
                (m ++ [x]) !! pd = m !! pd.
Proof.
  intros Hwf Hrel. rewrite lookup_app_old by assumption. split; [reflexivity|].
  intros pd Hpd. apply rel_target_lt in Hpd as [_ Hpd]; [|assumption].
  apply lookup_app_old. assumption.
Qed.

Lemma named_set_app (m : list Instance) (x : Instance) (rel : nat) :
  wf m = true -> rel < length m -> named_set (m ++ [x]) rel = named_set m rel.
Proof.
  intros Hwf Hrel. unfold named_set.
  destruct (target_app m x rel Hwf Hrel) as [-> Ht].
  destruct (m !! rel ≫= attr_RelatingPropertyDefinition) as [pd|]; [|reflexivity].
  rewrite Ht by reflexivity. reflexivity.
Qed.

(** Replacing the properties of a property set changes neither the
    relationships nor the names. *)
Lemma lookup_insert_pset (m : list Instance) (pd : nat) g oh n d props props' (j : nat) :
  m !! pd = Some (IfcPropertySet g oh n d props) ->
  (<[pd := IfcPropertySet g oh n d props']> m) !! j
  = match m !! j with
    | Some x => Some (if decide (j = pd) then IfcPropertySet g oh n d props' else x)
    | None => None
    end.
Proof.
  intros H. destruct (decide (j = pd)) as [->|Hne].
  - rewrite list_lookup_insert_eq by (eapply lookup_lt_Some; eauto).
    rewrite H. reflexivity.
  - rewrite list_lookup_insert_ne by congruence. destruct (m !! j); reflexivity.
Qed.

Lemma target_insert (m : list Instance) (pd : nat) g oh n d props props' (rel : nat) :
  m !! pd = Some (IfcPropertySet g oh n d props) ->
  (<[pd := IfcPropertySet g oh n d props']> m) !! rel ≫= attr_RelatingPropertyDefinition
  = m !! rel ≫= attr_RelatingPropertyDefinition.
Proof.
  intros H. rewrite (lookup_insert_pset _ _ _ _ _ _ _ _ _ H).
  destruct (m !! rel) as [x|] eqn:E; [|reflexivity]. simpl.
  destruct (decide (rel = pd)) as [->|]; [|reflexivity].
  rewrite H in E. injection E as <-. reflexivity.
Qed.

Lemma name_insert (m : list Instance) (pd : nat) g oh n d props props' (j : nat) :
  m !! pd = Some (IfcPropertySet g oh n d props) ->
  (<[pd := IfcPropertySet g oh n d props']> m) !! j ≫= attr_Name
  = m !! j ≫= attr_Name.
Proof.
  intros H. rewrite (lookup_insert_pset _ _ _ _ _ _ _ _ _ H).
  destruct (m !! j) as [x|] eqn:E; [|reflexivity]. simpl.
  destruct (decide (j = pd)) as [->|]; [|reflexivity].
  rewrite H in E. injection E as <-. reflexivity.
Qed.

Lemma named_set_insert (m : list Instance) (pd : nat) g oh n d props props' (rel : nat) :
  m !! pd = Some (IfcPropertySet g oh n d props) ->
  named_set (<[pd := IfcPropertySet g oh n d props']> m) rel = named_set m rel.
Proof.
  intros H. unfold named_set. rewrite (target_insert _ _ _ _ _ _ _ _ _ H).
  destruct (m !! rel ≫= attr_RelatingPropertyDefinition) as [t|]; [|reflexivity].
  rewrite (lookup_insert_pset _ _ _ _ _ _ _ _ _ H).
  destruct (m !! t) as [x|] eqn:E; [|reflexivity].
  destruct (decide (t = pd)) as [->|]; [|reflexivity].
  rewrite H in E. injection E as <-. reflexivity.
Qed.

Lemma IsDefinedBy_app (m : list Instance) (x : Instance) (e : nat) :
  IsDefinedBy (m ++ [x]) e
  = IsDefinedBy m e ++ (if defines e x then [length m] else []).
Proof. apply select_app. Qed.

Lemma IsDefinedBy_insert (m : list Instance) (pd : nat) g oh n d props props' (e : nat) :
  m !! pd = Some (IfcPropertySet g oh n d props) ->
  IsDefinedBy (<[pd := IfcPropertySet g oh n d props']> m) e = IsDefinedBy m e.
Proof. intros H. eapply select_insert; [exact H | reflexivity]. Qed.

Lemma IsDefinedBy_lt (m : list Instance) (e : nat) (rel : nat) : In rel (IsDefinedBy m e) -> rel < length m.
Proof. apply select_lt. Qed.

Lemma omap_ext_In {A B} (f g : A -> option B) (l : list A) :
  (forall a, In a l -> f a = g a) -> omap f l = omap g l.
Proof.
  induction l as [|a l IH]; intros H; [reflexivity|].
  change (omap f (a :: l)) with (match f a with Some y => y :: omap f l | None => omap f l end).
  change (omap g (a :: l)) with (match g a with Some y => y :: omap g l | None => omap g l end).
  rewrite H by (left; reflexivity). rewrite IH; [reflexivity|].
  intros b Hb. apply H. right. exact Hb.
Qed.

(** What a new instance attaches to [e]: nothing, unless it is a
    relationship that defines [e] by a named property set. *)
Definition newly_attached (m : list Instance) (x : Instance) (e : inst_id)
  : list (inst_id * (inst_id * string)) :=
  if defines e x
  then match named_set (m ++ [x]) (length m) with
       | Some s => [(length m, s)]
       | None => []
       end
  else [].

Lemma attached_app (m : list Instance) (x : Instance) (e : nat) :
  wf m = true -> attached (m ++ [x]) e = attached m e ++ newly_attached m x e.
Proof.
  intros Hwf. unfold attached, newly_attached. rewrite IsDefinedBy_app, omap_app.
  f_equal.
  - apply omap_ext_In. intros rel Hrel. apply IsDefinedBy_lt in Hrel.
    rewrite named_set_app by assumption. reflexivity.
  - destruct (defines e x); [|reflexivity]. simpl.
    destruct (named_set (m ++ [x]) (length m)); reflexivity.
Qed.

Lemma attached_insert (m : list Instance) (pd : nat) g oh n d props props' (e : nat) :
  m !! pd = Some (IfcPropertySet g oh n d props) ->
  attached (<[pd := IfcPropertySet g oh n d props']> m) e = attached m e.
Proof.
  intros H. unfold attached. rewrite (IsDefinedBy_insert _ _ _ _ _ _ _ _ _ H).
  apply omap_ext_In. intros rel _.
  rewrite (named_set_insert _ _ _ _ _ _ _ _ _ H). reflexivity.
Qed.

Definition pick_name (name : string) (a : inst_id * (inst_id * string))
  : option (inst_id * inst_id) :=
  let '(rel, (pd, n)) := a in if String.eqb n name then Some (rel, pd) else None.

Lemma sets_named_attached m e name :
  sets_named m e name = omap (pick_name name) (attached m e).
Proof. reflexivity. Qed.

Lemma sets_named_app (m : list Instance) (x : Instance) (e : nat) name :
  wf m = true ->
  sets_named (m ++ [x]) e name
  = sets_named m e name ++ omap (pick_name name) (newly_attached m x e).
Proof.
  intros Hwf. rewrite !sets_named_attached, attached_app, omap_app by assumption.
  reflexivity.
Qed.

Lemma sets_named_insert (m : list Instance) (pd : nat) g oh n d props props'
    (e : nat) name :
  m !! pd = Some (IfcPropertySet g oh n d props) ->
  sets_named (<[pd := IfcPropertySet g oh n d props']> m) e name
  = sets_named m e name.
Proof.
  intros H. rewrite !sets_named_attached, (attached_insert _ _ _ _ _ _ _ _ _ H).
  reflexivity.
Qed.

(** *** The scan and the attached sets *)

Lemma scan_psets_ext (m m' : list Instance) name (rels : list nat) :
  (forall rel, In rel rels ->
     m' !! rel ≫= attr_RelatingPropertyDefinition
     = m !! rel ≫= attr_RelatingPropertyDefinition
     /\ forall pd, m !! rel ≫= attr_RelatingPropertyDefinition = Some pd ->
                   m' !! pd ≫= attr_Name = m !! pd ≫= attr_Name) ->
  scan_psets m' name rels = scan_psets m name rels.
Proof.
  induction rels as [|rel rels IH]; intros H; [reflexivity|]. simpl.
  destruct (H rel (or_introl eq_refl)) as [-> Hn].
  rewrite IH by (intros r Hr; apply H; right; exact Hr).
  destruct (m !! rel ≫= attr_RelatingPropertyDefinition) as [pd|]; [|reflexivity].
  rewrite Hn by reflexivity. reflexivity.
Qed.

Lemma scan_psets_app_model (m : list Instance) (x : Instance) name (e : nat) :
  wf m = true ->
  scan_psets (m ++ [x]) name (IsDefinedBy m e) = scan_psets m name (IsDefinedBy m e).
Proof.
  intros Hwf. apply scan_psets_ext. intros rel Hrel. apply IsDefinedBy_lt in Hrel.
  destruct (target_app m x rel Hwf Hrel) as [E Ht]. split; [exact E|].
  intros pd Hpd. rewrite Ht by exact Hpd. reflexivity.
Qed.

Lemma scan_psets_insert (m : list Instance) (pd : nat) g oh n d props props' name
    (rels : list nat) :
  m !! pd = Some (IfcPropertySet g oh n d props) ->
  scan_psets (<[pd := IfcPropertySet g oh n d props']> m) name rels
  = scan_psets m name rels.
Proof.
  intros H. apply scan_psets_ext. intros rel _. split.
  - apply (target_insert _ _ _ _ _ _ _ _ _ H).
  - intros t _. apply (name_insert _ _ _ _ _ _ _ _ _ H).
Qed.

Lemma scan_psets_app_list (m : list Instance) name (l1 l2 : list nat) :
  scan_psets m name (l1 ++ l2)
  = match scan_psets m name l1 with
    | Some pd => Some pd
    | None => scan_psets m name l2
    end.
Proof.
  induction l1 as [|rel l1 IH]; [reflexivity|]. simpl.
  destruct (m !! rel ≫= attr_RelatingPropertyDefinition) as [pd|]; [|exact IH].
  destruct (m !! pd ≫= attr_Name) as [[n|]|]; try exact IH.
  destruct (String.eqb n name); [reflexivity | exact IH].
Qed.

(** The candidates of a scan: the named sets behind a list of relationships. *)
Definition candidates (m : list Instance) (name : string) (rels : list nat)
  : list (inst_id * inst_id) :=
  omap (pick_name name) (omap (fun rel => pair rel <$> named_set m rel) rels).

Lemma candidates_cons m name rel rels :
  candidates m name (rel :: rels)
  = match named_set m rel with
    | Some (pd, n) => if String.eqb n name then (rel, pd) :: candidates m name rels
                      else candidates m name rels
    | None => candidates m name rels
    end.
Proof.
  unfold candidates.
  change (omap (fun rel => pair rel <$> named_set m rel) (rel :: rels))
    with (match pair rel <$> named_set m rel with
          | Some y => y :: omap (fun rel => pair rel <$> named_set m rel) rels
          | None => omap (fun rel => pair rel <$> named_set m rel) rels
          end).
  destruct (named_set m rel) as [[pd n]|]; [|reflexivity]. simpl fmap. cbv iota.
  change (omap (pick_name name) ((rel, (pd, n)) :: ?l))
    with (match pick_name name (rel, (pd, n)) with
          | Some y => y :: omap (pick_name name) l
          | None => omap (pick_name name) l
          end).
  unfold pick_name at 1. destruct (String.eqb n name); reflexivity.
Qed.

Lemma sets_named_candidates m e name :
  sets_named m e name = candidates m name (IsDefinedBy m e).
Proof. reflexivity. Qed.

(** A scan that finds nothing: no set of that name is attached. *)
Lemma scan_psets_None (m : list Instance) name (rels : list nat) :
  scan_psets m name rels = None -> candidates m name rels = [].
Proof.
  induction rels as [|rel rels IH]; [reflexivity|]. simpl. intros H.
  rewrite candidates_cons. unfold named_set.
  destruct (m !! rel ≫= attr_RelatingPropertyDefinition) as [pd|]; [|auto].
  destruct (m !! pd) as [x|]; [|auto]. simpl in H.
  destruct x as [? ? [n|] ? | ? ? [n|] ? ? | n ? ? ? | ? ? [n|] ? ? ? | ? ?
                 | ? ? | ? [[n|]|]];
    simpl in H; try (destruct (String.eqb n name); [discriminate|]); auto.
Qed.

(** A scan that finds a property definition: it exists under that name,
    and when it is a property set it is the first candidate. *)
Lemma scan_psets_Some (m : list Instance) name (rels : list nat) (pd : nat) :
  scan_psets m name rels = Some pd ->
  exists x, m !! pd = Some x /\ attr_Name x = Some (Some name)
    /\ (forall props, attr_HasProperties x = Some props ->
        exists rel, head (candidates m name rels) = Some (rel, pd)).
Proof.
  induction rels as [|rel rels IH]; [discriminate|]. simpl. intros H.
  rewrite candidates_cons. unfold named_set.
  destruct (m !! rel ≫= attr_RelatingPropertyDefinition) as [t|]; [|auto].
  destruct (m !! t) as [x|] eqn:Et; [|auto]. simpl in H.
  destruct (attr_Name x) as [[n|]|] eqn:En.
  - destruct (String.eqb n name) eqn:Een.
    + injection H as <-. apply String.eqb_eq in Een as ->.
      exists x. split; [exact Et|]. split; [exact En|].
      intros props Hp. destruct x; try discriminate.
      simpl in En. injection En as ->. rewrite String.eqb_refl.
      exists rel. reflexivity.
    + destruct x; auto. simpl in En. destruct Name as [n'|]; auto.
      injection En as ->. rewrite Een. auto.
  - destruct x; auto. simpl in En. destruct Name; [discriminate | auto].
  - destruct x; auto; discriminate.
Qed.

(** *** Property names *)

Definition names_of (m : list Instance) (props : list inst_id) : list string :=
  omap (fun p => match m !! p with
                 | Some (IfcPropertySingleValue n _ _ _) => Some n
                 | _ => None
                 end) props.

Lemma property_names_names_of m pset :
  property_names m pset
  = match m !! pset ≫= attr_HasProperties with
    | Some props => names_of m props
    | None => []
    end.
Proof. reflexivity. Qed.

Lemma names_of_app_model (m : list Instance) (x : Instance) (props : list nat) :
  (forall p, In p props -> p < length m) ->
  names_of (m ++ [x]) props = names_of m props.
Proof.
  intros H. apply omap_ext_In. intros p Hp.
  rewrite lookup_app_old by (apply H; exact Hp). reflexivity.
Qed.

Lemma names_of_insert (m : list Instance) (pd : nat) g oh n d props props'
    (l : list nat) :
  m !! pd = Some (IfcPropertySet g oh n d props) ->
  names_of (<[pd := IfcPropertySet g oh n d props']> m) l = names_of m l.
Proof.
  intros H. apply omap_ext_In. intros p _.
  rewrite (lookup_insert_pset _ _ _ _ _ _ _ _ _ H).
  destruct (m !! p) as [x|] eqn:E; [|reflexivity].
  destruct (decide (p = pd)) as [->|]; [|reflexivity].
  rewrite H in E. injection E as <-. reflexivity.
Qed.

Lemma names_of_snoc (m : list Instance) (props : list nat) (q : nat) n d v u :
  m !! q = Some (IfcPropertySingleValue n d v u) ->
  names_of m (props ++ [q]) = names_of m props ++ [n].
Proof.
  intros H. unfold names_of. rewrite omap_app. f_equal.
  change (omap ?f [q]) with (match f q with Some y => [y] | None => [] end).
  cbv beta. rewrite H. reflexivity.
Qed.

Lemma wf_props_lt (m : list Instance) (pd : nat) g oh n d props :
  wf m = true -> m !! pd = Some (IfcPropertySet g oh n d props) ->
  forall p, In p props -> p < length m.
Proof.
  intros Hwf H p Hp. apply (wf_lookup _ _ _ Hwf) in H. simpl in H.
  rewrite forallb_forall in H. apply Nat.ltb_lt. apply H. exact Hp.
Qed.

(** *** The shared core of the two managers

    Lines 299-339 of add_fire_ratings.py and lines 198-247 of
    add_building_fire_info.py are the same code, up to the owner history,
    two descriptions and the way the value of the property is made. *)
Definition find_or_create_pset (oh : option inst_id)
    (pset_description rel_prefix pset_name : string) (entity : inst_id)
  : Eff inst_id :=
  let* m := get_model in
  match scan_psets m pset_name (IsDefinedBy m entity) with
  | Some prop_def => ret prop_def
  | None =>
      let* g := guid_new in
      let* pset := create (IfcPropertySet g oh (Some pset_name)
                             (Some pset_description) []) in
      let* g' := guid_new in
      let* label := read entity name_or_guid in
      let* _ := create (IfcRelDefinesByProperties g' oh
                          (Some (rel_prefix ++ label)%string) None
                          [entity] pset) in
      ret pset
  end.

Definition append_property (pset : inst_id)
    (property_name property_description : string)
    (nominal_value : Outcome NominalValue) : Eff unit :=
  let* v := lift nominal_value in
  let* prop := create (IfcPropertySingleValue property_name
                         (Some property_description) v None) in
  let* existing_properties := read pset attr_HasProperties in
  set_HasProperties pset (existing_properties ++ [prop]).

Definition ensure_and_append (oh : option inst_id)
    (pset_description rel_prefix pset_name : string) (entity : inst_id)
    (property_name property_description : string)
    (nominal_value : Outcome NominalValue) : Eff unit :=
  let* pset := find_or_create_pset oh pset_description rel_prefix pset_name entity in
  append_property pset property_name property_description nominal_value.

Lemma add_fire_rating_property_core language element fire_rating st :
  add_fire_rating_property language element fire_rating st
  = match model st !! element with
    | None => (false, st)
    | Some x =>
        match get_pset_name language (is_a x) with
        | Raises _ => (false, st)
        | Returns pset_name =>
            try_except
              (ensure_and_append None ("Fire rating properties in " ++ language)%string
                 "Fire rating for " pset_name element "FireRating"
                 ("Fire resistance rating in " ++ language)%string
                 (Returns (IfcText fire_rating))) st
        end
    end.
Proof.
  unfold add_fire_rating_property, try_except, add_fire_rating_property_body,
    ensure_and_append, find_or_create_pset, append_property, bind, read, lift,
    get_model.
  destruct (model st !! element) as [x|]; [|reflexivity]. simpl.
  destruct (get_pset_name language (is_a x)); reflexivity.
Qed.

Lemma add_fire_safety_property_core self entity property_name property_value
    property_type st :
  add_fire_safety_property self entity property_name property_value property_type st
  = match model st !! entity with
    | None => (false, st)
    | Some x =>
        match fire_safety_pset_name self (is_a x) with
        | Raises _ => (false, st)
        | Returns pset_name =>
            try_except
              (ensure_and_append (owner_history self)
                 ("Fire safety properties in " ++ language self)%string
                 "Fire safety for " pset_name entity property_name
                 ("Fire safety property in " ++ language self)%string
                 (make_nominal_value property_type property_value)) st
        end
    end.
Proof.
  unfold add_fire_safety_property, try_except, add_fire_safety_property_body,
    ensure_and_append, find_or_create_pset, append_property, bind, read, lift,
    get_model.
  destruct (model st !! entity) as [x|]; [|reflexivity]. simpl.
  destruct (fire_safety_pset_name self (is_a x)); reflexivity.
Qed.

Lemma sets_named_app_property (m : list Instance) n d v u (e : nat) name :
  wf m = true ->
  sets_named (m ++ [IfcPropertySingleValue n d v u]) e name = sets_named m e name.
Proof.
  intros Hwf. rewrite sets_named_app by assumption.
  unfold newly_attached. simpl. apply app_nil_r.
Qed.

Lemma append_property_spec (pset : nat) pn pdesc nv st o st' :
  wf (model st) = true ->
  append_property pset pn pdesc nv st = (o, st') ->
  wf (model st') = true
  /\ (forall (e' : nat) n',
        sets_named (model st') e' n' = sets_named (model st) e' n')
  /\ (o = Returns tt ->
      (exists props, model st !! pset ≫= attr_HasProperties = Some props)
      /\ property_names (model st') pset = property_names (model st) pset ++ [pn]).
Proof.
  intros Hwf H. destruct st as [m gc]. simpl in Hwf |- *.
  unfold append_property, bind, lift, create, read, set_HasProperties in H.
  simpl in H.
  destruct nv as [v|ex].
  2:{ injection H as <- <-. simpl. split; [exact Hwf|]. split; [reflexivity|].
      discriminate. }
  set (prop := IfcPropertySingleValue pn (Some pdesc) v None) in *.
  assert (Hwf1 : wf (m ++ [prop]) = true) by (apply wf_app; [exact Hwf | reflexivity]).
  destruct ((m ++ [prop]) !! pset) as [x|] eqn:Ex.
  2:{ injection H as <- <-. simpl. split; [exact Hwf1|].
      split; [intros; apply sets_named_app_property; exact Hwf | discriminate]. }
  destruct (attr_HasProperties x) as [props|] eqn:Ep.
  2:{ injection H as <- <-. simpl. split; [exact Hwf1|].
      split; [intros; apply sets_named_app_property; exact Hwf | discriminate]. }
  destruct x as [ | g oh n d props0 | | | | | ]; try discriminate.
  simpl in Ep. injection Ep as ->.
  simpl in H. rewrite Ex in H. injection H as <- <-. simpl.
  assert (Hlt : pset < length m).
  { destruct (decide (pset < length m)) as [|Hge]; [assumption|].
    apply lookup_lt_Some in Ex as Hl. rewrite length_app in Hl. simpl in Hl.
    assert (pset = length m) as -> by lia.
    rewrite lookup_app_r, Nat.sub_diag in Ex by lia. discriminate. }
  assert (Em : m !! pset = Some (IfcPropertySet g oh n d props)).
  { rewrite <- Ex. symmetry. apply lookup_app_old. exact Hlt. }
  assert (Hprops : forall p, In p props -> p < length m)
    by (eapply wf_props_lt; eauto).
  split; [|split].
  - eapply wf_insert; [exact Hwf1 | exact Ex |]. simpl.
    rewrite forallb_app, length_app. simpl. rewrite andb_true_r.
    apply andb_true_intro. split.
    + apply forallb_forall. intros p Hp. apply Nat.ltb_lt.
      specialize (Hprops p Hp). lia.
    + apply Nat.ltb_lt. lia.
  - intros e' n'. rewrite (sets_named_insert _ _ _ _ _ _ _ _ _ _ Ex).
    apply sets_named_app_property. exact Hwf.
  - intros _. split.
    + exists props. rewrite Em. reflexivity.
    + rewrite !property_names_names_of.
      rewrite list_lookup_insert_eq by (eapply lookup_lt_Some; exact Ex).
      rewrite Em. simpl.
      rewrite (names_of_insert _ _ _ _ _ _ _ _ _ Ex).
      rewrite (names_of_snoc _ _ _ pn (Some pdesc) v None).
      * rewrite names_of_app_model by exact Hprops. reflexivity.
      * rewrite lookup_app_r, Nat.sub_diag by lia. reflexivity.
Qed.

(** The property names of the set of that name attached first, if any. *)
Definition old_names (m : list Instance) (e : inst_id) (name : string) : list string :=
  match sets_named m e name with
  | (_, p0) :: _ => property_names m p0
  | [] => []
  end.

(** What an operation may add to the sets named [name] on [e]: nothing, or
    one set when there was none. *)
Definition adds_at_most_one (m m' : list Instance) (e : inst_id) (name : string)
  : Prop :=
  exists extra,
    (forall (e' : nat) n',
       sets_named m' e' n'
       = sets_named m e' n' ++ (if decide (e' = e /\ n' = name) then extra else []))
    /\ (extra = [] \/ (sets_named m e name = [] /\ exists r p, extra = [(r, p)])).

Lemma find_or_create_pset_spec oh pset_description rel_prefix name (e : nat)
    st o st' :
  wf (model st) = true ->
  find_or_create_pset oh pset_description rel_prefix name e st = (o, st') ->
  wf (model st') = true
  /\ adds_at_most_one (model st) (model st') e name
  /\ (forall (pd : nat) props,
        o = Returns pd ->
        model st' !! pd ≫= attr_HasProperties = Some props ->
        (exists r, head (sets_named (model st') e name) = Some (r, pd))
        /\ property_names (model st') pd = old_names (model st) e name).
Proof.
  intros Hwf H. destruct st as [m gc]. simpl in Hwf |- *.
  unfold find_or_create_pset, bind, get_model, guid_new, create, read, ret in H.
  simpl in H.
  destruct (scan_psets m name (IsDefinedBy m e)) as [pd|] eqn:Hscan.
  - injection H as <- <-. simpl. split; [exact Hwf|]. split.
    + exists []. split; [|left; reflexivity].
      intros e' n'. destruct (decide _); rewrite app_nil_r; reflexivity.
    + intros pd' props [= <-] Hp.
      apply scan_psets_Some in Hscan as (x & Ex & _ & Hhead).
      rewrite Ex in Hp. simpl in Hp. destruct (Hhead props Hp) as [rel Hrel].
      split; [exists rel; exact Hrel|].
      unfold old_names. rewrite sets_named_candidates.
      destruct (candidates m name (IsDefinedBy m e)) as [|[r0 p0] rest];
        [discriminate|].
      simpl in Hrel. injection Hrel as -> ->. reflexivity.
  - simpl in H.
    set (pset0 := IfcPropertySet (guid_seq gc) oh (Some name)
                    (Some pset_description) []) in *.
    assert (Hwf1 : wf (m ++ [pset0]) = true) by (apply wf_app; [exact Hwf | reflexivity]).
    assert (Hsets1 : forall (e' : nat) n',
               sets_named (m ++ [pset0]) e' n' = sets_named m e' n').
    { intros e' n'. rewrite sets_named_app by exact Hwf.
      unfold newly_attached. simpl. apply app_nil_r. }
    destruct ((m ++ [pset0]) !! e) as [x|] eqn:Ex.
    2:{ injection H as <- <-. simpl. split; [exact Hwf1|]. split.
        - exists []. split; [|left; reflexivity].
          intros e' n'. rewrite Hsets1.
          destruct (decide _); rewrite app_nil_r; reflexivity.
        - intros pd props Hpd. discriminate. }
    destruct (name_or_guid x) as [label|] eqn:El.
    2:{ injection H as <- <-. simpl. split; [exact Hwf1|]. split.
        - exists []. split; [|left; reflexivity].
          intros e' n'. rewrite Hsets1.
          destruct (decide _); rewrite app_nil_r; reflexivity.
        - intros pd props Hpd. discriminate. }
    injection H as <- <-. simpl.
    set (rel := IfcRelDefinesByProperties (guid_seq (S gc)) oh
                  (Some (rel_prefix ++ label)%string) None [e] (length m)) in *.
    assert (Hlen1 : length (m ++ [pset0]) = S (length m))
      by (rewrite length_app; simpl; lia).
    assert (Hwf2 : wf ((m ++ [pset0]) ++ [rel]) = true).
    { apply wf_app; [exact Hwf1|]. simpl. apply Nat.ltb_lt. lia. }
    assert (Hnamed : named_set ((m ++ [pset0]) ++ [rel]) (length (m ++ [pset0]))
                     = Some (length m, name)).
    { unfold named_set. rewrite lookup_app_r, Nat.sub_diag by lia. simpl.
      rewrite lookup_app_l by lia.
      rewrite lookup_app_r, Nat.sub_diag by lia. reflexivity. }
    assert (Hnone : sets_named m e name = []).
    { rewrite sets_named_candidates. apply scan_psets_None. exact Hscan. }
    assert (Hsets2 : forall (e' : nat) n',
               sets_named ((m ++ [pset0]) ++ [rel]) e' n'
               = sets_named m e' n'
                 ++ (if decide (e' = e /\ n' = name)
                     then [(length (m ++ [pset0]), length m)] else [])).
    { intros e' n'. rewrite sets_named_app by exact Hwf1. rewrite Hsets1.
      f_equal. unfold newly_attached. rewrite Hnamed. simpl defines.
      unfold mem. simpl existsb. rewrite orb_false_r.
      destruct (Nat.eqb e' e) eqn:Ee.
      - apply Nat.eqb_eq in Ee as ->.
        change (omap (pick_name n') [(length (m ++ [pset0]), (length m, name))])
          with (match pick_name n' (length (m ++ [pset0]), (length m, name)) with
                | Some y => [y]
                | None => []
                end).
        unfold pick_name. destruct (String.eqb name n') eqn:En.
        + apply String.eqb_eq in En as <-.
          destruct (decide (e = e /\ name = name)) as [|Hno];
            [reflexivity | exfalso; apply Hno; split; reflexivity].
        + apply String.eqb_neq in En.
          destruct (decide (e = e /\ n' = name)) as [[_ Hyes]|];
            [congruence | reflexivity].
      - apply Nat.eqb_neq in Ee.
        destruct (decide (e' = e /\ n' = name)) as [[Hyes _]|];
          [congruence | reflexivity]. }
    split; [exact Hwf2|]. split.
    + exists [(length (m ++ [pset0]), length m)]. split; [exact Hsets2|].
      right. split; [exact Hnone|]. eauto.
    + intros pd props [= <-] Hp. split.
      * rewrite Hsets2, Hnone. simpl.
        destruct (decide (e = e /\ name = name)) as [|Hno];
          [eauto | exfalso; apply Hno; split; reflexivity].
      * unfold old_names. rewrite Hnone.
        rewrite property_names_names_of.
        rewrite lookup_app_l by (rewrite Hlen1; lia).
        rewrite lookup_app_r, Nat.sub_diag by lia. reflexivity.
Qed.

Lemma ensure_and_append_spec oh pset_description rel_prefix name (e : nat) pn
    pdesc nv st b st' :
  wf (model st) = true ->
  try_except (ensure_and_append oh pset_description rel_prefix name e pn pdesc nv) st
  = (b, st') ->
  wf (model st') = true
  /\ adds_at_most_one (model st) (model st') e name
  /\ (b = true ->
      exists r p, head (sets_named (model st') e name) = Some (r, p)
        /\ property_names (model st') p = old_names (model st) e name ++ [pn]).
Proof.
  intros Hwf H. unfold try_except, ensure_and_append, bind in H.
  destruct (find_or_create_pset oh pset_description rel_prefix name e st)
    as [o1 st1] eqn:H1.
  apply find_or_create_pset_spec in H1 as (Hwf1 & Hadd & Hfound); [|exact Hwf].
  destruct o1 as [pd|ex].
  2:{ injection H as <- <-. split; [exact Hwf1|]. split; [exact Hadd|]. discriminate. }
  destruct (append_property pd pn pdesc nv st1) as [o2 st2] eqn:H2.
  apply append_property_spec in H2 as (Hwf2 & Hsame & Hok); [|exact Hwf1].
  assert (Hadd2 : adds_at_most_one (model st) (model st2) e name).
  { destruct Hadd as (extra & Hext & Hcases). exists extra. split; [|exact Hcases].
    intros e' n'. rewrite Hsame. apply Hext. }
  destruct o2 as [[]|ex]; injection H as <- <-.
  - split; [exact Hwf2|]. split; [exact Hadd2|]. intros _.
    destruct (Hok eq_refl) as [[props Hprops] Hnames].
    assert (Hp2 : exists props2, model st1 !! pd ≫= attr_HasProperties = Some props2)
      by eauto.
    destruct Hp2 as [props2 Hp2].
    destruct (Hfound pd props2 eq_refl Hp2) as [[r Hr] Hn].
    exists r, pd. rewrite Hsame. split; [exact Hr|].
    rewrite Hnames, Hn. reflexivity.
  - split; [exact Hwf2|]. split; [exact Hadd2|]. discriminate.
Qed.

Lemma adds_at_most_one_refl m e name : adds_at_most_one m m e name.
Proof.
  exists []. split; [|left; reflexivity].
  intros e' n'. destruct (decide _); rewrite app_nil_r; reflexivity.
Qed.

Lemma adds_at_most_one_length m m' e name (e' : nat) n' :
  adds_at_most_one m m' e name ->
  length (sets_named m e' n') <= 1 -> length (sets_named m' e' n') <= 1.
Proof.
  intros (extra & Hext & Hcases) Hlen. rewrite Hext, length_app.
  destruct (decide (e' = e /\ n' = name)) as [[-> ->]|]; [|simpl; lia].
  destruct Hcases as [->|[Hnone (r & p & ->)]]; [simpl; lia|].
  rewrite Hnone. simpl. lia.
Qed.

Lemma adds_at_most_one_unique m m' e name :
  adds_at_most_one m m' e name -> unique_sets m -> unique_sets m'.
Proof.
  intros Hadd Hu e' n'. eapply adds_at_most_one_length; [exact Hadd | apply Hu].
Qed.

(** The name of the property set that [add_fire_safety_property] uses for
    [entity], when the entity exists. *)
Definition safety_set_name (self : BuildingFireSafetyManager) (m : list Instance)
    (entity : inst_id) : option string :=
  match m !! entity with
  | Some x => match fire_safety_pset_name self (is_a x) with
              | Returns n => Some n
              | Raises _ => None
              end
  | None => None
  end.

(** The name of the property set that [add_fire_rating_property] uses. *)
Definition rating_set_name (language : string) (m : list Instance)
    (element : inst_id) : option string :=
  match m !! element with
  | Some x => match get_pset_name language (is_a x) with
              | Returns n => Some n
              | Raises _ => None
              end
  | None => None
  end.

Lemma add_fire_safety_property_spec self (e : nat) pn pv pt st b st' :
  wf (model st) = true ->
  add_fire_safety_property self e pn pv pt st = (b, st') ->
  wf (model st') = true
  /\ (exists name, adds_at_most_one (model st) (model st') e name)
  /\ (b = true ->
      exists name r p,
        safety_set_name self (model st) e = Some name
        /\ head (sets_named (model st') e name) = Some (r, p)
        /\ property_names (model st') p = old_names (model st) e name ++ [pn]).
Proof.
  intros Hwf H. rewrite add_fire_safety_property_core in H.
  unfold safety_set_name.
  destruct (model st !! e) as [x|].
  2:{ injection H as <- <-. split; [exact Hwf|].
      split; [exists EmptyString; apply adds_at_most_one_refl | discriminate]. }
  destruct (fire_safety_pset_name self (is_a x)) as [name|ex].
  2:{ injection H as <- <-. split; [exact Hwf|].
      split; [exists EmptyString; apply adds_at_most_one_refl | discriminate]. }
  apply ensure_and_append_spec in H as (Hwf' & Hadd & Hok); [|exact Hwf].
  split; [exact Hwf'|]. split; [exists name; exact Hadd|].
  intros Hb. destruct (Hok Hb) as (r & p & Hr & Hn). exists name, r, p. auto.
Qed.

Lemma add_fire_rating_property_spec language (e : nat) fire_rating st b st' :
  wf (model st) = true ->
  add_fire_rating_property language e fire_rating st = (b, st') ->
  wf (model st') = true
  /\ (exists name, adds_at_most_one (model st) (model st') e name)
  /\ (b = true ->
      exists name r p,
        rating_set_name language (model st) e = Some name
        /\ head (sets_named (model st') e name) = Some (r, p)
        /\ property_names (model st') p
           = old_names (model st) e name ++ ["FireRating"%string]).
Proof.
  intros Hwf H. rewrite add_fire_rating_property_core in H.
  unfold rating_set_name.
  destruct (model st !! e) as [x|].
  2:{ injection H as <- <-. split; [exact Hwf|].
      split; [exists EmptyString; apply adds_at_most_one_refl | discriminate]. }
  destruct (get_pset_name language (is_a x)) as [name|ex].
  2:{ injection H as <- <-. split; [exact Hwf|].
      split; [exists EmptyString; apply adds_at_most_one_refl | discriminate]. }
  apply ensure_and_append_spec in H as (Hwf' & Hadd & Hok); [|exact Hwf].
  split; [exact Hwf'|]. split; [exists name; exact Hadd|].
  intros Hb. destruct (Hok Hb) as (r & p & Hr & Hn). exists name, r, p. auto.
Qed.

(** *** The operations keep the class of every instance *)

Definition keeps_classes (m m' : list Instance) : Prop :=
  forall (i : nat) x, m !! i = Some x -> is_a <$> m' !! i = Some (is_a x).

Lemma keeps_classes_refl m : keeps_classes m m.
Proof. intros i x H. rewrite H. reflexivity. Qed.

Lemma keeps_classes_trans m1 m2 m3 :
  keeps_classes m1 m2 -> keeps_classes m2 m3 -> keeps_classes m1 m3.
Proof.
  intros H12 H23 i x H. specialize (H12 i x H).
  destruct (m2 !! i) as [y|] eqn:E; [|discriminate].
  injection H12 as <-. apply (H23 i y E).
Qed.

Lemma keeps_classes_app (m : list Instance) x : keeps_classes m (m ++ [x]).
Proof.
  intros i y H. rewrite lookup_app_l by (eapply lookup_lt_Some; eauto).
  rewrite H. reflexivity.
Qed.

Lemma keeps_classes_insert (m : list Instance) (pd : nat) g oh n d props props' :
  m !! pd = Some (IfcPropertySet g oh n d props) ->
  keeps_classes m (<[pd := IfcPropertySet g oh n d props']> m).
Proof.
  intros H i y Hy. rewrite (lookup_insert_pset _ _ _ _ _ _ _ _ _ H), Hy. simpl.
  destruct (decide (i = pd)) as [->|]; [|reflexivity].
  rewrite H in Hy. injection Hy as <-. reflexivity.
Qed.

Lemma append_property_classes (pset : nat) pn pdesc nv st o st' :
  append_property pset pn pdesc nv st = (o, st') ->
  keeps_classes (model st) (model st').
Proof.
  intros H. destruct st as [m gc].
  unfold append_property, bind, lift, create, read, set_HasProperties in H.
  simpl in H |- *.
  destruct nv as [v|ex]; [|injection H as <- <-; apply keeps_classes_refl].
  set (prop := IfcPropertySingleValue pn (Some pdesc) v None) in *.
  destruct ((m ++ [prop]) !! pset) as [x|] eqn:Ex;
    [|injection H as <- <-; apply keeps_classes_app].
  destruct (attr_HasProperties x) as [props|] eqn:Ep;
    [|injection H as <- <-; apply keeps_classes_app].
  destruct x as [ | g oh n d props0 | | | | | ]; try discriminate.
  simpl in H. rewrite Ex in H. injection H as <- <-. simpl.
  eapply keeps_classes_trans; [apply keeps_classes_app|].
  eapply keeps_classes_insert. exact Ex.
Qed.

Lemma find_or_create_pset_classes oh pset_description rel_prefix name (e : nat)
    st o st' :
  find_or_create_pset oh pset_description rel_prefix name e st = (o, st') ->
  keeps_classes (model st) (model st').
Proof.
  intros H. destruct st as [m gc].
  unfold find_or_create_pset, bind, get_model, guid_new, create, read, ret in H.
  simpl in H |- *.
  destruct (scan_psets m name (IsDefinedBy m e)) as [pd|];
    [injection H as <- <-; apply keeps_classes_refl|].
  simpl in H.
  match type of H with context [?l !! e] => destruct (l !! e) as [x|] end;
    [|injection H as <- <-; apply keeps_classes_app].
  destruct (name_or_guid x) as [label|];
    [|injection H as <- <-; apply keeps_classes_app].
  injection H as <- <-. simpl.
  eapply keeps_classes_trans; apply keeps_classes_app.
Qed.

Lemma ensure_and_append_classes oh pset_description rel_prefix name (e : nat) pn
    pdesc nv st b st' :
  try_except (ensure_and_append oh pset_description rel_prefix name e pn pdesc nv) st
  = (b, st') ->
  keeps_classes (model st) (model st').
Proof.
  intros H. unfold try_except, ensure_and_append, bind in H.
  destruct (find_or_create_pset oh pset_description rel_prefix name e st)
    as [o1 st1] eqn:H1.
  apply find_or_create_pset_classes in H1.
  destruct o1 as [pd|ex]; [|injection H as <- <-; exact H1].
  destruct (append_property pd pn pdesc nv st1) as [o2 st2] eqn:H2.
  apply append_property_classes in H2.
  assert (keeps_classes (model st) (model st2))
    by (eapply keeps_classes_trans; eauto).
  destruct o2; injection H as <- <-; assumption.
Qed.

Lemma add_fire_safety_property_classes self (e : nat) pn pv pt st b st' :
  add_fire_safety_property self e pn pv pt st = (b, st') ->
  keeps_classes (model st) (model st').
Proof.
  intros H. rewrite add_fire_safety_property_core in H.
  destruct (model st !! e) as [x|];
    [|injection H as <- <-; apply keeps_classes_refl].
  destruct (fire_safety_pset_name self (is_a x));
    [|injection H as <- <-; apply keeps_classes_refl].
  eapply ensure_and_append_classes. exact H.
Qed.

Lemma safety_set_name_keeps self m m' (e : nat) name :
  keeps_classes m m' ->
  safety_set_name self m e = Some name -> safety_set_name self m' e = Some name.
Proof.
  unfold safety_set_name. intros Hk H.
  destruct (m !! e) as [x|] eqn:E; [|discriminate].
  specialize (Hk e x E). destruct (m' !! e) as [y|]; [|discriminate].
  injection Hk as ->. exact H.
Qed.

(** ** Idempotence of the property set manager *)

(** C1: two calls of [add_fire_safety_property] on the same entity (hence
    with the same set name) and two property names leave exactly one
    property set relation of that name on the entity, and the set holds both
    properties in call order (after those it held before).  The model is one
    without dangling references in which the entity carries at most one set
    of that name, and both calls succeed. *)
Theorem ensure_property_twice self (e : nat) name n1 v1 t1 n2 v2 t2 st st1 st2 :
  wf (model st) = true ->
  safety_set_name self (model st) e = Some name ->
  length (sets_named (model st) e name) <= 1 ->
  add_fire_safety_property self e n1 v1 t1 st = (true, st1) ->
  add_fire_safety_property self e n2 v2 t2 st1 = (true, st2) ->
  exists rel pset,
    sets_named (model st2) e name = [(rel, pset)]
    /\ property_names (model st2) pset = old_names (model st) e name ++ [n1; n2].
Proof.
  intros Hwf Hname Hlen H1 H2.
  pose proof (add_fire_safety_property_classes _ _ _ _ _ _ _ _ H1) as Hk1.
  apply add_fire_safety_property_spec in H1 as (Hwf1 & [nm1 Hadd1] & Hok1);
    [|exact Hwf].
  destruct (Hok1 eq_refl) as (name1 & r1 & p1 & Hn1 & Hhead1 & Hprops1).
  rewrite Hname in Hn1. injection Hn1 as <-.
  apply add_fire_safety_property_spec in H2 as (Hwf2 & [nm2 Hadd2] & Hok2);
    [|exact Hwf1].
  destruct (Hok2 eq_refl) as (name2 & r2 & p2 & Hn2 & Hhead2 & Hprops2).
  rewrite (safety_set_name_keeps _ _ _ _ _ Hk1 Hname) in Hn2. injection Hn2 as <-.
  assert (Hlen1 : length (sets_named (model st1) e name) <= 1)
    by (eapply adds_at_most_one_length; eauto).
  assert (Hlen2 : length (sets_named (model st2) e name) <= 1)
    by (eapply adds_at_most_one_length; eauto).
  exists r2, p2.
  destruct (sets_named (model st2) e name) as [|a [|a' rest]] eqn:E2;
    [discriminate| |simpl in Hlen2; lia].
  simpl in Hhead2. injection Hhead2 as ->. split; [reflexivity|].
  rewrite Hprops2. unfold old_names at 1.
  destruct (sets_named (model st1) e name) as [|[r p] [|a' rest]] eqn:E1;
    [discriminate| |simpl in Hlen1; lia].
  simpl in Hhead1. injection Hhead1 as -> ->.
  rewrite Hprops1, <- app_assoc. reflexivity.
Qed.

(** ** The uniqueness invariant *)

(** The find-or-create operations of the two managers. *)
Inductive Operation : Type :=
| AddFireRating (language : string) (element : inst_id) (fire_rating : string)
| AddFireSafety (self : BuildingFireSafetyManager) (entity : inst_id)
    (property_name : string) (property_value : PyVal) (property_type : string).

Definition run (st : State) (op : Operation) : State :=
  match op with
  | AddFireRating language element fire_rating =>
      snd (add_fire_rating_property language element fire_rating st)
  | AddFireSafety self entity property_name property_value property_type =>
      snd (add_fire_safety_property self entity property_name property_value
             property_type st)
  end.

Lemma run_unique_sets st op :
  wf (model st) = true -> unique_sets (model st) ->
  wf (model (run st op)) = true /\ unique_sets (model (run st op)).
Proof.
  intros Hwf Hu. destruct op as [language element fire_rating|self e pn pv pt]; simpl.
  - destruct (add_fire_rating_property language element fire_rating st)
      as [b st'] eqn:H.
    apply add_fire_rating_property_spec in H as (Hwf' & [name Hadd] & _);
      [|exact Hwf].
    split; [exact Hwf'|]. eapply adds_at_most_one_unique; eauto.
  - destruct (add_fire_safety_property self e pn pv pt st) as [b st'] eqn:H.
    apply add_fire_safety_property_spec in H as (Hwf' & [name Hadd] & _);
      [|exact Hwf].
    split; [exact Hwf'|]. eapply adds_at_most_one_unique; eauto.
Qed.

(** C9, as the code has it: every find-or-create operation
    ([add_fire_rating_property], [add_fire_safety_property]) keeps the
    invariant that at most one property set of a given name is attached to
    a given entity, so no sequence of them produces two sets of one name on
    one entity. *)
Theorem find_or_create_keeps_unique_sets (ops : list Operation) st :
  wf (model st) = true -> unique_sets (model st) ->
  wf (model (foldl run st ops)) = true /\ unique_sets (model (foldl run st ops)).
Proof.
  revert st. induction ops as [|op ops IH]; intros st Hwf Hu; simpl.
  - split; assumption.
  - destruct (run_unique_sets st op Hwf Hu) as [Hwf' Hu']. apply IH; assumption.
Qed.

(** The driver of add_fire_ratings.py is such a sequence. *)
Lemma process_elements_unique_sets language elements results st o st' :
  process_elements language elements results st = (o, st') ->
  wf (model st) = true -> unique_sets (model st) ->
  wf (model st') = true /\ unique_sets (model st').
Proof.
  revert results st. induction elements as [|element elements IH];
    intros results st H Hwf Hu.
  - injection H as <- <-. split; assumption.
  - simpl in H. unfold bind, get_model, lift in H.
    destruct (get_element_classification language (model st) element) as [cf|ex].
    2:{ injection H as <- <-. split; assumption. }
    destruct (add_fire_rating_property language element (snd cf) st)
      as [b st1] eqn:H1.
    pose proof (run_unique_sets st (AddFireRating language element (snd cf)) Hwf Hu)
      as [Hwf1 Hu1].
    simpl in Hwf1, Hu1. rewrite H1 in Hwf1, Hu1. simpl in Hwf1, Hu1.
    destruct b; eapply IH; eauto.
Qed.

Lemma process_element_types_unique_sets language element_types results st o st' :
  process_element_types language element_types results st = (o, st') ->
  wf (model st) = true -> unique_sets (model st) ->
  wf (model st') = true /\ unique_sets (model st').
Proof.
  revert results st. induction element_types as [|element_type element_types IH];
    intros results st H Hwf Hu.
  - injection H as <- <-. split; assumption.
  - simpl in H. unfold bind, get_model in H.
    destruct (process_elements language (by_type (model st) element_type) results st)
      as [o1 st1] eqn:H1.
    apply process_elements_unique_sets in H1 as [Hwf1 Hu1]; [|assumption..].
    destruct o1 as [results'|ex].
    + eapply IH; eauto.
    + injection H as <- <-. split; assumption.
Qed.

Lemma process_all_elements_unique_sets language st o st' :
  process_all_elements language st = (o, st') ->
  wf (model st) = true -> unique_sets (model st) ->
  wf (model st') = true /\ unique_sets (model st').
Proof. apply process_element_types_unique_sets. Qed.

(** A model with at most one defining relationship satisfies the
    invariant. *)
Definition is_defining (i : Instance) : bool :=
  match i with
  | IfcRelDefinesByProperties _ _ _ _ _ _ => true
  | IfcRelDefinesByType _ _ => true
  | _ => false
  end.

Lemma filter_length_le {A} (f g : A -> bool) (l : list A) :
  (forall a, f a = true -> g a = true) ->
  length (List.filter f l) <= length (List.filter g l).
Proof.
  intros H. induction l as [|a l IH]; [reflexivity|]. simpl.
  destruct (f a) eqn:Ef.
  - rewrite (H a Ef). simpl. lia.
  - destruct (g a); simpl; lia.
Qed.

Lemma omap_length_le {A B} (f : A -> option B) (l : list A) :
  length (omap f l) <= length l.
Proof.
  induction l as [|a l IH]; [reflexivity|].
  change (omap f (a :: l))
    with (match f a with Some y => y :: omap f l | None => omap f l end).
  destruct (f a); simpl; lia.
Qed.

Lemma few_relationships_unique m :
  length (select m is_defining) <= 1 -> unique_sets m.
Proof.
  intros H e name. unfold sets_named, attached.
  etransitivity; [apply omap_length_le|].
  etransitivity; [apply omap_length_le|].
  etransitivity; [|exact H].
  unfold IsDefinedBy, select. apply filter_length_le.
  intros i. destruct (m !! i) as [x|]; [|discriminate].
  destruct x; simpl; auto.
Qed.

(** ** Wall classification *)

(** The [Name] attributes of the property definitions attached to an
    entity, in scan order ([None] for a name that is not set). *)
Definition definition_names (m : list Instance) (rels : list inst_id)
  : list (option string) :=
  omap (fun rel => match m !! rel ≫= attr_RelatingPropertyDefinition with
                  | Some pd => m !! pd ≫= attr_Name
                  | None => None
                  end) rels.


Lemma definition_names_cons m rel rels :
  definition_names m (rel :: rels)
  = match match m !! rel ≫= attr_RelatingPropertyDefinition with
          | Some pd => m !! pd ≫= attr_Name
          | None => None
          end with
    | Some n => n :: definition_names m rels
    | None => definition_names m rels
    end.
Proof. reflexivity. Qed.



(** ** The tables behind the fire ratings *)

Ltac member := cbn [In map snd]; repeat (first [left; reflexivity | right]).

(** Whatever the language, known or not, the manager works with the one
    table of property set names. *)
Lemma fire_rating_pset_names_any language :
  fire_rating_pset_names language = Returns FireRatingConfig.pset_table.
Proof.
  unfold fire_rating_pset_names, dict_item, FireRatingConfig.PSET_NAMES.
  cbn [dict_get]. change (String.eqb "en" "en") with true. cbv iota.
  destruct (String.eqb "en" language); [reflexivity|].
  destruct (String.eqb "de" language); [reflexivity|].
  destruct (String.eqb "fr" language); [reflexivity|].
  destruct (String.eqb "ch" language); reflexivity.
Qed.

(** The keys that [ELEMENT_TYPE_MAP] maps a class to. *)
Lemma base_type_cases element_type :
  In (default "wall" (dict_get FireRatingConfig.ELEMENT_TYPE_MAP element_type))
    ["wall"; "door"; "slab"; "beam"; "column"; "window"; "stair"].
Proof.
  unfold FireRatingConfig.ELEMENT_TYPE_MAP. cbn [dict_get].
  repeat match goal with
         | |- context [String.eqb ?a element_type] =>
             destruct (String.eqb a element_type); [member|]
         end.
  member.
Qed.

(** X1: [get_pset_name] never raises: a language without a table of its own
    gets the English one, a class that [ELEMENT_TYPE_MAP] does not list gets
    the set of walls, and the name does not depend on the language. *)
Theorem get_pset_name_falls_back (language element_type : string) :
  exists name,
    get_pset_name language element_type = Returns name
    /\ get_pset_name "en" element_type = Returns name
    /\ In name (map snd FireRatingConfig.pset_table)
    /\ (dict_get FireRatingConfig.ELEMENT_TYPE_MAP element_type = None ->
        name = "Pset_WallCommon").
Proof.
  unfold get_pset_name. rewrite !fire_rating_pset_names_any.
  destruct (dict_get FireRatingConfig.ELEMENT_TYPE_MAP element_type) as [b|] eqn:E.
  - pose proof (base_type_cases element_type) as Hb. rewrite E in Hb. simpl in Hb.
    eexists. split; [reflexivity|]. split; [reflexivity|].
    split; [|discriminate].
    destruct Hb as [<-|[<-|[<-|[<-|[<-|[<-|[<-|[]]]]]]]]; member.
  - eexists. split; [reflexivity|]. split; [reflexivity|].
    split; [member | reflexivity].
Qed.

(** The classifications that the analyzer can return. *)
Definition classifications : list string :=
  ["external_wall"; "loadbearing_wall"; "internal_wall"; "external_door";
   "fire_door"; "internal_door"; "slab"; "beam"; "column"; "window"; "stair"].

Lemma classify_wall_range m wall c :
  classify_wall m wall = Returns c -> In c classifications.
Proof.
  unfold classify_wall.
  destruct (existsb _ _); [intros [= <-]; member|].
  destruct (scan_names _ _ _) as [[]|]; intros [= <-]; member.
Qed.

Lemma classify_door_range m door c :
  classify_door m door = Returns c -> In c classifications.
Proof.
  unfold classify_door.
  destruct (existsb _ _); [intros [= <-]; member|].
  destruct (scan_names _ _ _) as [[]|]; intros [= <-]; member.
Qed.

Lemma type_mapping_range element_type :
  In (default "internal_wall" (dict_get type_mapping element_type)) classifications.
Proof.
  unfold type_mapping. cbn [dict_get].
  repeat match goal with
         | |- context [String.eqb ?a element_type] =>
             destruct (String.eqb a element_type); [member|]
         end.
  member.
Qed.

(** Both rating tables rate every classification. *)
Lemma ratings_cover language ratings c :
  dict_get FireRatingConfig.FIRE_RATING_VALUES language = Some ratings ->
  In c classifications -> dict_get ratings c <> None.
Proof.
  intros Hl Hc.
  assert (Hr : ratings = FireRatingConfig.european_ratings
               \/ ratings = FireRatingConfig.swiss_ratings).
  { unfold FireRatingConfig.FIRE_RATING_VALUES in Hl. cbn [dict_get] in Hl.
    repeat match type of Hl with
           | context [String.eqb ?a language] =>
               destruct (String.eqb a language); [injection Hl as <-; auto|]
           end.
    discriminate. }
  unfold classifications in Hc. simpl in Hc.
  destruct Hr as [-> | ->];
    repeat (destruct Hc as [<-|Hc]; [discriminate|]); destruct Hc.
Qed.

(** X2: every rating that [get_element_classification] returns is the entry
    of the language's table for the classification: the default "30 min" of
    the final [get] is never used. *)
Theorem rating_is_from_the_table language (m : list Instance) (element : nat) c r :
  get_element_classification language m element = Returns (c, r) ->
  In c classifications
  /\ exists ratings,
       dict_get FireRatingConfig.FIRE_RATING_VALUES language = Some ratings
       /\ dict_get ratings c = Some r.
Proof.
  unfold get_element_classification.
  destruct (m !! element) as [i|]; [|discriminate].
  set (cl := if String.eqb (is_a i) "IfcWall" then _ else _).
  assert (Hcl : forall c', cl = Returns c' -> In c' classifications).
  { unfold cl. intros c'.
    destruct (String.eqb (is_a i) "IfcWall"); [apply classify_wall_range|].
    destruct (String.eqb (is_a i) "IfcDoor"); [apply classify_door_range|].
    destruct (existsb _ _); intros [= <-];
      [apply type_mapping_range | member]. }
  destruct cl as [c'|]; [|discriminate].
  unfold dict_item.
  destruct (dict_get FireRatingConfig.FIRE_RATING_VALUES language) as [ratings|] eqn:Hl;
    [|discriminate].
  intros [= <- <-]. split; [apply Hcl; reflexivity|].
  exists ratings. split; [reflexivity|].
  pose proof (ratings_cover language ratings c' Hl (Hcl c' eq_refl)) as Hn.
  destruct (dict_get ratings c'); [reflexivity | contradiction].
Qed.

Lemma select_exists (m : list Instance) p (i : nat) :
  In i (select m p) -> exists x, m !! i = Some x.
Proof.
  unfold select. rewrite filter_In. intros [_ H].
  destruct (m !! i) as [x|]; [eauto | discriminate].
Qed.

Lemma classification_unsupported language (m : list Instance) (element : nat) x :
  m !! element = Some x ->
  dict_get FireRatingConfig.FIRE_RATING_VALUES language = None ->
  exists e, get_element_classification language m element = Raises e.
Proof.
  intros Hx Hl. unfold get_element_classification. rewrite Hx.
  match goal with
  | |- context [match ?cl with Returns _ => _ | Raises _ => _ end] =>
      destruct cl as [c|e]
  end.
  - unfold dict_item. rewrite Hl. eexists. reflexivity.
  - eexists. reflexivity.
Qed.

(** X3: the constructor of [FireRatingManager] accepts a language without
    tables, but [process_all_elements] then fails at the first element it
    meets: the error of [FIRE_RATING_VALUES[self.language]] (or the one of
    the classification before it) leaves the function, and the model is as
    it was. *)
Theorem unsupported_language_raises language st (w : nat) ws :
  dict_get FireRatingConfig.FIRE_RATING_VALUES language = None ->
  by_type (model st) "IfcWall" = w :: ws ->
  fire_rating_pset_names language = Returns FireRatingConfig.pset_table
  /\ exists e, process_all_elements language st = (Raises e, st).
Proof.
  intros Hl Hw. split; [apply fire_rating_pset_names_any|].
  unfold process_all_elements. simpl process_element_types.
  unfold bind at 1. unfold get_model at 1. rewrite Hw. simpl process_elements.
  unfold bind at 1. unfold bind at 1. unfold get_model at 1.
  unfold bind at 1. unfold lift at 1.
  assert (Hin : In w (by_type (model st) "IfcWall")) by (rewrite Hw; left; reflexivity).
  apply select_exists in Hin as [x Hx].
  destruct (classification_unsupported language (model st) w x Hx Hl) as [e He].
  rewrite He. exists e. reflexivity.
Qed.


(** The scan stops with an error at the first definition without a name,
    when no name before it matches. *)
Lemma scan_names_unnamed m hit rels names rest :
  definition_names m rels = map Some names ++ None :: rest ->
  forallb (fun n => negb (hit (lower n))) names = true ->
  scan_names m hit rels = Raises "AttributeError".
Proof.
  revert names. induction rels as [|rel rels IH]; intros names Hn Hmiss.
  - destruct names; discriminate.
  - rewrite definition_names_cons in Hn. simpl scan_names.
    destruct (m !! rel ≫= attr_RelatingPropertyDefinition) as [pd|]; [|eauto].
    destruct (m !! pd ≫= attr_Name) as [[n|]|]; [| reflexivity | eauto].
    destruct names as [|n' names]; [discriminate|].
    simpl in Hn. injection Hn as <- Hn. simpl in Hmiss.
    apply andb_prop in Hmiss as [Hn' Hmiss].
    apply negb_true_iff in Hn'. rewrite Hn'. eauto.
Qed.

(** X5: a property definition whose [Name] is not set makes the
    classification of a wall or door raise, unless the element is contained
    in a building or an earlier name matches: [None.lower()] fails, and
    [get_element_classification] passes the error on. *)
Theorem unnamed_definition_raises language (m : list Instance) (element : nat) x
    names rest :
  m !! element = Some x ->
  existsb (in_building m) (ContainedInStructure m element) = false ->
  definition_names m (IsDefinedBy m element) = map Some names ++ None :: rest ->
  (forallb (fun n => negb (contains "load" (lower n))) names = true ->
   classify_wall m element = Raises "AttributeError"
   /\ (is_a x = "IfcWall" ->
       get_element_classification language m element = Raises "AttributeError"))
  /\ (forallb (fun n => negb (contains "fire" (lower n) || contains "brand" (lower n)))
        names = true ->
      classify_door m element = Raises "AttributeError"
      /\ (is_a x = "IfcDoor" ->
          get_element_classification language m element = Raises "AttributeError")).
Proof.
  intros Hx Hout Hn. split; intros Hmiss.
  - assert (Hc : classify_wall m element = Raises "AttributeError").
    { unfold classify_wall. rewrite Hout.
      rewrite (scan_names_unnamed _ _ _ names rest Hn Hmiss). reflexivity. }
    split; [exact Hc|]. intros Ht.
    unfold get_element_classification. rewrite Hx, Ht. simpl. rewrite Hc. reflexivity.
  - assert (Hc : classify_door m element = Raises "AttributeError").
    { unfold classify_door. rewrite Hout.
      rewrite (scan_names_unnamed _ _ _ names rest Hn Hmiss). reflexivity. }
    split; [exact Hc|]. intros Ht.
    unfold get_element_classification. rewrite Hx, Ht. simpl. rewrite Hc. reflexivity.
Qed.

(** X6: [by_type("IfcWall")] also returns the walls of the subclass
    IfcWallStandardCase, but the dispatch of [get_element_classification] is
    on the exact class: such a wall, and any element of a class outside the
    eight listed ones, is an internal wall with the rating of internal walls,
    even when it is contained directly in a building. *)
Theorem unlisted_class_is_internal_wall language ratings (m : list Instance)
    (element : nat) x :
  m !! element = Some x ->
  dict_get FireRatingConfig.ELEMENT_TYPE_MAP (is_a x) = None ->
  dict_get FireRatingConfig.FIRE_RATING_VALUES language = Some ratings ->
  get_element_classification language m element
  = Returns ("internal_wall", "REI 60")%string
  /\ get_pset_name language (is_a x) = Returns "Pset_WallCommon"%string
  /\ (is_a x = "IfcWallStandardCase"%string -> In element (by_type m "IfcWall")).
Proof.
  intros Hx Hmap Hl. split; [|split].
  - unfold get_element_classification. rewrite Hx.
    unfold FireRatingConfig.ELEMENT_TYPE_MAP in Hmap. cbn [dict_get] in Hmap.
    repeat match type of Hmap with
           | context [String.eqb ?a (is_a x)] =>
               let E := fresh "E" in
               destruct (String.eqb a (is_a x)) eqn:E; [discriminate|];
               rewrite String.eqb_sym in E
           end.
    rewrite E, E0. simpl existsb. rewrite E1, E2, E3, E4, E5, E6. simpl.
    unfold dict_item. rewrite Hl.
    assert (Hr : ratings = FireRatingConfig.european_ratings
                 \/ ratings = FireRatingConfig.swiss_ratings).
    { unfold FireRatingConfig.FIRE_RATING_VALUES in Hl. cbn [dict_get] in Hl.
      repeat match type of Hl with
             | context [String.eqb ?a language] =>
                 destruct (String.eqb a language); [injection Hl as <-; auto|]
             end.
      discriminate. }
    destruct Hr as [-> | ->]; reflexivity.
  - unfold get_pset_name. rewrite fire_rating_pset_names_any, Hmap. reflexivity.
  - intros Ht. unfold by_type, select. apply filter_In. split.
    + apply in_seq. apply lookup_lt_Some in Hx. lia.
    + rewrite Hx, Ht. reflexivity.
Qed.

(** ** The property set of a spatial element *)

Lemma prefix_app_l (a b s : string) :
  String.prefix (a ++ b) s = true -> String.prefix a s = true.
Proof.
  revert s. induction a as [|c a IH]; intros s H; [destruct s; reflexivity|].
  destruct s as [|c' s]; [discriminate|]. simpl in H |- *.
  destruct (Ascii.ascii_dec c c'); [auto | discriminate].
Qed.

Lemma contains_app_l (a b s : string) :
  contains (a ++ b) s = true -> contains a s = true.
Proof.
  induction s as [|c s IH]; cbn [contains]; intros H.
  - apply orb_prop in H as [H|H]; [|discriminate].
    apply prefix_app_l in H. rewrite H. reflexivity.
  - apply orb_prop in H as [H|H].
    + apply prefix_app_l in H. rewrite H. reflexivity.
    + rewrite (IH H). apply orb_true_r.
Qed.

Lemma fire_safety_pset_names_any self :
  fire_safety_pset_names self = Returns FireSafetyConfig.pset_table.
Proof.
  unfold fire_safety_pset_names, dict_item, FireSafetyConfig.PSET_NAMES.
  cbn [dict_get]. change (String.eqb "en" "en") with true. cbv iota.
  destruct (String.eqb "en" (language self)); [reflexivity|].
  destruct (String.eqb "de" (language self)); [reflexivity|].
  destruct (String.eqb "fr" (language self)); [reflexivity|].
  destruct (String.eqb "ch" (language self)); reflexivity.
Qed.

(** X7: the branch for storeys of [add_fire_safety_property] is never
    taken: a class name that contains "BuildingStorey" contains "Building",
    which is tested first.  The set is never Pset_BuildingStoreyCommon; a
    storey gets Pset_BuildingCommon, and the choice never raises. *)
Theorem storey_branch_is_dead self (entity_type : string) :
  exists name,
    fire_safety_pset_name self entity_type = Returns name
    /\ In name ["Pset_ProjectCommon"; "Pset_SiteCommon"; "Pset_BuildingCommon"]
    /\ name <> "Pset_BuildingStoreyCommon"%string
    /\ (entity_type = "IfcBuildingStorey"%string -> name = "Pset_BuildingCommon"%string).
Proof.
  unfold fire_safety_pset_name. rewrite fire_safety_pset_names_any.
  destruct (contains "Project" entity_type) eqn:Ep.
  { eexists. split; [reflexivity|]. split; [member|]. split; [discriminate|].
    intros ->. discriminate. }
  destruct (contains "Site" entity_type) eqn:Es.
  { eexists. split; [reflexivity|]. split; [member|]. split; [discriminate|].
    intros ->. discriminate. }
  destruct (contains "Building" entity_type) eqn:Eb.
  { eexists. split; [reflexivity|]. split; [member|]. split; [discriminate|].
    reflexivity. }
  destruct (contains "BuildingStorey" entity_type) eqn:Et.
  { apply (contains_app_l "Building" "Storey") in Et. congruence. }
  eexists. split; [reflexivity|]. split; [member|]. split; [discriminate|].
  reflexivity.
Qed.

(** ** Repeated and failed calls of the managers *)

Lemma add_fire_rating_property_classes language (e : nat) fire_rating st b st' :
  add_fire_rating_property language e fire_rating st = (b, st') ->
  keeps_classes (model st) (model st').
Proof.
  intros H. rewrite add_fire_rating_property_core in H.
  destruct (model st !! e) as [x|];
    [|injection H as <- <-; apply keeps_classes_refl].
  destruct (get_pset_name language (is_a x));
    [|injection H as <- <-; apply keeps_classes_refl].
  eapply ensure_and_append_classes. exact H.
Qed.

Lemma rating_set_name_keeps language m m' (e : nat) name :
  keeps_classes m m' ->
  rating_set_name language m e = Some name -> rating_set_name language m' e = Some name.
Proof.
  unfold rating_set_name. intros Hk H.
  destruct (m !! e) as [x|] eqn:E; [|discriminate].
  specialize (Hk e x E). destruct (m' !! e) as [y|]; [|discriminate].
  injection Hk as ->. exact H.
Qed.

Lemma old_names_head m (e : nat) name (r p : nat) :
  head (sets_named m e name) = Some (r, p) -> old_names m e name = property_names m p.
Proof.
  unfold old_names. destruct (sets_named m e name) as [|[r0 p0] rest]; [discriminate|].
  intros [= -> ->]. reflexivity.
Qed.

(** X8: [add_fire_rating_property] does not look for a FireRating that is
    already there: a second successful call on an element appends a second
    property of that name to the same set, so running the script on its own
    output doubles the ratings. *)
Theorem fire_rating_is_added_again language (e : nat) rating1 rating2 st st1 st2 :
  wf (model st) = true ->
  add_fire_rating_property language e rating1 st = (true, st1) ->
  add_fire_rating_property language e rating2 st1 = (true, st2) ->
  exists name rel pset,
    rating_set_name language (model st) e = Some name
    /\ head (sets_named (model st2) e name) = Some (rel, pset)
    /\ property_names (model st2) pset
       = old_names (model st) e name ++ ["FireRating"; "FireRating"]%string.
Proof.
  intros Hwf H1 H2.
  pose proof (add_fire_rating_property_classes _ _ _ _ _ _ H1) as Hk1.
  apply add_fire_rating_property_spec in H1 as (Hwf1 & _ & Hok1); [|exact Hwf].
  destruct (Hok1 eq_refl) as (name & r1 & p1 & Hn1 & Hhead1 & Hprops1).
  apply add_fire_rating_property_spec in H2 as (Hwf2 & _ & Hok2); [|exact Hwf1].
  destruct (Hok2 eq_refl) as (name2 & r2 & p2 & Hn2 & Hhead2 & Hprops2).
  rewrite (rating_set_name_keeps _ _ _ _ _ Hk1 Hn1) in Hn2. injection Hn2 as <-.
  exists name, r2, p2. split; [exact Hn1|]. split; [exact Hhead2|].
  rewrite Hprops2, (old_names_head _ _ _ _ _ Hhead1), Hprops1, <- app_assoc.
  reflexivity.
Qed.

(** The creation branch of the shared core, run on an object that no
    property definition of that name defines. *)
Lemma find_or_create_pset_creates oh pset_description rel_prefix name (e : nat)
    t g n el (m : list Instance) gc :
  m !! e = Some (IfcObject t g n el) ->
  scan_psets m name (IsDefinedBy m e) = None ->
  find_or_create_pset oh pset_description rel_prefix name e (mkState m gc)
  = (Returns (length m),
     mkState ((m ++ [IfcPropertySet (guid_seq gc) oh (Some name)
                       (Some pset_description) []])
              ++ [IfcRelDefinesByProperties (guid_seq (S gc)) oh
                    (Some (rel_prefix ++ or_else n g)%string) None [e] (length m)])
       (S (S gc))).
Proof.
  intros Hx Hscan.
  unfold find_or_create_pset, bind, get_model, guid_new, create, read, ret.
  simpl. rewrite Hscan. simpl.
  rewrite lookup_app_l by (eapply lookup_lt_Some; eauto). rewrite Hx. reflexivity.
Qed.

(** X9: a failure of [add_fire_safety_property] can leave its mark: the
    property set is created and attached before the value is made, so when
    [createIfcInteger] rejects the value of an "integer" property of an
    entity that had no such set, the call returns False and the entity keeps
    a new, empty property set. *)
Theorem rejected_value_leaves_an_empty_set self (e : nat) t g n el name pn pv st :
  wf (model st) = true ->
  model st !! e = Some (IfcObject t g n el) ->
  fire_safety_pset_name self t = Returns name ->
  scan_psets (model st) name (IsDefinedBy (model st) e) = None ->
  accepts_integer pv = false ->
  exists st',
    add_fire_safety_property self e pn pv "integer" st = (false, st')
    /\ length (model st') = length (model st) + 2
    /\ sets_named (model st) e name = []
    /\ exists rel pset,
         sets_named (model st') e name = [(rel, pset)]
         /\ property_names (model st') pset = [].
Proof.
  intros Hwf Hx Hname Hscan Hrej. destruct st as [m gc]. simpl in *.
  pose proof (find_or_create_pset_creates (owner_history self)
                ("Fire safety properties in " ++ language self)%string
                "Fire safety for " name e t g n el m gc Hx Hscan) as Hrun.
  eexists. split.
  - rewrite add_fire_safety_property_core. simpl model. rewrite Hx. simpl is_a.
    rewrite Hname. unfold try_except, ensure_and_append. unfold bind at 1.
    rewrite Hrun. unfold append_property, bind, lift, make_nominal_value.
    simpl. rewrite Hrej. reflexivity.
  - simpl model. split; [rewrite !length_app; simpl; lia|].
    assert (Hnone : sets_named m e name = []).
    { rewrite sets_named_candidates. apply scan_psets_None. exact Hscan. }
    split; [exact Hnone|].
    apply find_or_create_pset_spec in Hrun as (_ & Hadd & Hfound); [|exact Hwf].
    simpl model in *.
    destruct (Hfound (length m) [] eq_refl) as [[r Hr] Hp].
    { rewrite lookup_app_l by (rewrite length_app; simpl; lia).
      rewrite lookup_app_r, Nat.sub_diag by lia. reflexivity. }
    exists r, (length m). split.
    + destruct Hadd as (extra & Hext & Hcases).
      rewrite Hext in Hr |- *. rewrite Hnone in Hr |- *. simpl in Hr |- *.
      destruct (decide (e = e /\ name = name)) as [_|Hno];
        [|exfalso; apply Hno; split; reflexivity].
      destruct Hcases as [->|[_ (r' & p' & ->)]]; [discriminate|].
      simpl in Hr. injection Hr as -> ->. reflexivity.
    + rewrite Hp. unfold old_names. rewrite Hnone. reflexivity.
Qed.

(** ** add_property_sets.py: what a run adds *)

(** The seven instances that [add_wall_property_sets] creates for the wall
    [wall], the [i]-th of the walls, in a model of [n] instances, when [gc]
    identifiers have been drawn. *)
Definition wall_pset_batch (n : nat) (oh : option inst_id) (i : nat) (wall : inst_id)
    (gc : nat) : list Instance :=
  [IfcPropertySet (guid_seq gc) oh (Some "Pset_WallCommon")
     (Some "Common properties for walls") [n + 1; n + 2];
   IfcPropertySingleValue "IsExternal"
     (Some "Indicates whether the element is external") (IfcBoolean true) None;
   IfcPropertySingleValue "LoadBearing"
     (Some "Indicates if the element is load bearing") (IfcBoolean false) None;
   IfcRelDefinesByProperties (guid_seq (gc + 1)) oh
     (Some ("Wall " ++ str_nat (i + 1) ++ " Pset_WallCommon Assignment")%string)
     None [wall] n;
   IfcPropertySet (guid_seq (gc + 2)) oh (Some "CPset_Custom")
     (Some "Custom properties for walls") [n + 5];
   IfcPropertySingleValue "Graffitischutz"
     (Some "Indicates if wall has graffiti protection") (IfcBoolean true) None;
   IfcRelDefinesByProperties (guid_seq (gc + 3)) oh
     (Some ("Wall " ++ str_nat (i + 1) ++ " CPset_Custom Assignment")%string)
     None [wall] (n + 4)].

Definition window_pset_batch (n : nat) (oh : option inst_id) (i : nat)
    (window : inst_id) (gc : nat) : list Instance :=
  [IfcPropertySet (guid_seq gc) oh (Some "Pset_WindowCommon")
     (Some "Common properties for windows") [n + 1; n + 2];
   IfcPropertySingleValue "IsExternal"
     (Some "Indicates whether the element is external") (IfcBoolean true) None;
   IfcPropertySingleValue "Reference"
     (Some "Reference designation for the window")
     (IfcLabel ("WIN-" ++ str_nat_03d (i + 1))%string) None;
   IfcRelDefinesByProperties (guid_seq (gc + 1)) oh
     (Some ("Window " ++ str_nat (i + 1) ++ " Pset_WindowCommon Assignment")%string)
     None [window] n;
   IfcPropertySet (guid_seq (gc + 2)) oh (Some "CPSet_ReUse")
     (Some "Reuse properties for windows") [n + 5];
   IfcPropertySingleValue "Reusable"
     (Some "Indicates if element can be reused") (IfcBoolean false) None;
   IfcRelDefinesByProperties (guid_seq (gc + 3)) oh
     (Some ("Window " ++ str_nat (i + 1) ++ " CPSet_ReUse Assignment")%string)
     None [window] (n + 4)].

Lemma bind_create {B} (x : Instance) (k : inst_id -> Eff B) (m : list Instance) gc :
  bind (create x) k (mkState m gc) = k (length m) (mkState (m ++ [x]) gc).
Proof. reflexivity. Qed.

Lemma bind_create_more {B} (x : Instance) (k : inst_id -> Eff B) (m l : list Instance) gc :
  bind (create x) k (mkState (m ++ l) gc)
  = k (length m + length l) (mkState (m ++ (l ++ [x])) gc).
Proof.
  unfold bind, create. simpl. rewrite length_app, app_assoc. reflexivity.
Qed.

Lemma bind_guid {B} (k : string -> Eff B) (m : list Instance) gc :
  bind guid_new k (mkState m gc) = k (guid_seq gc) (mkState m (S gc)).
Proof. reflexivity. Qed.

Lemma bind_set_HasProperties {B} (i : nat) props (k : unit -> Eff B)
    (m l : list Instance) gc g oh n d old :
  l !! i = Some (IfcPropertySet g oh n d old) ->
  bind (set_HasProperties (length m + i) props) k (mkState (m ++ l) gc)
  = k tt (mkState (m ++ <[i := IfcPropertySet g oh n d props]> l) gc).
Proof.
  intros H. unfold bind, set_HasProperties. simpl.
  rewrite lookup_app_r by lia.
  replace (length m + i - length m) with i by lia. rewrite H.
  rewrite insert_app_r. reflexivity.
Qed.

Lemma bind_set_HasProperties_here {B} props (k : unit -> Eff B)
    (m l : list Instance) gc g oh n d old :
  bind (set_HasProperties (length m) props) k
    (mkState (m ++ IfcPropertySet g oh n d old :: l) gc)
  = k tt (mkState (m ++ IfcPropertySet g oh n d props :: l) gc).
Proof.
  rewrite <- (Nat.add_0_r (length m)).
  erewrite (bind_set_HasProperties 0) by reflexivity. reflexivity.
Qed.

Ltac run_step :=
  first [ rewrite bind_guid
        | rewrite bind_create_more; cbn [length app Nat.add]
        | rewrite bind_create ];
  cbv beta.

Lemma add_wall_property_sets_run oh i (wall : nat) (m : list Instance) gc :
  add_wall_property_sets oh i wall (mkState m gc)
  = (Returns tt, mkState (m ++ wall_pset_batch (length m) oh i wall gc) (gc + 4)).
Proof.
  unfold add_wall_property_sets, wall_pset_batch.
  do 4 run_step.
  rewrite bind_set_HasProperties_here. cbv beta.
  do 5 run_step.
  erewrite (bind_set_HasProperties 4) by reflexivity.
  cbn [insert list_insert]. cbv beta.
  do 2 run_step.
  unfold ret. repeat f_equal; lia.
Qed.

Lemma add_window_property_sets_run oh i (window : nat) (m : list Instance) gc :
  add_window_property_sets oh i window (mkState m gc)
  = (Returns tt, mkState (m ++ window_pset_batch (length m) oh i window gc) (gc + 4)).
Proof.
  unfold add_window_property_sets, window_pset_batch.
  do 4 run_step.
  rewrite bind_set_HasProperties_here. cbv beta.
  do 5 run_step.
  erewrite (bind_set_HasProperties 4) by reflexivity.
  cbn [insert list_insert]. cbv beta.
  do 2 run_step.
  unfold ret. repeat f_equal; lia.
Qed.

(** *** Observations on a model that has grown by a batch *)

Lemma select_app_batch (m l : list Instance) p :
  select (m ++ l) p = select m p ++ map (Nat.add (length m)) (select l p).
Proof.
  unfold select. rewrite length_app, seq_app, List.filter_app. f_equal.
  - apply List.filter_ext_in. intros i Hi. apply in_seq in Hi.
    rewrite lookup_app_l by lia. reflexivity.
  - simpl. rewrite <- (Nat.add_0_r (length m)) at 1.
    generalize 0 as k. generalize (length l) as n.
    induction n as [|n IH]; intros k; [reflexivity|]. simpl.
    rewrite lookup_app_r by lia.
    replace (length m + k - length m) with k by lia.
    rewrite <- Nat.add_succ_r.
    destruct (l !! k) as [x|]; [destruct (p x)|]; simpl; rewrite IH; reflexivity.
Qed.

Lemma wf_app_batch (m l : list Instance) :
  wf m = true -> forallb (refs_ok (length m + length l)) l = true -> wf (m ++ l) = true.
Proof.
  unfold wf. intros Hm Hl. rewrite length_app, forallb_app, Hl, andb_true_r.
  rewrite forallb_forall in *. intros i Hi. eapply refs_ok_mono; [|eauto]. lia.
Qed.

Lemma named_set_app_batch (m l : list Instance) (rel : nat) :
  wf m = true -> rel < length m -> named_set (m ++ l) rel = named_set m rel.
Proof.
  intros Hwf Hrel. unfold named_set. rewrite lookup_app_l by assumption.
  destruct (m !! rel ≫= attr_RelatingPropertyDefinition) as [pd|] eqn:E;
    [|reflexivity].
  apply rel_target_lt in E as [_ Hpd]; [|assumption].
  rewrite lookup_app_l by assumption. reflexivity.
Qed.

Lemma attached_app_batch (m l : list Instance) (e : nat) :
  wf m = true ->
  attached (m ++ l) e
  = attached m e
    ++ omap (fun rel => pair rel <$> named_set (m ++ l) rel)
         (map (Nat.add (length m)) (select l (defines e))).
Proof.
  intros Hwf. unfold attached.
  rewrite !IsDefinedBy_select, select_app_batch, omap_app. f_equal.
  apply omap_ext_In. intros rel Hrel. apply select_lt in Hrel.
  rewrite named_set_app_batch by assumption. reflexivity.
Qed.

Lemma lookup_past (m l : list Instance) (i : nat) :
  (m ++ l) !! (length m + i) = l !! i.
Proof.
  rewrite lookup_app_r by lia.
  replace (length m + i - length m) with i by lia. reflexivity.
Qed.

Lemma lookup_here (m : list Instance) x l : (m ++ x :: l) !! length m = Some x.
Proof. rewrite lookup_app_r, Nat.sub_diag by lia. reflexivity. Qed.

Lemma lookup_first (m l : list Instance) : (m ++ l) !! length m = l !! 0.
Proof. rewrite lookup_app_r, Nat.sub_diag by lia. reflexivity. Qed.

(** *** Two property sets for one element

    The four blocks of add_property_sets.py have one shape: a property set
    with its properties, then the relationship that attaches it. *)
Section TwoSets.

Variables name1 name2 : string.
Variables names1 names2 : list string.
Variable batch : nat -> nat -> inst_id -> nat -> list Instance.

(** The sets are at positions 0 and 4 of the batch and the relationships,
    which define only [x], at positions 3 and 6. *)
Hypothesis batch_defines : forall n i x gc e,
  select (batch n i x gc) (defines e) = if Nat.eqb e x then [3; 6] else [].
Hypothesis batch_first : forall n i x gc,
  exists g oh d props rg roh rn rd,
    batch n i x gc !! 0 = Some (IfcPropertySet g oh (Some name1) d props)
    /\ batch n i x gc !! 3 = Some (IfcRelDefinesByProperties rg roh rn rd [x] n).
Hypothesis batch_second : forall n i x gc,
  exists g oh d props rg roh rn rd,
    batch n i x gc !! 4 = Some (IfcPropertySet g oh (Some name2) d props)
    /\ batch n i x gc !! 6 = Some (IfcRelDefinesByProperties rg roh rn rd [x] (n + 4)).
Hypothesis batch_refs : forall n i x gc,
  forallb (refs_ok (n + 7)) (batch n i x gc) = true.
Hypothesis batch_length : forall n i x gc, length (batch n i x gc) = 7.
Hypothesis batch_names : forall (m l' : list Instance) i x gc,
  property_names (m ++ batch (length m) i x gc ++ l') (length m) = names1
  /\ property_names (m ++ batch (length m) i x gc ++ l') (length m + 4) = names2.

(** What one batch attaches to [e] under the name [name]. *)
Definition news (n : nat) (name : string) : list (inst_id * inst_id) :=
  omap (pick_name name) [(n + 3, (n, name1)); (n + 6, (n + 4, name2))].

Lemma batch_sets (m : list Instance) i (x : nat) gc :
  wf m = true ->
  wf (m ++ batch (length m) i x gc) = true
  /\ forall (e : nat) name,
       sets_named (m ++ batch (length m) i x gc) e name
       = sets_named m e name ++ (if Nat.eqb e x then news (length m) name else []).
Proof.
  intros Hwf. split.
  - apply wf_app_batch; [exact Hwf|]. rewrite batch_length. apply batch_refs.
  - intros e name. rewrite !sets_named_attached, attached_app_batch by exact Hwf.
    rewrite omap_app. f_equal. rewrite batch_defines.
    destruct (Nat.eqb e x); [|reflexivity].
    destruct (batch_first (length m) i x gc)
      as (g & oh & d & props & rg & roh & rn & rd & H0 & H3).
    destruct (batch_second (length m) i x gc)
      as (g' & oh' & d' & props' & rg' & roh' & rn' & rd' & H4 & H6).
    unfold news. f_equal.
    cbn [map].
    change (omap ?f [?a; ?b])
      with (match f a with
            | Some y => y :: match f b with Some z => [z] | None => [] end
            | None => match f b with Some z => [z] | None => [] end
            end).
    unfold named_set. rewrite !lookup_past, H3, H6. simpl.
    rewrite lookup_first, H0, lookup_past, H4. reflexivity.
Qed.

(** The loop over the elements: [body] runs once for each, in order. *)
Variable body : nat -> inst_id -> Eff unit.
Hypothesis body_run : forall i x (m : list Instance) gc,
  body i x (mkState m gc)
  = (Returns tt, mkState (m ++ batch (length m) i x gc) (gc + 4)).
Hypothesis names_differ : String.eqb name1 name2 = false.

Fixpoint batches (n i : nat) (xs : list inst_id) (gc : nat) : list Instance :=
  match xs with
  | [] => []
  | x :: xs' => batch n i x gc ++ batches (n + 7) (S i) xs' (gc + 4)
  end.

Fixpoint news_all (n : nat) (xs : list inst_id) (e : inst_id) (name : string)
  : list (inst_id * inst_id) :=
  match xs with
  | [] => []
  | x :: xs' => (if Nat.eqb e x then news n name else []) ++ news_all (n + 7) xs' e name
  end.

Lemma batches_length n i xs gc : length (batches n i xs gc) = 7 * length xs.
Proof.
  revert n i gc. induction xs as [|x xs IH]; intros n i gc; [reflexivity|].
  simpl batches. rewrite length_app, batch_length, IH. simpl length. lia.
Qed.

Lemma for_enumerate_run xs : forall i (m : list Instance) gc,
  for_enumerate body i xs (mkState m gc)
  = (Returns tt, mkState (m ++ batches (length m) i xs gc) (gc + 4 * length xs)).
Proof.
  induction xs as [|x xs IH]; intros i m gc.
  - simpl. unfold ret. rewrite app_nil_r, Nat.add_0_r. reflexivity.
  - simpl for_enumerate. unfold bind. rewrite body_run, IH.
    rewrite length_app, batch_length, <- app_assoc. simpl batches. simpl length.
    f_equal. f_equal. lia.
Qed.

Lemma batches_sets xs : forall i (m : list Instance) gc,
  wf m = true ->
  wf (m ++ batches (length m) i xs gc) = true
  /\ forall (e : nat) name,
       sets_named (m ++ batches (length m) i xs gc) e name
       = sets_named m e name ++ news_all (length m) xs e name.
Proof.
  induction xs as [|x xs IH]; intros i m gc Hwf.
  - simpl. rewrite app_nil_r. split; [exact Hwf|].
    intros e name. rewrite app_nil_r. reflexivity.
  - destruct (batch_sets m i x gc Hwf) as [Hwf1 Hs1].
    destruct (IH (S i) (m ++ batch (length m) i x gc) (gc + 4) Hwf1) as [Hwf2 Hs2].
    rewrite length_app, batch_length in Hwf2, Hs2.
    simpl batches. rewrite app_assoc. split; [exact Hwf2|].
    intros e name. rewrite Hs2, Hs1, <- app_assoc. reflexivity.
Qed.

Lemma news_all_absent n xs (e : nat) name : ~ In e xs -> news_all n xs e name = [].
Proof.
  revert n. induction xs as [|x xs IH]; intros n Hn; [reflexivity|].
  simpl. destruct (Nat.eqb e x) eqn:E.
  - apply Nat.eqb_eq in E. exfalso. apply Hn. left. congruence.
  - apply IH. intros H. apply Hn. right. exact H.
Qed.

Lemma news_all_once n xs (e : nat) name :
  List.NoDup xs -> In e xs ->
  exists k, k < length xs /\ news_all n xs e name = news (n + 7 * k) name.
Proof.
  revert n. induction xs as [|x xs IH]; intros n Hd Hin; [destruct Hin|].
  apply List.NoDup_cons_iff in Hd as [Hx Hd]. simpl news_all.
  destruct (Nat.eqb e x) eqn:E.
  - apply Nat.eqb_eq in E as ->. exists 0. split; [simpl; lia|].
    rewrite news_all_absent by exact Hx. rewrite app_nil_r. f_equal. lia.
  - apply Nat.eqb_neq in E. destruct Hin as [Hin|Hin]; [congruence|].
    destruct (IH (n + 7) Hd Hin) as (k & Hk & Hn). exists (S k).
    split; [simpl; lia|]. rewrite Hn. simpl. f_equal. lia.
Qed.

Lemma batches_names xs : forall i (m l' : list Instance) gc k,
  k < length xs ->
  property_names (m ++ batches (length m) i xs gc ++ l') (length m + 7 * k) = names1
  /\ property_names (m ++ batches (length m) i xs gc ++ l') (length m + 7 * k + 4)
     = names2.
Proof.
  induction xs as [|x xs IH]; intros i m l' gc k Hk; [simpl in Hk; lia|].
  simpl batches. rewrite <- app_assoc. destruct k as [|k].
  - rewrite Nat.mul_0_r, Nat.add_0_r. apply batch_names.
  - assert (Hk' : k < length xs) by (simpl in Hk; lia).
    pose proof (IH (S i) (m ++ batch (length m) i x gc) l' (gc + 4) k Hk') as H.
    rewrite length_app, batch_length, <- app_assoc in H.
    replace (length m + 7 * S k) with (length m + 7 + 7 * k) by lia.
    exact H.
Qed.

Lemma news_first n : news n name1 = [(n + 3, n)].
Proof.
  unfold news.
  change (omap ?f [?a; ?b])
    with (match f a with
          | Some y => y :: match f b with Some z => [z] | None => [] end
          | None => match f b with Some z => [z] | None => [] end
          end).
  unfold pick_name. rewrite String.eqb_refl, String.eqb_sym, names_differ.
  reflexivity.
Qed.

Lemma news_second n : news n name2 = [(n + 6, n + 4)].
Proof.
  unfold news.
  change (omap ?f [?a; ?b])
    with (match f a with
          | Some y => y :: match f b with Some z => [z] | None => [] end
          | None => match f b with Some z => [z] | None => [] end
          end).
  unfold pick_name. rewrite String.eqb_refl, names_differ. reflexivity.
Qed.

(** [e] carries one more property set named [name] in [m'] than in [m], the
    last one, and that set holds the properties [names]. *)
Definition gains (m m' : list Instance) (e : inst_id) (name : string)
    (names : list string) : Prop :=
  exists rel pset,
    sets_named m' e name = sets_named m e name ++ [(rel, pset)]
    /\ property_names m' pset = names.

(** After the loop, and whatever is appended later, each element of the
    list has gained its two sets; the sets of the other entities are as
    they were. *)
Lemma loop_gains xs i (m l' : list Instance) gc (e : nat) :
  wf m = true -> List.NoDup xs -> In e xs ->
  (forall name, sets_named (m ++ batches (length m) i xs gc ++ l') e name
                = sets_named (m ++ batches (length m) i xs gc) e name) ->
  gains m (m ++ batches (length m) i xs gc ++ l') e name1 names1
  /\ gains m (m ++ batches (length m) i xs gc ++ l') e name2 names2.
Proof.
  intros Hwf Hd Hin Hlater.
  destruct (batches_sets xs i m gc Hwf) as [_ Hs].
  split.
  - destruct (news_all_once (length m) xs e name1 Hd Hin) as (k & Hk & Hn).
    exists (length m + 7 * k + 3), (length m + 7 * k).
    split; [rewrite Hlater, Hs, Hn, news_first; reflexivity|].
    apply batches_names. exact Hk.
  - destruct (news_all_once (length m) xs e name2 Hd Hin) as (k & Hk & Hn).
    exists (length m + 7 * k + 6), (length m + 7 * k + 4).
    split; [rewrite Hlater, Hs, Hn, news_second; reflexivity|].
    apply batches_names. exact Hk.
Qed.

End TwoSets.

(** *** The two loops of [add_property_sets_to_model] *)

Definition wall_sets (oh : option inst_id) (n i : nat) (x : inst_id) (gc : nat)
  : list Instance := wall_pset_batch n oh i x gc.

Definition window_sets (oh : option inst_id) (n i : nat) (x : inst_id) (gc : nat)
  : list Instance := window_pset_batch n oh i x gc.

Ltac batch_defines :=
  intros; unfold wall_sets, window_sets, wall_pset_batch, window_pset_batch, select;
  cbn [length seq List.filter lookup list_lookup defines mem existsb];
  rewrite orb_false_r;
  match goal with |- context [Nat.eqb ?e ?x] => destruct (Nat.eqb e x) end;
  reflexivity.

Ltac batch_names :=
  intros; unfold wall_sets, window_sets, wall_pset_batch, window_pset_batch;
  split; unfold property_names;
  rewrite ?lookup_first, ?lookup_past; cbn [lookup list_lookup app];
  cbn [mbind option_bind attr_HasProperties];
  repeat (change (omap ?f (?a :: ?l))
            with (match f a with Some y => y :: omap f l | None => omap f l end);
          cbv beta; rewrite lookup_past; cbn [lookup list_lookup app]);
  reflexivity.

Lemma wall_sets_defines oh n i x gc e :
  select (wall_sets oh n i x gc) (defines e) = if Nat.eqb e x then [3; 6] else [].
Proof. batch_defines. Qed.

Lemma window_sets_defines oh n i x gc e :
  select (window_sets oh n i x gc) (defines e) = if Nat.eqb e x then [3; 6] else [].
Proof. batch_defines. Qed.

Lemma wall_sets_first oh n i x gc :
  exists g oh' d props rg roh rn rd,
    wall_sets oh n i x gc !! 0 = Some (IfcPropertySet g oh' (Some "Pset_WallCommon") d props)
    /\ wall_sets oh n i x gc !! 3 = Some (IfcRelDefinesByProperties rg roh rn rd [x] n).
Proof. repeat eexists. Qed.

Lemma wall_sets_second oh n i x gc :
  exists g oh' d props rg roh rn rd,
    wall_sets oh n i x gc !! 4 = Some (IfcPropertySet g oh' (Some "CPset_Custom") d props)
    /\ wall_sets oh n i x gc !! 6
       = Some (IfcRelDefinesByProperties rg roh rn rd [x] (n + 4)).
Proof. repeat eexists. Qed.

Lemma window_sets_first oh n i x gc :
  exists g oh' d props rg roh rn rd,
    window_sets oh n i x gc !! 0
    = Some (IfcPropertySet g oh' (Some "Pset_WindowCommon") d props)
    /\ window_sets oh n i x gc !! 3 = Some (IfcRelDefinesByProperties rg roh rn rd [x] n).
Proof. repeat eexists. Qed.

Lemma window_sets_second oh n i x gc :
  exists g oh' d props rg roh rn rd,
    window_sets oh n i x gc !! 4 = Some (IfcPropertySet g oh' (Some "CPSet_ReUse") d props)
    /\ window_sets oh n i x gc !! 6
       = Some (IfcRelDefinesByProperties rg roh rn rd [x] (n + 4)).
Proof. repeat eexists. Qed.

Lemma wall_sets_refs oh n i x gc : forallb (refs_ok (n + 7)) (wall_sets oh n i x gc) = true.
Proof.
  unfold wall_sets, wall_pset_batch. cbn [forallb refs_ok].
  repeat match goal with
         | |- context [Nat.ltb ?a ?b] =>
             replace (Nat.ltb a b) with true by (symmetry; apply Nat.ltb_lt; lia)
         end.
  reflexivity.
Qed.

Lemma window_sets_refs oh n i x gc :
  forallb (refs_ok (n + 7)) (window_sets oh n i x gc) = true.
Proof.
  unfold window_sets, window_pset_batch. cbn [forallb refs_ok].
  repeat match goal with
         | |- context [Nat.ltb ?a ?b] =>
             replace (Nat.ltb a b) with true by (symmetry; apply Nat.ltb_lt; lia)
         end.
  reflexivity.
Qed.

Lemma wall_sets_length oh n i x gc : length (wall_sets oh n i x gc) = 7.
Proof. reflexivity. Qed.

Lemma window_sets_length oh n i x gc : length (window_sets oh n i x gc) = 7.
Proof. reflexivity. Qed.

Lemma wall_sets_names oh (m l' : list Instance) i x gc :
  property_names (m ++ wall_sets oh (length m) i x gc ++ l') (length m)
  = ["IsExternal"; "LoadBearing"]%string
  /\ property_names (m ++ wall_sets oh (length m) i x gc ++ l') (length m + 4)
     = ["Graffitischutz"]%string.
Proof. batch_names. Qed.

Lemma window_sets_names oh (m l' : list Instance) i x gc :
  property_names (m ++ window_sets oh (length m) i x gc ++ l') (length m)
  = ["IsExternal"; "Reference"]%string
  /\ property_names (m ++ window_sets oh (length m) i x gc ++ l') (length m + 4)
     = ["Reusable"]%string.
Proof. batch_names. Qed.

Lemma by_type_NoDup (m : list Instance) t : List.NoDup (by_type m t).
Proof. unfold by_type, select. apply List.NoDup_filter, List.seq_NoDup. Qed.

Lemma wall_is_no_window (m : list Instance) (e : nat) :
  In e (by_type m "IfcWall") -> ~ In e (by_type m "IfcWindow").
Proof.
  unfold by_type. rewrite !select_In. intros (x & Hx & Hw) (y & Hy & Hn).
  rewrite Hx in Hy. injection Hy as <-.
  change (subclasses "IfcWall")
    with ["IfcWallStandardCase"; "IfcWallElementedCase"]%string in Hw.
  change (subclasses "IfcWindow") with ["IfcWindowStandardCase"]%string in Hn.
  cbn [existsb] in Hw, Hn. rewrite orb_false_r in Hw, Hn.
  apply orb_prop in Hw as [Hw|Hw]; [|apply orb_prop in Hw as [Hw|Hw]];
    apply String.eqb_eq in Hw; rewrite Hw in Hn; vm_compute in Hn; discriminate.
Qed.

(** The model after [add_property_sets_to_model]. *)
Definition with_property_sets (m : list Instance) (gc : nat) : list Instance :=
  let oh := head (by_type m "IfcOwnerHistory") in
  let walls := by_type m "IfcWall" in
  let windows := by_type m "IfcWindow" in
  m ++ batches (wall_sets oh) (length m) 0 walls gc
    ++ batches (window_sets oh) (length m + 7 * length walls) 0 windows
         (gc + 4 * length walls).

Lemma add_property_sets_to_model_run (m : list Instance) gc :
  add_property_sets_to_model (mkState m gc)
  = (Returns tt,
     mkState (with_property_sets m gc)
       (gc + 4 * (length (by_type m "IfcWall") + length (by_type m "IfcWindow")))).
Proof.
  unfold add_property_sets_to_model, with_property_sets.
  unfold bind at 1. unfold get_model. cbv zeta. unfold bind.
  rewrite (for_enumerate_run (wall_sets (head (by_type m "IfcOwnerHistory")))
             (wall_sets_length _) _ (add_wall_property_sets_run _)).
  rewrite (for_enumerate_run (window_sets (head (by_type m "IfcOwnerHistory")))
             (window_sets_length _) _ (add_window_property_sets_run _)).
  rewrite length_app, batches_length by apply wall_sets_length.
  cbn [model]. rewrite <- app_assoc. f_equal. f_equal. lia.
Qed.

(** X10: [add_property_sets_to_model] never raises and changes no instance
    of the model it is given: it appends seven instances for each wall and
    for each window (two property sets, their three properties and the two
    relationships) and draws four identifiers for each. *)
Theorem add_property_sets_to_model_appends (st : State) :
  let walls := by_type (model st) "IfcWall" in
  let windows := by_type (model st) "IfcWindow" in
  exists l,
    add_property_sets_to_model st
    = (Returns tt,
       mkState (model st ++ l)
         (guid_calls st + 4 * (length walls + length windows)))
    /\ length l = 7 * (length walls + length windows).
Proof.
  destruct st as [m gc]. cbv zeta. simpl model. simpl guid_calls.
  eexists. split; [apply add_property_sets_to_model_run|].
  rewrite length_app, !batches_length
    by first [apply wall_sets_length | apply window_sets_length].
  lia.
Qed.

(** X11: [add_property_sets_to_model] never looks for a property set that
    is already there.  In a model without dangling references every wall
    ends with one more set named Pset_WallCommon and one more named
    CPset_Custom than it had, and every window with one more
    Pset_WindowCommon and one more CPSet_ReUse, each with the properties of
    the script. *)
Theorem add_property_sets_to_model_adds_anew (st : State) :
  wf (model st) = true ->
  exists st',
    add_property_sets_to_model st = (Returns tt, st')
    /\ wf (model st') = true
    /\ (forall wall : nat, In wall (by_type (model st) "IfcWall") ->
          gains (model st) (model st') wall "Pset_WallCommon"
            ["IsExternal"; "LoadBearing"]%string
          /\ gains (model st) (model st') wall "CPset_Custom"
               ["Graffitischutz"]%string)
    /\ (forall window : nat, In window (by_type (model st) "IfcWindow") ->
          gains (model st) (model st') window "Pset_WindowCommon"
            ["IsExternal"; "Reference"]%string
          /\ gains (model st) (model st') window "CPSet_ReUse"
               ["Reusable"]%string).
Proof.
  intros Hwf. destruct st as [m gc]. simpl model in *.
  eexists. split; [apply add_property_sets_to_model_run|]. simpl model.
  unfold with_property_sets. cbv zeta.
  set (oh := head (by_type m "IfcOwnerHistory")).
  set (walls := by_type m "IfcWall"). set (windows := by_type m "IfcWindow").
  set (lw := batches (wall_sets oh) (length m) 0 walls gc).
  set (ln := batches (window_sets oh) (length m + 7 * length walls) 0 windows
               (gc + 4 * length walls)).
  destruct (batches_sets "Pset_WallCommon" "CPset_Custom" (wall_sets oh)
              (wall_sets_defines oh) (wall_sets_first oh) (wall_sets_second oh)
              (wall_sets_refs oh) (wall_sets_length oh) walls 0 m gc Hwf)
    as [Hwf1 Hs1].
  fold lw in Hwf1, Hs1.
  assert (Hlen1 : length (m ++ lw) = length m + 7 * length walls).
  { unfold lw. rewrite length_app, batches_length by apply wall_sets_length.
    reflexivity. }
  destruct (batches_sets "Pset_WindowCommon" "CPSet_ReUse" (window_sets oh)
              (window_sets_defines oh) (window_sets_first oh) (window_sets_second oh)
              (window_sets_refs oh) (window_sets_length oh) windows 0 (m ++ lw)
              (gc + 4 * length walls) Hwf1)
    as [Hwf2 Hs2].
  rewrite Hlen1 in Hwf2, Hs2. fold ln in Hwf2, Hs2.
  rewrite <- app_assoc in Hwf2, Hs2.
  split; [exact Hwf2|]. split.
  - intros wall Hin.
    apply (loop_gains "Pset_WallCommon" "CPset_Custom" _ _ (wall_sets oh)
             (wall_sets_defines oh) (wall_sets_first oh) (wall_sets_second oh)
             (wall_sets_refs oh) (wall_sets_length oh) (wall_sets_names oh)
             eq_refl walls 0 m ln gc wall Hwf (by_type_NoDup m _) Hin).
    intros name. fold lw. rewrite Hs2.
    rewrite news_all_absent by (apply wall_is_no_window; exact Hin).
    apply app_nil_r.
  - intros window Hin.
    assert (Hno : ~ In window walls).
    { intros Hw. exact (wall_is_no_window m window Hw Hin). }
    pose proof (loop_gains "Pset_WindowCommon" "CPSet_ReUse" _ _ (window_sets oh)
                  (window_sets_defines oh) (window_sets_first oh)
                  (window_sets_second oh) (window_sets_refs oh)
                  (window_sets_length oh) (window_sets_names oh)
                  eq_refl windows 0 (m ++ lw) [] (gc + 4 * length walls) window
                  Hwf1 (by_type_NoDup m _) Hin) as Hg.
    rewrite Hlen1 in Hg. fold ln in Hg. rewrite !app_nil_r, <- app_assoc in Hg.
    specialize (Hg (fun name => eq_refl)).
    assert (Hsame : forall name, sets_named (m ++ lw) window name = sets_named m window name).
    { intros name. rewrite Hs1, news_all_absent by exact Hno. apply app_nil_r. }
    destruct Hg as [(r1 & p1 & Ha1 & Hb1) (r2 & p2 & Ha2 & Hb2)].
    split; [exists r1, p1 | exists r2, p2]; (split; [|assumption]).
    + rewrite Ha1, Hsame. reflexivity.
    + rewrite Ha2, Hsame. reflexivity.
Qed.

(** ** The elements that [process_all_elements] visits *)

(** The classes of the instances that the managers create. *)
Definition annotation_class (t : string) : bool :=
  existsb (String.eqb t)
    ["IfcPropertySet"; "IfcPropertySingleValue"; "IfcRelDefinesByProperties"].

(** [m'] is [m] with every class kept and with annotations after it. *)
Definition annotates (m m' : list Instance) : Prop :=
  keeps_classes m m'
  /\ length m <= length m'
  /\ forall (i : nat) x, length m <= i -> m' !! i = Some x ->
                         annotation_class (is_a x) = true.

Lemma annotates_refl m : annotates m m.
Proof.
  split; [apply keeps_classes_refl|]. split; [lia|].
  intros i x Hi Hx. apply lookup_lt_Some in Hx. lia.
Qed.

Lemma annotates_trans m1 m2 m3 : annotates m1 m2 -> annotates m2 m3 -> annotates m1 m3.
Proof.
  intros (Hk12 & Hl12 & Hn12) (Hk23 & Hl23 & Hn23).
  split; [eapply keeps_classes_trans; eauto|]. split; [lia|].
  intros i x Hi Hx. destruct (Nat.lt_ge_cases i (length m2)) as [Hlt|Hge].
  - destruct (lookup_lt_is_Some_2 m2 i Hlt) as [y Hy].
    specialize (Hk23 i y Hy). rewrite Hx in Hk23. injection Hk23 as ->.
    apply (Hn12 i y Hi Hy).
  - apply (Hn23 i x Hge Hx).
Qed.

Lemma annotates_app (m : list Instance) x :
  annotation_class (is_a x) = true -> annotates m (m ++ [x]).
Proof.
  intros Hx. split; [apply keeps_classes_app|].
  split; [rewrite length_app; lia|].
  intros i y Hi Hy.
  assert (i = length m).
  { apply lookup_lt_Some in Hy. rewrite length_app in Hy. simpl in Hy. lia. }
  subst i. rewrite lookup_app_r, Nat.sub_diag in Hy by lia.
  injection Hy as <-. exact Hx.
Qed.

Lemma annotates_insert (m : list Instance) (pd : nat) g oh n d props props' :
  m !! pd = Some (IfcPropertySet g oh n d props) ->
  annotates m (<[pd := IfcPropertySet g oh n d props']> m).
Proof.
  intros H. split; [eapply keeps_classes_insert; exact H|].
  split; [rewrite length_insert; lia|].
  intros i x Hi Hx. apply lookup_lt_Some in Hx. rewrite length_insert in Hx. lia.
Qed.

Lemma append_property_annotates (pset : nat) pn pdesc nv st o st' :
  append_property pset pn pdesc nv st = (o, st') -> annotates (model st) (model st').
Proof.
  intros H. destruct st as [m gc].
  unfold append_property, bind, lift, create, read, set_HasProperties in H.
  simpl in H |- *.
  destruct nv as [v|ex]; [|injection H as <- <-; apply annotates_refl].
  set (prop := IfcPropertySingleValue pn (Some pdesc) v None) in *.
  assert (Ha : annotates m (m ++ [prop])) by (apply annotates_app; reflexivity).
  destruct ((m ++ [prop]) !! pset) as [x|] eqn:Ex;
    [|injection H as <- <-; exact Ha].
  destruct (attr_HasProperties x) as [props|] eqn:Ep;
    [|injection H as <- <-; exact Ha].
  destruct x as [ | g oh n d props0 | | | | | ]; try discriminate.
  simpl in H. rewrite Ex in H. injection H as <- <-. simpl.
  eapply annotates_trans; [exact Ha|].
  eapply annotates_insert. exact Ex.
Qed.

Lemma find_or_create_pset_annotates oh pset_description rel_prefix name (e : nat)
    st o st' :
  find_or_create_pset oh pset_description rel_prefix name e st = (o, st') ->
  annotates (model st) (model st').
Proof.
  intros H. destruct st as [m gc].
  unfold find_or_create_pset, bind, get_model, guid_new, create, read, ret in H.
  simpl in H |- *.
  destruct (scan_psets m name (IsDefinedBy m e)) as [pd|];
    [injection H as <- <-; apply annotates_refl|].
  simpl in H.
  match type of H with context [(m ++ [?p]) !! e] =>
    assert (Ha : annotates m (m ++ [p])) by (apply annotates_app; reflexivity);
    destruct ((m ++ [p]) !! e) as [x|]
  end; [|injection H as <- <-; exact Ha].
  destruct (name_or_guid x) as [label|];
    [|injection H as <- <-; exact Ha].
  injection H as <- <-. simpl.
  eapply annotates_trans; [exact Ha|]. apply annotates_app. reflexivity.
Qed.

Lemma ensure_and_append_annotates oh pset_description rel_prefix name (e : nat) pn
    pdesc nv st b st' :
  try_except (ensure_and_append oh pset_description rel_prefix name e pn pdesc nv) st
  = (b, st') ->
  annotates (model st) (model st').
Proof.
  intros H. unfold try_except, ensure_and_append, bind in H.
  destruct (find_or_create_pset oh pset_description rel_prefix name e st)
    as [o1 st1] eqn:H1.
  apply find_or_create_pset_annotates in H1.
  destruct o1 as [pd|ex]; [|injection H as <- <-; exact H1].
  destruct (append_property pd pn pdesc nv st1) as [o2 st2] eqn:H2.
  apply append_property_annotates in H2.
  assert (annotates (model st) (model st2))
    by (eapply annotates_trans; eauto).
  destruct o2; injection H as <- <-; assumption.
Qed.

Lemma add_fire_rating_property_annotates language (e : nat) fire_rating st b st' :
  add_fire_rating_property language e fire_rating st = (b, st') ->
  annotates (model st) (model st').
Proof.
  intros H. rewrite add_fire_rating_property_core in H.
  destruct (model st !! e) as [x|];
    [|injection H as <- <-; apply annotates_refl].
  destruct (get_pset_name language (is_a x));
    [|injection H as <- <-; apply annotates_refl].
  eapply ensure_and_append_annotates. exact H.
Qed.

Lemma add_fire_safety_property_annotates self (e : nat) pn pv pt st b st' :
  add_fire_safety_property self e pn pv pt st = (b, st') ->
  annotates (model st) (model st').
Proof.
  intros H. rewrite add_fire_safety_property_core in H.
  destruct (model st !! e) as [x|];
    [|injection H as <- <-; apply annotates_refl].
  destruct (fire_safety_pset_name self (is_a x));
    [|injection H as <- <-; apply annotates_refl].
  eapply ensure_and_append_annotates. exact H.
Qed.

(** A class that is no annotation class and has no such subclass. *)
Definition element_class (t : string) : bool :=
  negb (annotation_class t) && forallb (fun s => negb (annotation_class s)) (subclasses t).

Lemma filter_none {A} (f : A -> bool) (l : list A) :
  (forall a, In a l -> f a = false) -> List.filter f l = [].
Proof.
  induction l as [|a l IH]; intros H; [reflexivity|]. simpl.
  rewrite (H a) by (left; reflexivity). apply IH. intros b Hb. apply H. right. exact Hb.
Qed.

Lemma by_type_annotates (m m' : list Instance) t :
  annotates m m' -> element_class t = true -> by_type m' t = by_type m t.
Proof.
  intros (Hk & Hl & Hn) Ht. unfold by_type, select.
  replace (length m') with (length m + (length m' - length m)) by lia.
  rewrite seq_app, List.filter_app.
  rewrite (filter_none _ (seq (0 + length m) _)).
  - rewrite app_nil_r.
    apply List.filter_ext_in. intros i Hi. apply in_seq in Hi.
    destruct (lookup_lt_is_Some_2 m i) as [x Hx]; [lia|].
    specialize (Hk i x Hx). rewrite Hx.
    destruct (m' !! i) as [y|]; [|discriminate]. injection Hk as ->. reflexivity.
  - intros i Hi. apply in_seq in Hi.
    destruct (m' !! i) as [x|] eqn:Hx; [|reflexivity].
    assert (Ha : annotation_class (is_a x) = true) by (apply (Hn i x); [lia | exact Hx]).
    unfold element_class in Ht. apply andb_prop in Ht as [Ht1 Ht2].
    apply orb_false_intro.
    + destruct (String.eqb (is_a x) t) eqn:E; [|reflexivity].
      apply String.eqb_eq in E. rewrite E in Ha. rewrite Ha in Ht1. discriminate.
    + destruct (existsb (String.eqb (is_a x)) (subclasses t)) eqn:E; [|reflexivity].
      apply existsb_exists in E as (s & Hs & Es). apply String.eqb_eq in Es.
      rewrite forallb_forall in Ht2. specialize (Ht2 s Hs).
      rewrite <- Es, Ha in Ht2. discriminate.
Qed.

Lemma flat_map_by_type_annotates (m m' : list Instance) ts :
  annotates m m' -> forallb element_class ts = true ->
  flat_map (by_type m') ts = flat_map (by_type m) ts.
Proof.
  intros Ha. induction ts as [|t ts IH]; intros Hts; [reflexivity|].
  simpl in Hts. apply andb_prop in Hts as [Ht Hts]. simpl.
  rewrite (by_type_annotates _ _ _ Ha Ht), IH by exact Hts. reflexivity.
Qed.

Lemma process_elements_counts language elements : forall results st p e st',
  process_elements language elements results st = (Returns (p, e), st') ->
  p + e = fst results + snd results + length elements
  /\ annotates (model st) (model st').
Proof.
  induction elements as [|element elements IH]; intros results st p e st' H.
  - simpl in H. injection H as Hr <-. rewrite Hr. simpl.
    split; [lia | apply annotates_refl].
  - simpl in H. unfold bind, get_model, lift in H.
    destruct (get_element_classification language (model st) element) as [cf|ex];
      [|discriminate].
    destruct (add_fire_rating_property language element (snd cf) st) as [b st1] eqn:H1.
    apply add_fire_rating_property_annotates in H1.
    destruct b; apply IH in H as [Hc Ha]; simpl in Hc; simpl length;
      (split; [lia | eapply annotates_trans; eauto]).
Qed.

(** The classes that [process_all_elements] asks for. *)
Definition rated_classes : list string :=
  ["IfcWall"; "IfcDoor"; "IfcSlab"; "IfcBeam"; "IfcColumn"; "IfcWindow"; "IfcStair";
   "IfcStairFlight"].

Lemma process_element_types_counts language element_types :
  forallb element_class element_types = true ->
  forall results st p e st',
    process_element_types language element_types results st = (Returns (p, e), st') ->
    p + e = fst results + snd results
            + length (flat_map (by_type (model st)) element_types)
    /\ annotates (model st) (model st').
Proof.
  induction element_types as [|t ts IH]; intros Hts results st p e st' H.
  - simpl in H. injection H as Hr <-. rewrite Hr. simpl.
    split; [lia | apply annotates_refl].
  - simpl in Hts. apply andb_prop in Hts as [Ht Hts].
    simpl in H. unfold bind at 1 in H. unfold get_model at 1 in H.
    unfold bind at 1 in H.
    destruct (process_elements language (by_type (model st) t) results st)
      as [[[p1 e1]|ex] st1] eqn:H1; [|discriminate].
    apply process_elements_counts in H1 as [Hc1 Ha1].
    apply (IH Hts) in H as [Hc Ha]. simpl in Hc.
    split; [|eapply annotates_trans; eauto].
    simpl flat_map. rewrite length_app.
    rewrite (flat_map_by_type_annotates _ _ _ Ha1 Hts) in Hc. lia.
Qed.

(** X12: when [process_all_elements] returns, every element of the eight
    classes has been counted once, as processed or as an error; the elements
    of these classes are the same after the run as before it, since only
    property sets, properties and their relationships are created. *)
Theorem process_all_elements_counts_each_once language st processed errors st' :
  process_all_elements language st = (Returns (processed, errors), st') ->
  processed + errors = length (flat_map (by_type (model st)) rated_classes)
  /\ forall t, In t rated_classes -> by_type (model st') t = by_type (model st) t.
Proof.
  intros H. unfold process_all_elements in H.
  apply (process_element_types_counts language rated_classes eq_refl) in H as [Hc Ha].
  split; [exact Hc|]. intros t Ht. apply by_type_annotates; [exact Ha|].
  unfold rated_classes in Ht. cbn [In] in Ht.
  repeat (destruct Ht as [<-|Ht]; [reflexivity|]). destruct Ht.
Qed.

End Model.

(** ** Concrete runs *)

(** Python values for the runs below: strings and integers, of which
    [createIfcInteger] and [createIfcReal] are taken to accept the
    integers. *)
Inductive SampleValue : Type :=
| PyStr (s : string)
| PyInt (z : Z).

Definition sample_str (v : SampleValue) : string :=
  match v with
  | PyStr s => s
  | PyInt z => NilZero.string_of_int (Z.to_int z)
  end.

Definition sample_is_int (v : SampleValue) : bool :=
  match v with
  | PyInt _ => true
  | PyStr _ => false
  end.

Definition sample_guid (k : nat) : string := "guid-" ++ str_nat k.

Definition sample_manager : BuildingFireSafetyManager :=
  {| language := "de"; owner_history := None |}.

Definition safety :=
  add_fire_safety_property sample_str sample_is_int sample_is_int sample_guid
    sample_manager.

(** A model that holds one site. *)
Definition bare_site : State (PyVal := SampleValue) :=
  mkState [IfcObject "IfcSite" "site-guid" (Some "House Site") None] 0.

(** A model that holds one wall, in a storey. *)
Definition bare_wall : State (PyVal := SampleValue) :=
  mkState [IfcObject "IfcWall" "wall-guid" (Some "Front Wall") None;
           IfcObject "IfcBuildingStorey" "storey-guid" (Some "Ground Floor")
             (Some 0%float);
           IfcRelContainedInSpatialStructure [0] (Some 1)] 0.

Lemma ensure_property_twice_witness :
  let st1 := snd (safety 0 "SiteFireSafetyLevel" (PyStr "QSS Stufe 3") "text" bare_site) in
  let st2 := snd (safety 0 "MaximumOccupancy" (PyInt 50) "integer" st1) in
  exists rel pset,
    sets_named (model st2) 0 "Pset_SiteCommon" = [(rel, pset)]
    /\ property_names (model st2) pset
       = (old_names (model bare_site) 0 "Pset_SiteCommon"
          ++ ["SiteFireSafetyLevel"; "MaximumOccupancy"])%list.
Proof.
  intros st1 st2.
  apply (ensure_property_twice sample_str sample_is_int sample_is_int sample_guid
           sample_manager 0 "Pset_SiteCommon"
           "SiteFireSafetyLevel" (PyStr "QSS Stufe 3") "text"
           "MaximumOccupancy" (PyInt 50) "integer" bare_site st1 st2).
  - reflexivity.
  - reflexivity.
  - vm_compute. lia.
  - reflexivity.
  - reflexivity.
Defined.

Example ensure_property_twice_run :
  let st1 := snd (safety 0 "SiteFireSafetyLevel" (PyStr "QSS Stufe 3") "text" bare_site) in
  let st2 := snd (safety 0 "MaximumOccupancy" (PyInt 50) "integer" st1) in
  sets_named (model st2) 0 "Pset_SiteCommon" = [(2, 1)]
  /\ property_names (model st2) 1 = ["SiteFireSafetyLevel"; "MaximumOccupancy"].
Proof. split; reflexivity. Qed.




(** A wall whose property set is called after its structural role. *)
Definition wall_with_named_set : list (Instance (PyVal := SampleValue)) :=
  [IfcObject "IfcWall" "wall-guid" (Some "Core Wall") None;
   IfcObject "IfcBuildingStorey" "storey-guid" (Some "Ground Floor") (Some 0%float);
   IfcRelContainedInSpatialStructure [0] (Some 1);
   IfcPropertySet "pset-guid" None (Some "CPset_LoadBearingStructure") None [];
   IfcRelDefinesByProperties "rel-guid" None None None [0] 3].


(** C9 fails as stated: after [add_fire_rating_property] has attached
    Pset_WallCommon to the wall, [add_property_sets_to_model] attaches a
    second set of that name. *)
Lemma add_property_sets_duplicates_set :
  let st1 := run sample_str sample_is_int sample_is_int sample_guid bare_wall
               (AddFireRating "en" 0 "REI 60") in
  let st2 := snd (add_property_sets_to_model sample_guid st1) in
  unique_sets (model bare_wall)
  /\ unique_sets (model st1)
  /\ fst (add_property_sets_to_model sample_guid st1) = Returns tt
  /\ sets_named (model st2) 0 "Pset_WallCommon" = [(4, 3); (9, 6)]
  /\ ~ unique_sets (model st2).
Proof.
  intros st1 st2. split; [|split; [|split; [|split]]].
  - apply few_relationships_unique. vm_compute. lia.
  - apply few_relationships_unique. vm_compute. lia.
  - reflexivity.
  - reflexivity.
  - intros H. specialize (H 0 "Pset_WallCommon"). vm_compute in H. lia.
Qed.

Lemma find_or_create_keeps_unique_sets_witness :
  let ops := [AddFireRating "en" 0 "REI 60";
              AddFireSafety sample_manager 0 "FireSafetyCompliance"
                (PyStr "VKF Standards Compliant") "text";
              AddFireRating "ch" 0 "REI 90";
              AddFireSafety sample_manager 1 "MaximumOccupancy" (PyInt 50) "integer"] in
  let st := foldl (run sample_str sample_is_int sample_is_int sample_guid) bare_wall ops in
  wf (model st) = true /\ unique_sets (model st).
Proof.
  intros ops st.
  apply (find_or_create_keeps_unique_sets sample_str sample_is_int sample_is_int
           sample_guid ops bare_wall).
  - reflexivity.
  - apply few_relationships_unique. vm_compute. lia.
Defined.

(** ** Runs of the analyzer *)

Lemma get_pset_name_falls_back_witness :
  get_pset_name "it" "IfcRoof" = Returns "Pset_WallCommon".
Proof.
  destruct (get_pset_name_falls_back "it" "IfcRoof") as (name & H1 & _ & _ & H4).
  rewrite H1, (H4 eq_refl). reflexivity.
Defined.

Lemma rating_is_from_the_table_witness :
  In "loadbearing_wall" classifications
  /\ exists ratings,
       dict_get FireRatingConfig.FIRE_RATING_VALUES "ch" = Some ratings
       /\ dict_get ratings "loadbearing_wall" = Some "REI 90".
Proof.
  apply (rating_is_from_the_table "ch" wall_with_named_set 0). reflexivity.
Defined.

Lemma unsupported_language_raises_witness :
  exists e,
    process_all_elements sample_guid "it" (mkState wall_with_named_set 0)
    = (Raises e, mkState wall_with_named_set 0).
Proof.
  apply (proj2 (unsupported_language_raises sample_guid "it"
                  (mkState wall_with_named_set 0) 0 [] eq_refl eq_refl)).
Defined.



(** A wall in a storey whose only property set has no name. *)
Definition wall_with_unnamed_set : list (Instance (PyVal := SampleValue)) :=
  [IfcObject "IfcWall" "wall-guid" (Some "Core Wall") None;
   IfcObject "IfcBuildingStorey" "storey-guid" (Some "Ground Floor") (Some 0%float);
   IfcRelContainedInSpatialStructure [0] (Some 1);
   IfcPropertySet "pset-guid" None None None [];
   IfcRelDefinesByProperties "rel-guid" None None None [0] 3].

Lemma unnamed_definition_raises_witness :
  classify_wall wall_with_unnamed_set 0 = Raises "AttributeError"
  /\ get_element_classification "en" wall_with_unnamed_set 0 = Raises "AttributeError".
Proof.
  destruct (proj1 (unnamed_definition_raises "en" wall_with_unnamed_set 0
                     (IfcObject "IfcWall" "wall-guid" (Some "Core Wall") None)
                     [] [] eq_refl eq_refl eq_refl) eq_refl) as [H1 H2].
  split; [exact H1 | exact (H2 eq_refl)].
Defined.

(** A wall of the subclass, contained directly in the building and with a
    property set named after its structural role. *)
Definition standard_case_wall : list (Instance (PyVal := SampleValue)) :=
  [IfcObject "IfcWallStandardCase" "wall-guid" (Some "Facade") None;
   IfcObject "IfcBuilding" "building-guid" (Some "Small House") None;
   IfcRelContainedInSpatialStructure [0] (Some 1);
   IfcPropertySet "pset-guid" None (Some "CPset_LoadBearingStructure") None [];
   IfcRelDefinesByProperties "rel-guid" None None None [0] 3].

Lemma unlisted_class_is_internal_wall_witness :
  existsb (in_building standard_case_wall) (ContainedInStructure standard_case_wall 0)
  = true
  /\ get_element_classification "de" standard_case_wall 0
     = Returns ("internal_wall", "REI 60")
  /\ get_pset_name "de" "IfcWallStandardCase" = Returns "Pset_WallCommon"
  /\ In 0 (by_type standard_case_wall "IfcWall").
Proof.
  split; [reflexivity|].
  destruct (unlisted_class_is_internal_wall "de" FireRatingConfig.european_ratings
              standard_case_wall 0
              (IfcObject "IfcWallStandardCase" "wall-guid" (Some "Facade") None)
              eq_refl eq_refl eq_refl) as (H1 & H2 & H3).
  split; [exact H1|]. split; [exact H2 | exact (H3 eq_refl)].
Defined.

Lemma storey_branch_is_dead_witness :
  fire_safety_pset_name sample_manager "IfcBuildingStorey"
  = Returns "Pset_BuildingCommon".
Proof.
  destruct (storey_branch_is_dead sample_manager "IfcBuildingStorey")
    as (name & H1 & _ & _ & H4).
  rewrite H1, (H4 eq_refl). reflexivity.
Defined.

(** ** Runs of the managers *)

Lemma fire_rating_is_added_again_witness :
  let st1 := snd (add_fire_rating_property sample_guid "en" 0 "REI 60" bare_wall) in
  let st2 := snd (add_fire_rating_property sample_guid "en" 0 "REI 60" st1) in
  exists name rel pset,
    rating_set_name "en" (model bare_wall) 0 = Some name
    /\ head (sets_named (model st2) 0 name) = Some (rel, pset)
    /\ property_names (model st2) pset
       = (old_names (model bare_wall) 0 name ++ ["FireRating"; "FireRating"])%list.
Proof.
  intros st1 st2.
  apply (fire_rating_is_added_again sample_guid "en" 0 "REI 60" "REI 60"
           bare_wall st1 st2).
  - reflexivity.
  - reflexivity.
  - reflexivity.
Defined.

Lemma rejected_value_leaves_an_empty_set_witness :
  exists st',
    safety 0 "MaximumOccupancy" (PyStr "fifty") "integer" bare_site = (false, st')
    /\ length (model st') = length (model bare_site) + 2
    /\ sets_named (model bare_site) 0 "Pset_SiteCommon" = []
    /\ exists rel pset,
         sets_named (model st') 0 "Pset_SiteCommon" = [(rel, pset)]
         /\ property_names (model st') pset = [].
Proof.
  apply (rejected_value_leaves_an_empty_set sample_str sample_is_int sample_is_int
           sample_guid sample_manager 0 "IfcSite" "site-guid" (Some "House Site") None
           "Pset_SiteCommon" "MaximumOccupancy" (PyStr "fifty") bare_site).
  - reflexivity.
  - reflexivity.
  - reflexivity.
  - reflexivity.
  - reflexivity.
Defined.

Lemma add_property_sets_to_model_adds_anew_witness :
  wf (model bare_wall) = true
  /\ exists st',
       add_property_sets_to_model sample_guid bare_wall = (Returns tt, st')
       /\ wf (model st') = true
       /\ (forall wall : nat, In wall (by_type (model bare_wall) "IfcWall") ->
             gains (model bare_wall) (model st') wall "Pset_WallCommon"
               ["IsExternal"; "LoadBearing"]
             /\ gains (model bare_wall) (model st') wall "CPset_Custom"
                  ["Graffitischutz"])
       /\ (forall window : nat, In window (by_type (model bare_wall) "IfcWindow") ->
             gains (model bare_wall) (model st') window "Pset_WindowCommon"
               ["IsExternal"; "Reference"]
             /\ gains (model bare_wall) (model st') window "CPSet_ReUse"
                  ["Reusable"]).
Proof.
  split; [reflexivity|].
  apply (add_property_sets_to_model_adds_anew sample_guid bare_wall). reflexivity.
Defined.

Lemma process_all_elements_counts_each_once_witness :
  let st' := snd (process_all_elements sample_guid "en" bare_wall) in
  1 + 0 = length (flat_map (by_type (model bare_wall)) rated_classes)
  /\ forall t, In t rated_classes -> by_type (model st') t = by_type (model bare_wall) t.
Proof.
  intros st'.
  apply (process_all_elements_counts_each_once sample_guid "en" bare_wall 1 0 st').
  reflexivity.
Defined.

End Annotate.

(** * The geometry and the openings of the house *)

Module HouseProofs.
Import Py House.

Local Open Scope R_scope.
Local Open Scope list_scope.

(** ** The frame of a wall *)



Lemma wall_length_pos sx sy ex ey :
  (sx, sy) <> (ex, ey) -> 0 < wall_length sx sy ex ey.
Proof.
  intros Hne. unfold wall_length. apply sqrt_lt_R0.
  destruct (Req_dec_T sx ex) as [Hx|Hx].
  - destruct (Req_dec_T sy ey) as [Hy|Hy]; [subst; contradiction|].
    assert (0 < (ey - sy) ^ 2) by (rewrite <- Rsqr_pow2; apply Rsqr_pos_lt; lra).
    assert (0 <= (ex - sx) ^ 2) by apply pow2_ge_0. lra.
  - assert (0 < (ex - sx) ^ 2) by (rewrite <- Rsqr_pow2; apply Rsqr_pos_lt; lra).
    assert (0 <= (ey - sy) ^ 2) by apply pow2_ge_0. lra.
Qed.



(** Scenario A: the front wall of the house. *)
Example front_wall_frame :
  wall_length 0 0 8 0 = 8 /\ wall_angle 0 0 8 0 = 0 /\ wall_center 0 0 8 0 = (4, 0).
Proof.
  split; [|split].
  - unfold wall_length. replace ((8 - 0) ^ 2 + (0 - 0) ^ 2) with (8 ^ 2) by ring.
    rewrite <- Rsqr_pow2. apply sqrt_Rsqr. lra.
  - unfold wall_angle. destruct (Req_dec_T 0 8); [lra|].
    destruct (Rgt_dec 8 0); [reflexivity | lra].
  - unfold wall_center. f_equal; field.
Qed.

(** ** Reading a model back *)

(** The [k]-th attribute of instance [i]. *)
Definition arg (m : list Instance) (i k : nat) : option Value :=
  match m !! i with
  | Some x => args x !! k
  | None => None
  end.

Definition ref_arg (m : list Instance) (i k : nat) : option nat :=
  match arg m i k with
  | Some (VRef j) => Some j
  | _ => None
  end.

Definition real_arg (m : list Instance) (i k : nat) : option R :=
  match arg m i k with
  | Some (VReal r) => Some r
  | _ => None
  end.

(** The first reference of a list-valued attribute. *)
Definition first_ref (m : list Instance) (i k : nat) : option nat :=
  match arg m i k with
  | Some (VList (VRef j :: _)) => Some j
  | _ => None
  end.

Definition class_of (m : list Instance) (i : nat) : option string :=
  is_a <$> m !! i.

(** The extruded solid of a product: [Representation] is attribute 6 of a
    product, [Representations] attribute 2 of its shape, [Items] attribute 3
    of a representation. *)
Definition body_solid (m : list Instance) (product : nat) : option nat :=
  match ref_arg m product 6 with
  | Some definition =>
      match first_ref m definition 2 with
      | Some shape => first_ref m shape 3
      | None => None
      end
  | None => None
  end.

(** The rectangle swept by the solid ([SweptArea], attribute 0) has [XDim]
    and [YDim] as attributes 3 and 4; [Depth] is attribute 3 of the solid. *)
Definition plan_width (m : list Instance) (product : nat) : option R :=
  match body_solid m product with
  | Some solid =>
      match ref_arg m solid 0 with
      | Some profile => real_arg m profile 3
      | None => None
      end
  | None => None
  end.

Definition plan_depth (m : list Instance) (product : nat) : option R :=
  match body_solid m product with
  | Some solid =>
      match ref_arg m solid 0 with
      | Some profile => real_arg m profile 4
      | None => None
      end
  | None => None
  end.

Definition extrusion (m : list Instance) (product : nat) : option R :=
  match body_solid m product with
  | Some solid => real_arg m solid 3
  | None => None
  end.

(** Positions of the instances that satisfy [p]. *)
Definition select (m : list Instance) (p : Instance -> bool) : list nat :=
  List.filter (fun i => match m !! i with Some x => p x | None => false end)
    (seq 0 (length m)).

Definition refers (x : Instance) (k : nat) (target : nat) : bool :=
  match args x !! k with
  | Some (VRef j) => Nat.eqb j target
  | _ => false
  end.

(** The relationships that void a host by [opening]
    ([RelatingBuildingElement] and [RelatedOpeningElement] are attributes 4
    and 5) and those that fill [opening] ([RelatingOpeningElement] and
    [RelatedBuildingElement], attributes 4 and 5). *)
Definition voids_it (opening : nat) (x : Instance) : bool :=
  String.eqb (is_a x) "IfcRelVoidsElement" && refers x 5 opening.

Definition fills_it (opening : nat) (x : Instance) : bool :=
  String.eqb (is_a x) "IfcRelFillsElement" && refers x 4 opening.

Definition is_opening (x : Instance) : bool := String.eqb (is_a x) "IfcOpeningElement".

Definition voids_by (m : list Instance) (opening : nat) : list nat :=
  select m (voids_it opening).

Definition fills_of (m : list Instance) (opening : nat) : list nat :=
  select m (fills_it opening).

Definition openings (m : list Instance) : list nat := select m is_opening.

(** The opening that a voiding or filling relationship refers to. *)
Definition opening_of (x : Instance) : option nat :=
  if String.eqb (is_a x) "IfcRelVoidsElement" then
    match args x !! 5%nat with Some (VRef j) => Some j | _ => None end
  else if String.eqb (is_a x) "IfcRelFillsElement" then
    match args x !! 4%nat with Some (VRef j) => Some j | _ => None end
  else None.

(** The voiding and filling relationships of the model refer to instances
    of the model: none points past its end. *)
Definition closed (m : list Instance) : bool :=
  forallb (fun x => match opening_of x with
                    | Some j => Nat.ltb j (length m)
                    | None => true
                    end) m.

(** ** Running the code on a model *)

Lemma lookup_snoc_eq (l : list Instance) x : (l ++ [x]) !! length l = Some x.
Proof. rewrite lookup_app_r, Nat.sub_diag by lia. reflexivity. Qed.

Lemma lookup_snoc_lt (l : list Instance) x (i : nat) :
  (i < length l)%nat -> (l ++ [x]) !! i = l !! i.
Proof. intros. apply lookup_app_l. assumption. Qed.

(** The instances that [cut_window_opening] creates in a model that holds
    [n] instances. *)
Definition window_opening_batch (n : nat) (body_context profile_placement
    window_placement wall window : nat) (window_name : string)
    (window_width window_height wall_thickness : R) (gc : nat) : list Instance :=
  [mkInstance "IfcRectangleProfileDef"
     [VStr "AREA"; VStr "OpeningProfile"; VRef profile_placement;
      VReal (window_width + 0.02); VReal (wall_thickness + 0.05)];
   mkInstance "IfcDirection" [reals [0.0; 0.0; 1.0]];
   mkInstance "IfcExtrudedAreaSolid"
     [VRef n; VRef profile_placement; VRef (n + 1); VReal (window_height + 0.01)];
   mkInstance "IfcShapeRepresentation"
     [VRef body_context; VStr "Body"; VStr "SweptSolid"; refs [(n + 2)%nat]];
   mkInstance "IfcProductDefinitionShape" [VNone; VNone; refs [(n + 3)%nat]];
   mkInstance "IfcOpeningElement"
     [VGuid gc; VNone; VStr (window_name ++ " Opening")%string; VNone; VNone;
      VRef window_placement; VRef (n + 4); VNone; VStr "OPENING"];
   mkInstance "IfcRelVoidsElement"
     [VGuid (S gc); VNone; VStr "Window Opening"; VNone; VRef wall; VRef (n + 5)];
   mkInstance "IfcRelFillsElement"
     [VGuid (S (S gc)); VNone; VStr "Window Fills Opening"; VNone; VRef (n + 5);
      VRef window]].

Ltac run_creates :=
  cbv beta iota delta [bind create guid_new ret lift item model guid_calls];
  rewrite ?length_app; cbn [length];
  rewrite <- ?app_assoc; cbn [app];
  rewrite <- ?Nat.add_assoc; cbn [Nat.add].

Lemma cut_window_opening_run body_context profile_placement window_placement
    wall window window_name window_width window_height wall_thickness m gc :
  cut_window_opening body_context profile_placement window_placement wall window
    window_name window_width window_height wall_thickness (mkState m gc)
  = (Returns (length m + 5)%nat,
     mkState (m ++ window_opening_batch (length m) body_context profile_placement
                     window_placement wall window window_name window_width
                     window_height wall_thickness gc)
       (S (S (S gc)))).
Proof.
  unfold cut_window_opening, window_opening_batch. run_creates. reflexivity.
Qed.

(** The instances that [cut_door_opening] creates. *)
Definition door_opening_batch (n : nat) (body_context profile_placement
    door_placement wall door : nat) (door_width door_height wall_thickness : R)
    (gc : nat) : list Instance :=
  [mkInstance "IfcRectangleProfileDef"
     [VStr "AREA"; VStr "DoorOpeningProfile"; VRef profile_placement;
      VReal (door_width + 0.02); VReal (wall_thickness + 0.05)];
   mkInstance "IfcDirection" [reals [0.0; 0.0; 1.0]];
   mkInstance "IfcExtrudedAreaSolid"
     [VRef n; VRef profile_placement; VRef (n + 1); VReal (door_height + 0.01)];
   mkInstance "IfcShapeRepresentation"
     [VRef body_context; VStr "Body"; VStr "SweptSolid"; refs [(n + 2)%nat]];
   mkInstance "IfcProductDefinitionShape" [VNone; VNone; refs [(n + 3)%nat]];
   mkInstance "IfcOpeningElement"
     [VGuid gc; VNone; VStr "Door Opening"; VNone; VNone; VRef door_placement;
      VRef (n + 4); VNone; VStr "OPENING"];
   mkInstance "IfcRelVoidsElement"
     [VGuid (S gc); VNone; VStr "Door Opening"; VNone; VRef wall; VRef (n + 5)];
   mkInstance "IfcRelFillsElement"
     [VGuid (S (S gc)); VNone; VStr "Door Fills Opening"; VNone; VRef (n + 5);
      VRef door]].

Lemma cut_door_opening_run body_context profile_placement door_placement door
    ground_walls wall door_width door_height wall_thickness m gc :
  ground_walls !! 1%nat = Some wall ->
  cut_door_opening body_context profile_placement door_placement door ground_walls
    door_width door_height wall_thickness (mkState m gc)
  = (Returns (length m + 5)%nat,
     mkState (m ++ door_opening_batch (length m) body_context profile_placement
                     door_placement wall door door_width door_height
                     wall_thickness gc)
       (S (S (S gc)))).
Proof.
  intros Hwall. unfold cut_door_opening, door_opening_batch. run_creates.
  rewrite Hwall. run_creates. reflexivity.
Qed.

(** The instances that [cut_test_opening] creates. *)
Definition test_opening_batch (n : nat) (world_placement body_context wall
    window : nat) (window_params : WindowParams) (gc : nat) : list Instance :=
  [mkInstance "IfcCartesianPoint"
     [reals [to_m (wp_offset_x window_params); to_m (wp_offset_y window_params);
             to_m (wp_offset_z window_params)]];
   mkInstance "IfcAxis2Placement3D" [VRef n];
   mkInstance "IfcLocalPlacement" [VRef world_placement; VRef (n + 1)];
   mkInstance "IfcCartesianPoint" [reals [0.0; 0.0]];
   mkInstance "IfcAxis2Placement2D" [VRef (n + 3)];
   mkInstance "IfcRectangleProfileDef"
     [VStr "AREA"; VStr "OpeningProfile"; VRef (n + 4);
      VReal (to_m (wp_width window_params) + 0.02); VReal 0.25];
   mkInstance "IfcDirection" [reals [0.0; 0.0; 1.0]];
   mkInstance "IfcExtrudedAreaSolid"
     [VRef (n + 5); VRef (n + 4); VRef (n + 6);
      VReal (to_m (wp_height window_params) + 0.01)];
   mkInstance "IfcShapeRepresentation"
     [VRef body_context; VStr "Body"; VStr "SweptSolid"; refs [(n + 7)%nat]];
   mkInstance "IfcProductDefinitionShape" [VNone; VNone; refs [(n + 8)%nat]];
   mkInstance "IfcOpeningElement"
     [VGuid gc; VNone; VStr "Window Opening"; VNone; VNone; VRef (n + 2);
      VRef (n + 9); VNone; VStr "OPENING"];
   mkInstance "IfcRelVoidsElement"
     [VGuid (S gc); VNone; VStr "Wall Opening Relationship"; VNone; VRef wall;
      VRef (n + 10)];
   mkInstance "IfcRelFillsElement"
     [VGuid (S (S gc)); VNone; VStr "Window Fills Opening"; VNone; VRef (n + 10);
      VRef window]].

Lemma cut_test_opening_run world_placement body_context wall window window_params
    m gc :
  cut_test_opening world_placement body_context wall window window_params
    (mkState m gc)
  = (Returns (length m + 10)%nat,
     mkState (m ++ test_opening_batch (length m) world_placement body_context wall
                     window window_params gc)
       (S (S (S gc)))).
Proof.
  unfold cut_test_opening, test_opening_batch. run_creates. reflexivity.
Qed.

(** ** Counting relationships *)

Lemma select_snoc (m : list Instance) x p :
  select (m ++ [x]) p = select m p ++ (if p x then [length m] else []).
Proof.
  unfold select. rewrite length_app, Nat.add_comm. simpl length.
  rewrite seq_S, List.filter_app. simpl.
  rewrite lookup_snoc_eq.
  f_equal.
  apply List.filter_ext_in. intros i Hi. apply in_seq in Hi.
  rewrite lookup_snoc_lt by lia. reflexivity.
Qed.

Lemma select_batch (m l : list Instance) p :
  select (m ++ l) p = select m p ++ map (fun i => (length m + i)%nat) (select l p).
Proof.
  induction l as [|x l IH] using rev_ind.
  - rewrite app_nil_r. simpl. rewrite app_nil_r. reflexivity.
  - rewrite app_assoc, !select_snoc, IH, map_app, <- app_assoc, length_app.
    destruct (p x); reflexivity.
Qed.

Lemma select_found (m : list Instance) p (i : nat) :
  In i (select m p) <-> exists x, m !! i = Some x /\ p x = true.
Proof.
  unfold select. rewrite List.filter_In, in_seq. split.
  - intros [_ H]. destruct (m !! i) as [x|] eqn:E; [|discriminate].
    exists x. split; [reflexivity | exact H].
  - intros (x & Hx & Hp). rewrite Hx. split; [|exact Hp].
    apply lookup_lt_Some in Hx. lia.
Qed.

Lemma select_nil (m : list Instance) p :
  (forall (i : nat) x, m !! i = Some x -> p x = false) -> select m p = [].
Proof.
  intros H. destruct (select m p) as [|i l] eqn:E; [reflexivity|].
  assert (In i (select m p)) as Hi by (rewrite E; left; reflexivity).
  apply select_found in Hi as (x & Hx & Hp). rewrite (H i x Hx) in Hp. discriminate.
Qed.

Lemma closed_opening_of (m : list Instance) (i : nat) x (j : nat) :
  closed m = true -> m !! i = Some x -> opening_of x = Some j -> (j < length m)%nat.
Proof.
  intros Hc Hx Hj. unfold closed in Hc. rewrite forallb_forall in Hc.
  assert (In x m) as Hin
    by (apply list_elem_of_In; eapply list_elem_of_lookup_2; exact Hx).
  specialize (Hc x Hin). rewrite Hj in Hc. apply Nat.ltb_lt in Hc. exact Hc.
Qed.

Lemma voids_it_opening_of (x : Instance) (o : nat) :
  voids_it o x = true -> opening_of x = Some o.
Proof.
  unfold voids_it, refers, opening_of. intros H. apply andb_true_iff in H as [-> H].
  destruct (args x !! 5%nat) as [[]|]; try discriminate.
  apply Nat.eqb_eq in H as ->. reflexivity.
Qed.

Lemma fills_it_opening_of (x : Instance) (o : nat) :
  fills_it o x = true -> opening_of x = Some o.
Proof.
  unfold fills_it, refers, opening_of. intros H. apply andb_true_iff in H as [E H].
  apply String.eqb_eq in E. rewrite E. simpl.
  destruct (args x !! 4%nat) as [[]|]; try discriminate.
  apply Nat.eqb_eq in H as ->. reflexivity.
Qed.

Lemma voids_by_fresh (m : list Instance) (o : nat) :
  closed m = true -> (length m <= o)%nat -> voids_by m o = [].
Proof.
  intros Hc Hge. apply select_nil. intros i x Hx.
  destruct (voids_it o x) eqn:E; [|reflexivity].
  apply voids_it_opening_of in E.
  pose proof (closed_opening_of m i x o Hc Hx E). lia.
Qed.

Lemma fills_of_fresh (m : list Instance) (o : nat) :
  closed m = true -> (length m <= o)%nat -> fills_of m o = [].
Proof.
  intros Hc Hge. apply select_nil. intros i x Hx.
  destruct (fills_it o x) eqn:E; [|reflexivity].
  apply fills_it_opening_of in E.
  pose proof (closed_opening_of m i x o Hc Hx E). lia.
Qed.

(** ** One opening, one host, one penetrator *)

(** [m'] is [m] with one more opening, which voids [host] by exactly one
    relationship and is filled with [penetrator] by exactly one, while the
    relationships of every other opening are those of [m]. *)
Definition one_to_one (m m' : list Instance) (opening host penetrator : nat) : Prop :=
  openings m' = openings m ++ [opening]
  /\ (exists v, voids_by m' opening = [v] /\ ref_arg m' v 4 = Some host)
  /\ (exists f, fills_of m' opening = [f] /\ ref_arg m' f 5 = Some penetrator)
  /\ (forall o' : nat, o' <> opening ->
        voids_by m' o' = voids_by m o' /\ fills_of m' o' = fills_of m o').

Lemma ref_arg_app_r (m l : list Instance) (i k : nat) :
  ref_arg (m ++ l) (length m + i) k
  = match l !! i with
    | Some x => match args x !! k with Some (VRef j) => Some j | _ => None end
    | None => None
    end.
Proof.
  unfold ref_arg, arg. rewrite lookup_app_r by lia.
  replace (length m + i - length m)%nat with i by lia.
  destruct (l !! i); reflexivity.
Qed.

Lemma batch_one_to_one (m l : list Instance) (ko kv kf host pen : nat) :
  closed m = true ->
  select l is_opening = [ko] ->
  (forall o' : nat,
     select l (voids_it o') = if Nat.eqb (length m + ko) o' then [kv] else []) ->
  (forall o' : nat,
     select l (fills_it o') = if Nat.eqb (length m + ko) o' then [kf] else []) ->
  match l !! kv with
  | Some x => args x !! 4%nat = Some (VRef host)
  | None => False
  end ->
  match l !! kf with
  | Some x => args x !! 5%nat = Some (VRef pen)
  | None => False
  end ->
  one_to_one m (m ++ l) (length m + ko) host pen.
Proof.
  intros Hc Ho Hv Hf Hhost Hpen. unfold one_to_one.
  split; [|split; [|split]].
  - unfold openings. rewrite select_batch, Ho. reflexivity.
  - exists (length m + kv)%nat. split.
    + unfold voids_by at 1. rewrite select_batch, Hv, Nat.eqb_refl.
      fold (voids_by m (length m + ko)).
      rewrite voids_by_fresh by (assumption || lia). reflexivity.
    + rewrite ref_arg_app_r. destruct (l !! kv) as [x|]; [|contradiction].
      rewrite Hhost. reflexivity.
  - exists (length m + kf)%nat. split.
    + unfold fills_of at 1. rewrite select_batch, Hf, Nat.eqb_refl.
      fold (fills_of m (length m + ko)).
      rewrite fills_of_fresh by (assumption || lia). reflexivity.
    + rewrite ref_arg_app_r. destruct (l !! kf) as [x|]; [|contradiction].
      rewrite Hpen. reflexivity.
  - intros o' Hne. unfold voids_by, fills_of.
    rewrite !select_batch, Hv, Hf.
    destruct (Nat.eqb (length m + ko) o') eqn:E;
      [apply Nat.eqb_eq in E; congruence|].
    simpl. rewrite !app_nil_r. split; reflexivity.
Qed.

Lemma window_opening_batch_one_to_one m body_context profile_placement
    window_placement wall window window_name window_width window_height
    wall_thickness gc :
  closed m = true ->
  one_to_one m
    (m ++ window_opening_batch (length m) body_context profile_placement
            window_placement wall window window_name window_width window_height
            wall_thickness gc)
    (length m + 5) wall window.
Proof.
  intros Hc. apply (batch_one_to_one m _ 5 6 7 wall window Hc).
  - reflexivity.
  - intros o'. unfold select, voids_it, refers. cbn.
    destruct (Nat.eqb (length m + 5) o'); reflexivity.
  - intros o'. unfold select, fills_it, refers. cbn.
    destruct (Nat.eqb (length m + 5) o'); reflexivity.
  - reflexivity.
  - reflexivity.
Qed.

Lemma door_opening_batch_one_to_one m body_context profile_placement
    door_placement wall door door_width door_height wall_thickness gc :
  closed m = true ->
  one_to_one m
    (m ++ door_opening_batch (length m) body_context profile_placement
            door_placement wall door door_width door_height wall_thickness gc)
    (length m + 5) wall door.
Proof.
  intros Hc. apply (batch_one_to_one m _ 5 6 7 wall door Hc).
  - reflexivity.
  - intros o'. unfold select, voids_it, refers. cbn.
    destruct (Nat.eqb (length m + 5) o'); reflexivity.
  - intros o'. unfold select, fills_it, refers. cbn.
    destruct (Nat.eqb (length m + 5) o'); reflexivity.
  - reflexivity.
  - reflexivity.
Qed.

Lemma test_opening_batch_one_to_one m world_placement body_context wall window
    window_params gc :
  closed m = true ->
  one_to_one m
    (m ++ test_opening_batch (length m) world_placement body_context wall window
            window_params gc)
    (length m + 10) wall window.
Proof.
  intros Hc. apply (batch_one_to_one m _ 10 11 12 wall window Hc).
  - reflexivity.
  - intros o'. unfold select, voids_it, refers. cbn.
    destruct (Nat.eqb (length m + 10) o'); reflexivity.
  - intros o'. unfold select, fills_it, refers. cbn.
    destruct (Nat.eqb (length m + 10) o'); reflexivity.
  - reflexivity.
  - reflexivity.
Qed.

(** Every opening of the model has exactly one voiding and exactly one
    filling relationship. *)
Definition paired (m : list Instance) : Prop :=
  forall o : nat, In o (openings m) ->
    length (voids_by m o) = 1%nat /\ length (fills_of m o) = 1%nat.

Lemma one_to_one_paired m m' (opening host penetrator : nat) :
  one_to_one m m' opening host penetrator -> paired m -> paired m'.
Proof.
  intros (Ho & (v & Hv & _) & (f & Hf & _) & Hother) Hp o Hin.
  destruct (decide (o = opening)) as [->|Hne].
  - rewrite Hv, Hf. split; reflexivity.
  - destruct (Hother o Hne) as [-> ->]. apply Hp.
    rewrite Ho in Hin. apply in_app_or in Hin as [Hin|[Hin|[]]];
      [exact Hin | congruence].
Qed.

Lemma closed_app (m l : list Instance) :
  closed m = true ->
  forallb (fun x => match opening_of x with
                    | Some j => Nat.ltb j (length m + length l)
                    | None => true
                    end) l = true ->
  closed (m ++ l) = true.
Proof.
  unfold closed. intros Hm Hl. rewrite length_app, forallb_app, Hl, andb_true_r.
  rewrite forallb_forall in *. intros x Hx. specialize (Hm x Hx).
  destruct (opening_of x) as [j|]; [|reflexivity].
  apply Nat.ltb_lt in Hm. apply Nat.ltb_lt. lia.
Qed.

Lemma ltb_add (n a b : nat) : (a < b)%nat -> Nat.ltb (n + a) (n + b) = true.
Proof. intros. apply Nat.ltb_lt. lia. Qed.

Lemma window_opening_batch_closed m body_context profile_placement
    window_placement wall window window_name window_width window_height
    wall_thickness gc :
  closed m = true ->
  closed (m ++ window_opening_batch (length m) body_context profile_placement
                 window_placement wall window window_name window_width
                 window_height wall_thickness gc) = true.
Proof.
  intros Hc. apply closed_app; [exact Hc|].
  unfold window_opening_batch, opening_of. cbn -[Nat.ltb].
  rewrite !ltb_add by lia. reflexivity.
Qed.

Lemma door_opening_batch_closed m body_context profile_placement door_placement
    wall door door_width door_height wall_thickness gc :
  closed m = true ->
  closed (m ++ door_opening_batch (length m) body_context profile_placement
                 door_placement wall door door_width door_height wall_thickness
                 gc) = true.
Proof.
  intros Hc. apply closed_app; [exact Hc|].
  unfold door_opening_batch, opening_of. cbn -[Nat.ltb].
  rewrite !ltb_add by lia. reflexivity.
Qed.

Lemma test_opening_batch_closed m world_placement body_context wall window
    window_params gc :
  closed m = true ->
  closed (m ++ test_opening_batch (length m) world_placement body_context wall
                 window window_params gc) = true.
Proof.
  intros Hc. apply closed_app; [exact Hc|].
  unfold test_opening_batch, opening_of. cbn -[Nat.ltb].
  rewrite !ltb_add by lia. reflexivity.
Qed.

(** What a cut leaves behind: the new opening is one-to-one, and the model
    stays closed and paired. *)
Definition cut_result (m m' : list Instance) (opening host penetrator : nat) : Prop :=
  one_to_one m m' opening host penetrator
  /\ closed m' = true
  /\ (paired m -> paired m').

(** C3: the opening that a cut creates takes part in exactly one voiding
    relationship, whose host is the wall given, and in exactly one filling
    relationship, whose filler is the window or door given; the
    relationships of the other openings are left alone, so no opening is
    shared.  This holds for the window cut and the door cut of
    create_small_house.py and for the cut of test_ifc_window.py. *)
Theorem opening_one_to_one (st : State) (body_context profile_placement placement
    wall penetrator : nat) :
  closed (model st) = true ->
  (forall window_name window_width window_height wall_thickness,
     exists opening st',
       cut_window_opening body_context profile_placement placement wall penetrator
         window_name window_width window_height wall_thickness st
       = (Returns opening, st')
       /\ cut_result (model st) (model st') opening wall penetrator)
  /\ (forall ground_walls door_width door_height wall_thickness,
        ground_walls !! 1%nat = Some wall ->
        exists opening st',
          cut_door_opening body_context profile_placement placement penetrator
            ground_walls door_width door_height wall_thickness st
          = (Returns opening, st')
          /\ cut_result (model st) (model st') opening wall penetrator)
  /\ (forall world_placement window_params,
        exists opening st',
          cut_test_opening world_placement body_context wall penetrator
            window_params st
          = (Returns opening, st')
          /\ cut_result (model st) (model st') opening wall penetrator).
Proof.
  intros Hc. destruct st as [m gc]. simpl in Hc |- *. split; [|split].
  - intros window_name window_width window_height wt.
    eexists _, _. split; [apply cut_window_opening_run|]. simpl.
    pose proof (window_opening_batch_one_to_one m body_context profile_placement
                  placement wall penetrator window_name window_width
                  window_height wt gc Hc) as H.
    split; [exact H|]. split; [apply window_opening_batch_closed; exact Hc|].
    eapply one_to_one_paired; exact H.
  - intros ground_walls door_width door_height wt Hw.
    eexists _, _. split; [apply cut_door_opening_run; exact Hw|]. simpl.
    pose proof (door_opening_batch_one_to_one m body_context profile_placement
                  placement wall penetrator door_width door_height wt gc Hc) as H.
    split; [exact H|]. split; [apply door_opening_batch_closed; exact Hc|].
    eapply one_to_one_paired; exact H.
  - intros world_placement window_params.
    eexists _, _. split; [apply cut_test_opening_run|]. simpl.
    pose proof (test_opening_batch_one_to_one m world_placement body_context wall
                  penetrator window_params gc Hc) as H.
    split; [exact H|]. split; [apply test_opening_batch_closed; exact Hc|].
    eapply one_to_one_paired; exact H.
Qed.

Lemma opening_one_to_one_witness :
  closed [] = true
  /\ exists opening st',
       cut_window_opening 3 7 9 1 2 "Ground Front Window 1" 1.5 1.2 0.2
         (mkState [] 0)
       = (Returns opening, st')
       /\ cut_result [] (model st') opening 1 2.
Proof.
  split; [reflexivity|].
  exact (proj1 (opening_one_to_one (mkState [] 0) 3 7 9 1 2 eq_refl)
           "Ground Front Window 1"%string 1.5 1.2 0.2).
Defined.

(** ** The cuts validate nothing *)

(** A storey, and a window that is to go into it: a host that is neither a
    wall nor a slab. *)
Definition storey_as_host : State :=
  mkState
    [mkInstance "IfcBuildingStorey"
       [VGuid 0; VNone; VStr "Ground Floor"; VNone; VNone; VNone; VNone; VNone;
        VNone; VReal 0.0];
     mkInstance "IfcWindow"
       [VGuid 1; VNone; VStr "Window"; VNone; VNone; VNone; VNone; VNone;
        VReal 1.2; VReal 1.5; VStr "WINDOW"; VNone; VNone]]
    2.

(** C7 fails as stated: with a storey as host, and with a width and a height
    that are not positive, the cut raises nothing and creates the opening
    and both relationships. *)
Lemma cut_accepts_any_host_and_size :
  let run := cut_window_opening 0 0 0 0 1 "Window" (-1) 0 0.2 storey_as_host in
  class_of (model storey_as_host) 0 = Some "IfcBuildingStorey"%string
  /\ fst run = Returns 7%nat
  /\ (forall e, fst run <> Raises e)
  /\ class_of (model (snd run)) 7 = Some "IfcOpeningElement"%string
  /\ plan_width (model (snd run)) 7 = Some (-1 + 0.02)
  /\ extrusion (model (snd run)) 7 = Some (0 + 0.01)
  /\ voids_by (model (snd run)) 7 = [8%nat]
  /\ ref_arg (model (snd run)) 8 4 = Some 0%nat
  /\ fills_of (model (snd run)) 7 = [9%nat].
Proof.
  intros run. unfold run, storey_as_host. rewrite cut_window_opening_run.
  repeat split; discriminate.
Qed.

(** C7, as the code has it: a cut checks neither the class of the host nor
    the sign of the sizes; whatever they are it returns the opening, having
    created it together with one voiding and one filling relationship. *)
Theorem cut_validates_nothing (st : State) (body_context profile_placement
    placement host penetrator : nat) (name : string) (width height thickness : R) :
  exists opening st',
    cut_window_opening body_context profile_placement placement host penetrator
      name width height thickness st
    = (Returns opening, st')
    /\ class_of (model st') opening = Some "IfcOpeningElement"%string
    /\ length (model st') = (length (model st) + 8)%nat
    /\ (exists v, ref_arg (model st') v 4 = Some host
                  /\ ref_arg (model st') v 5 = Some opening
                  /\ class_of (model st') v = Some "IfcRelVoidsElement"%string)
    /\ (exists f, ref_arg (model st') f 4 = Some opening
                  /\ ref_arg (model st') f 5 = Some penetrator
                  /\ class_of (model st') f = Some "IfcRelFillsElement"%string).
Proof.
  destruct st as [m gc]. eexists _, _.
  split; [apply cut_window_opening_run|]. simpl model.
  split; [|split; [|split]].
  - unfold class_of. rewrite lookup_app_r by lia.
    replace (length m + 5 - length m)%nat with 5%nat by lia. reflexivity.
  - rewrite length_app. reflexivity.
  - exists (length m + 6)%nat. unfold class_of, ref_arg, arg.
    rewrite lookup_app_r by lia.
    replace (length m + 6 - length m)%nat with 6%nat by lia.
    repeat split.
  - exists (length m + 7)%nat. unfold class_of, ref_arg, arg.
    rewrite lookup_app_r by lia.
    replace (length m + 7 - length m)%nat with 7%nat by lia.
    repeat split.
Qed.

(** ** The wall that is created *)

(** The instances that [create_wall_with_proper_joins] creates in a model of
    [n] instances: eleven when the angle is zero, twelve otherwise. *)
Definition wall_batch (n world_placement world_z world_x body_context : nat)
    (start_x start_y end_x end_y : R) (wall_name : string)
    (base_height wall_height : R) (gc : nat) : list Instance :=
  let angle := wall_angle start_x start_y end_x end_y in
  let point :=
    mkInstance "IfcCartesianPoint"
      [reals [fst (wall_center start_x start_y end_x end_y);
              snd (wall_center start_x start_y end_x end_y); base_height]] in
  let rest (k x_dir : nat) :=
    [mkInstance "IfcAxis2Placement3D" [VRef n; VRef world_z; VRef x_dir];
     mkInstance "IfcLocalPlacement" [VRef world_placement; VRef k];
     mkInstance "IfcCartesianPoint" [reals [0.0; 0.0]];
     mkInstance "IfcAxis2Placement2D" [VRef (k + 2)];
     mkInstance "IfcRectangleProfileDef"
       [VStr "AREA"; VNone; VRef (k + 3);
        VReal (wall_length start_x start_y end_x end_y); VReal 0.2];
     mkInstance "IfcDirection" [reals [0.0; 0.0; 1.0]];
     mkInstance "IfcExtrudedAreaSolid"
       [VRef (k + 4); VRef (k + 3); VRef (k + 5); VReal wall_height];
     mkInstance "IfcShapeRepresentation"
       [VRef body_context; VStr "Body"; VStr "SweptSolid"; refs [(k + 6)%nat]];
     mkInstance "IfcProductDefinitionShape" [VNone; VNone; refs [(k + 7)%nat]];
     mkInstance "IfcWall"
       [VGuid gc; VNone; VStr wall_name; VNone; VNone; VRef (k + 1);
        VRef (k + 8); VNone; VStr "STANDARD"]] in
  if Req_dec_T angle 0
  then point :: rest (n + 1)%nat world_x
  else point :: mkInstance "IfcDirection" [reals [cos angle; sin angle; 0.0]]
         :: rest (n + 2)%nat (n + 1)%nat.

Lemma create_wall_with_proper_joins_run world_placement world_z world_x
    body_context start_x start_y end_x end_y wall_name base_height wall_height
    m gc :
  let batch := wall_batch (length m) world_placement world_z world_x body_context
                 start_x start_y end_x end_y wall_name base_height wall_height gc in
  create_wall_with_proper_joins world_placement world_z world_x body_context
    start_x start_y end_x end_y wall_name base_height wall_height (mkState m gc)
  = (Returns (length m + (length batch - 1))%nat, mkState (m ++ batch) (S gc)).
Proof.
  unfold create_wall_with_proper_joins, wall_batch, wall_center.
  destruct (Req_dec_T (wall_angle start_x start_y end_x end_y) 0);
    run_creates; reflexivity.
Qed.

Lemma arg_app_r (m l : list Instance) (i k : nat) :
  arg (m ++ l) (length m + i) k
  = match l !! i with
    | Some x => args x !! k
    | None => None
    end.
Proof.
  unfold arg. rewrite lookup_app_r by lia.
  replace (length m + i - length m)%nat with i by lia. reflexivity.
Qed.

Lemma lookup_app_plus (m l : list Instance) (i : nat) :
  (m ++ l) !! (length m + i)%nat = l !! i.
Proof.
  rewrite lookup_app_r by lia.
  replace (length m + i - length m)%nat with i by lia. reflexivity.
Qed.

Ltac measure :=
  unfold plan_width, plan_depth, extrusion, body_solid, ref_arg, first_ref,
    real_arg, class_of;
  rewrite <- ?Nat.add_assoc; cbn [Nat.add];
  repeat (rewrite arg_app_r; cbn [lookup list_lookup args refs map];
          rewrite <- ?Nat.add_assoc; cbn [Nat.add]);
  rewrite ?lookup_app_plus; cbn [lookup list_lookup].







(** ** The dimensions of an opening *)

(** What has been read from a model is read from every extension of it. *)
Lemma arg_app_l (m l : list Instance) (i k : nat) v :
  arg m i k = Some v -> arg (m ++ l) i k = Some v.
Proof.
  unfold arg. intros H. destruct (m !! i) as [x|] eqn:E; [|discriminate].
  rewrite (lookup_app_l_Some _ _ _ _ E). exact H.
Qed.

Lemma ref_arg_app_l (m l : list Instance) (i k j : nat) :
  ref_arg m i k = Some j -> ref_arg (m ++ l) i k = Some j.
Proof.
  unfold ref_arg. intros H. destruct (arg m i k) as [v|] eqn:E; [|discriminate].
  rewrite (arg_app_l _ l _ _ _ E). exact H.
Qed.

Lemma first_ref_app_l (m l : list Instance) (i k j : nat) :
  first_ref m i k = Some j -> first_ref (m ++ l) i k = Some j.
Proof.
  unfold first_ref. intros H. destruct (arg m i k) as [v|] eqn:E; [|discriminate].
  rewrite (arg_app_l _ l _ _ _ E). exact H.
Qed.

Lemma real_arg_app_l (m l : list Instance) (i k : nat) r :
  real_arg m i k = Some r -> real_arg (m ++ l) i k = Some r.
Proof.
  unfold real_arg. intros H. destruct (arg m i k) as [v|] eqn:E; [|discriminate].
  rewrite (arg_app_l _ l _ _ _ E). exact H.
Qed.

Lemma body_solid_app_l (m l : list Instance) (p j : nat) :
  body_solid m p = Some j -> body_solid (m ++ l) p = Some j.
Proof.
  unfold body_solid. intros H.
  destruct (ref_arg m p 6) as [d|] eqn:Ed; [|discriminate].
  rewrite (ref_arg_app_l _ l _ _ _ Ed).
  destruct (first_ref m d 2) as [sh|] eqn:Es; [|discriminate].
  rewrite (first_ref_app_l _ l _ _ _ Es).
  apply first_ref_app_l. exact H.
Qed.

Lemma plan_width_app_l (m l : list Instance) (p : nat) r :
  plan_width m p = Some r -> plan_width (m ++ l) p = Some r.
Proof.
  unfold plan_width. intros H.
  destruct (body_solid m p) as [s|] eqn:Es; [|discriminate].
  rewrite (body_solid_app_l _ l _ _ Es).
  destruct (ref_arg m s 0) as [pr|] eqn:Ep; [|discriminate].
  rewrite (ref_arg_app_l _ l _ _ _ Ep).
  apply real_arg_app_l. exact H.
Qed.

Lemma plan_depth_app_l (m l : list Instance) (p : nat) r :
  plan_depth m p = Some r -> plan_depth (m ++ l) p = Some r.
Proof.
  unfold plan_depth. intros H.
  destruct (body_solid m p) as [s|] eqn:Es; [|discriminate].
  rewrite (body_solid_app_l _ l _ _ Es).
  destruct (ref_arg m s 0) as [pr|] eqn:Ep; [|discriminate].
  rewrite (ref_arg_app_l _ l _ _ _ Ep).
  apply real_arg_app_l. exact H.
Qed.

Lemma extrusion_app_l (m l : list Instance) (p : nat) r :
  extrusion m p = Some r -> extrusion (m ++ l) p = Some r.
Proof.
  unfold extrusion. intros H.
  destruct (body_solid m p) as [s|] eqn:Es; [|discriminate].
  rewrite (body_solid_app_l _ l _ _ Es).
  apply real_arg_app_l. exact H.
Qed.

(** One step of a run: the model is kept as [m ++ l] with [l] explicit, so
    that the position of a new instance is [length m] plus a numeral. *)
Lemma bind_create_first {B} cls a (k : nat -> Eff B) (m : list Instance) gc :
  bind (create cls a) k (mkState m gc)
  = k (length m) (mkState (m ++ [mkInstance cls a]) gc).
Proof. reflexivity. Qed.

Lemma bind_create_next {B} cls a (k : nat -> Eff B) (m l : list Instance) gc :
  bind (create cls a) k (mkState (m ++ l) gc)
  = k (length m + length l)%nat (mkState (m ++ (l ++ [mkInstance cls a])) gc).
Proof.
  unfold bind, create. cbn [model guid_calls].
  rewrite length_app, <- app_assoc. reflexivity.
Qed.

Lemma bind_guid_new {B} (k : Value -> Eff B) (m : list Instance) gc :
  bind guid_new k (mkState m gc) = k (VGuid gc) (mkState m (S gc)).
Proof. reflexivity. Qed.

Lemma bind_returns {A B} (c : Eff A) (k : A -> Eff B) st a st' :
  c st = (Returns a, st') -> bind c k st = k a st'.
Proof. intros H. unfold bind. rewrite H. reflexivity. Qed.

Ltac step_in H :=
  first [ rewrite bind_create_next in H; cbn [length app Nat.add] in H
        | rewrite bind_create_first in H
        | rewrite bind_guid_new in H ];
  cbv beta zeta in H.

(** The host of a window of the loop: [all_walls[storey_idx][wall_idx]]. *)
Definition host_of (all_walls : list (list nat)) (cfg : nat * nat * R * string)
  : option nat :=
  let '(storey_idx, wall_idx, _, _) := cfg in
  match all_walls !! storey_idx with
  | Some storey_walls => storey_walls !! wall_idx
  | None => None
  end.

Lemma add_window_dimensions s window_type all_walls cfg st window opening st' host
    thickness :
  add_window s window_type all_walls cfg st = (Returns (window, opening), st') ->
  host_of all_walls cfg = Some host ->
  plan_depth (model st) host = Some thickness ->
  plan_width (model st') window = Some 1.5
  /\ extrusion (model st') window = Some 1.2
  /\ plan_depth (model st') host = Some thickness
  /\ plan_width (model st') opening = Some (1.5 + 0.02)
  /\ plan_depth (model st') opening = Some (wall_thickness + 0.05)
  /\ extrusion (model st') opening = Some (1.2 + 0.01)
  /\ (exists v, ref_arg (model st') v 4 = Some host
                /\ ref_arg (model st') v 5 = Some opening
                /\ class_of (model st') v = Some "IfcRelVoidsElement"%string)
  /\ (exists f, ref_arg (model st') f 4 = Some opening
                /\ ref_arg (model st') f 5 = Some window
                /\ class_of (model st') f = Some "IfcRelFillsElement"%string).
Proof.
  destruct cfg as [[[storey_idx wall_idx] offset] window_name].
  destruct st as [m gc]. unfold add_window, host_of. intros H Hhost Hdepth.
  unfold bind at 1, lift at 1, item at 1 in H.
  destruct (all_walls !! storey_idx) as [storey_walls|]; [|discriminate].
  unfold bind at 1, lift at 1, item at 1 in H. rewrite Hhost in H.
  unfold bind at 1, lift at 1, item at 1 in H.
  destruct (wall_configs !! wall_idx) as [[[[[sx sy] ex] ey] nm]|]; [|discriminate].
  unfold bind at 1, lift at 1 in H.
  destruct (div offset (sqrt ((ex - sx) ^ 2 + (ey - sy) ^ 2))) as [t|];
    [|discriminate].
  cbv zeta in H.
  assert (Hpair : exists offset_x offset_y,
             (if Req_dec_T sx ex
              then ((if Nat.eqb wall_idx 1 then wall_thickness / 2
                     else - wall_thickness / 2), 0)
              else (0, 0)) = (offset_x, offset_y))
    by (destruct (Req_dec_T sx ex); eauto).
  destruct Hpair as (offset_x & offset_y & Hpair). rewrite Hpair in H.
  cbv beta iota in H.
  repeat step_in H.
  erewrite bind_returns in H by apply cut_window_opening_run.
  unfold window_opening_batch in H.
  rewrite length_app, <- app_assoc in H. cbn [length app] in H.
  rewrite <- ?Nat.add_assoc in H. cbn [Nat.add] in H.
  repeat step_in H.
  unfold ret in H. injection H as <- <- <-. cbn [model] in *.
  split; [measure; reflexivity|].
  split; [measure; reflexivity|].
  split; [apply plan_depth_app_l; exact Hdepth|].
  split; [measure; reflexivity|].
  split; [measure; reflexivity|].
  split; [measure; reflexivity|].
  split.
  - exists (length m + 21)%nat. repeat split; measure; reflexivity.
  - exists (length m + 22)%nat. repeat split; measure; reflexivity.
Qed.

Ltac step :=
  first [ rewrite bind_create_next; cbn [length app Nat.add]
        | rewrite bind_create_first
        | rewrite bind_guid_new ];
  cbv beta zeta.

Lemma add_window_returns s window_type all_walls storey_idx wall_idx offset
    window_name storey_walls host sx sy ex ey nm m gc :
  all_walls !! storey_idx = Some storey_walls ->
  storey_walls !! wall_idx = Some host ->
  wall_configs !! wall_idx = Some (sx, sy, ex, ey, nm) ->
  wall_length sx sy ex ey <> 0 ->
  exists st',
    add_window s window_type all_walls (storey_idx, wall_idx, offset, window_name)
      (mkState m gc)
    = (Returns ((length m + 10)%nat, (length m + 20)%nat), st').
Proof.
  intros Hs Hw Hc Hl. unfold add_window.
  unfold bind at 1, lift at 1, item at 1. rewrite Hs.
  unfold bind at 1, lift at 1, item at 1. rewrite Hw.
  unfold bind at 1, lift at 1, item at 1. rewrite Hc.
  unfold bind at 1, lift at 1, div.
  change (sqrt ((ex - sx) ^ 2 + (ey - sy) ^ 2)) with (wall_length sx sy ex ey).
  destruct (Req_dec_T (wall_length sx sy ex ey) 0) as [|_]; [contradiction|].
  cbv zeta.
  assert (Hpair : exists offset_x offset_y,
             (if Req_dec_T sx ex
              then ((if Nat.eqb wall_idx 1 then wall_thickness / 2
                     else - wall_thickness / 2), 0)
              else (0, 0)) = (offset_x, offset_y))
    by (destruct (Req_dec_T sx ex); eauto).
  destruct Hpair as (offset_x & offset_y & Hpair). rewrite Hpair.
  cbv beta iota.
  repeat step.
  erewrite bind_returns by apply cut_window_opening_run.
  unfold window_opening_batch.
  rewrite length_app, <- app_assoc. cbn [length app].
  rewrite <- ?Nat.add_assoc. cbn [Nat.add].
  repeat step.
  unfold ret. eexists. reflexivity.
Qed.

Lemma add_door_returns s door_type ground_walls host m gc :
  ground_walls !! 1%nat = Some host ->
  exists st',
    add_door s door_type ground_walls (mkState m gc)
    = (Returns ((length m + 11)%nat, (length m + 21)%nat), st').
Proof.
  intros Hw. unfold add_door.
  unfold bind at 1, lift at 1, item at 1. cbn [wall_configs lookup list_lookup].
  cbv beta iota zeta.
  repeat step.
  erewrite bind_returns by (apply cut_door_opening_run; exact Hw).
  unfold door_opening_batch.
  rewrite length_app, <- app_assoc. cbn [length app].
  rewrite <- ?Nat.add_assoc. cbn [Nat.add].
  repeat step.
  unfold ret. eexists. reflexivity.
Qed.

Lemma add_door_dimensions s door_type ground_walls st door opening st' host
    thickness :
  add_door s door_type ground_walls st = (Returns (door, opening), st') ->
  ground_walls !! 1%nat = Some host ->
  plan_depth (model st) host = Some thickness ->
  plan_width (model st') door = Some 0.9
  /\ extrusion (model st') door = Some 2.1
  /\ plan_depth (model st') host = Some thickness
  /\ plan_width (model st') opening = Some (0.9 + 0.02)
  /\ plan_depth (model st') opening = Some (wall_thickness + 0.05)
  /\ extrusion (model st') opening = Some (2.1 + 0.01)
  /\ (exists v, ref_arg (model st') v 4 = Some host
                /\ ref_arg (model st') v 5 = Some opening
                /\ class_of (model st') v = Some "IfcRelVoidsElement"%string)
  /\ (exists f, ref_arg (model st') f 4 = Some opening
                /\ ref_arg (model st') f 5 = Some door
                /\ class_of (model st') f = Some "IfcRelFillsElement"%string).
Proof.
  destruct st as [m gc]. unfold add_door. intros H Hhost Hdepth.
  unfold bind at 1, lift at 1, item at 1 in H.
  cbn [wall_configs lookup list_lookup] in H. cbv beta iota zeta in H.
  repeat step_in H.
  erewrite bind_returns in H by (apply cut_door_opening_run; exact Hhost).
  unfold door_opening_batch in H.
  rewrite length_app, <- app_assoc in H. cbn [length app] in H.
  rewrite <- ?Nat.add_assoc in H. cbn [Nat.add] in H.
  repeat step_in H.
  unfold ret in H. injection H as <- <- <-. cbn [model] in *.
  split; [measure; reflexivity|].
  split; [measure; reflexivity|].
  split; [apply plan_depth_app_l; exact Hdepth|].
  split; [measure; reflexivity|].
  split; [measure; reflexivity|].
  split; [measure; reflexivity|].
  split.
  - exists (length m + 22)%nat. repeat split; measure; reflexivity.
  - exists (length m + 23)%nat. repeat split; measure; reflexivity.
Qed.

(** The opening of [penetrator] in [host]: it is 2 cm wider than the
    penetrator, 5 cm deeper than the host is thick and 1 cm higher than the
    penetrator, it voids the host and the penetrator fills it. *)
Definition opening_fits (m : list Instance) (opening host penetrator : nat) : Prop :=
  exists width thickness height,
    plan_width m penetrator = Some width
    /\ plan_depth m host = Some thickness
    /\ extrusion m penetrator = Some height
    /\ plan_width m opening = Some (width + 0.02)
    /\ plan_depth m opening = Some (thickness + 0.05)
    /\ extrusion m opening = Some (height + 0.01)
    /\ (exists v, ref_arg m v 4 = Some host /\ ref_arg m v 5 = Some opening
                  /\ class_of m v = Some "IfcRelVoidsElement"%string)
    /\ (exists f, ref_arg m f 4 = Some opening /\ ref_arg m f 5 = Some penetrator
                  /\ class_of m f = Some "IfcRelFillsElement"%string).

(** C4: when a window or the door is put into a wall of the house (a wall
    has the thickness 0.2 that [create_wall_with_proper_joins] gives it), the
    plan width of the opening is the width of the window or door plus 0.02,
    its plan depth the thickness of the wall plus 0.05, and its height that
    of the window or door plus 0.01.  For a window, of width 1.5, that is a
    width of 1.52 and a depth of 0.25. *)
Theorem opening_dimensions (s : Site) (st : State) (host : nat) :
  plan_depth (model st) host = Some wall_thickness ->
  (forall window_type all_walls storey_idx wall_idx offset window_name
          storey_walls sx sy ex ey nm,
     all_walls !! storey_idx = Some storey_walls ->
     storey_walls !! wall_idx = Some host ->
     wall_configs !! wall_idx = Some (sx, sy, ex, ey, nm) ->
     wall_length sx sy ex ey <> 0 ->
     exists window opening st',
       add_window s window_type all_walls
         (storey_idx, wall_idx, offset, window_name) st
       = (Returns (window, opening), st')
       /\ opening_fits (model st') opening host window
       /\ plan_width (model st') window = Some 1.5
       /\ plan_width (model st') opening = Some 1.52
       /\ plan_depth (model st') opening = Some 0.25)
  /\ (forall door_type ground_walls,
        ground_walls !! 1%nat = Some host ->
        exists door opening st',
          add_door s door_type ground_walls st = (Returns (door, opening), st')
          /\ opening_fits (model st') opening host door).
Proof.
  intros Hdepth. destruct st as [m gc]. split.
  - intros window_type all_walls storey_idx wall_idx offset window_name
      storey_walls sx sy ex ey nm Hs Hw Hc Hl.
    destruct (add_window_returns s window_type all_walls storey_idx wall_idx offset
                window_name storey_walls host sx sy ex ey nm m gc Hs Hw Hc Hl)
      as [st' Hrun].
    exists (length m + 10)%nat, (length m + 20)%nat, st'.
    split; [exact Hrun|].
    assert (Hhost : host_of all_walls (storey_idx, wall_idx, offset, window_name)
                    = Some host) by (unfold host_of; rewrite Hs; exact Hw).
    destruct (add_window_dimensions _ _ _ _ _ _ _ _ _ _ Hrun Hhost Hdepth)
      as (Hww & Hwh & Hhd & How & Hod & Hoh & Hv & Hf).
    split; [|split; [exact Hww|split]].
    + exists 1.5, wall_thickness, 1.2. auto 10.
    + rewrite How. f_equal. lra.
    + rewrite Hod. f_equal. unfold wall_thickness. lra.
  - intros door_type ground_walls Hw.
    destruct (add_door_returns s door_type ground_walls host m gc Hw) as [st' Hrun].
    exists (length m + 11)%nat, (length m + 21)%nat, st'.
    split; [exact Hrun|].
    destruct (add_door_dimensions _ _ _ _ _ _ _ _ _ Hrun Hw Hdepth)
      as (Hww & Hwh & Hhd & How & Hod & Hoh & Hv & Hf).
    exists 0.9, wall_thickness, 2.1. auto 10.
Qed.

(** A model that holds one wall, 8 long, 0.2 thick and 3 high, and the
    variables of [create_small_house] that [add_window] reads. *)
Definition one_wall : State :=
  mkState
    [mkInstance "IfcRectangleProfileDef"
       [VStr "AREA"; VNone; VNone; VReal 8.0; VReal 0.2];
     mkInstance "IfcExtrudedAreaSolid" [VRef 0; VNone; VNone; VReal 3.0];
     mkInstance "IfcShapeRepresentation"
       [VNone; VStr "Body"; VStr "SweptSolid"; refs [1%nat]];
     mkInstance "IfcProductDefinitionShape" [VNone; VNone; refs [2%nat]];
     mkInstance "IfcWall"
       [VGuid 0; VNone; VStr "Front Wall"; VNone; VNone; VNone; VRef 3; VNone;
        VStr "STANDARD"]]
    1.

Definition one_wall_site : Site :=
  {| world_placement := 0; world_z := 0; world_x := 0; body_context := 0;
     ground_storey := 0; first_storey := 0 |}.

Lemma opening_dimensions_witness :
  plan_depth (model one_wall) 4 = Some wall_thickness
  /\ exists window opening st',
       add_window one_wall_site 0 [[4%nat]]
         (0%nat, 0%nat, 2.0, "Ground Front Window 1"%string) one_wall
       = (Returns (window, opening), st')
       /\ opening_fits (model st') opening 4 window
       /\ plan_width (model st') window = Some 1.5
       /\ plan_width (model st') opening = Some 1.52
       /\ plan_depth (model st') opening = Some 0.25.
Proof.
  split; [reflexivity|].
  apply (proj1 (opening_dimensions one_wall_site one_wall 4 eq_refl)
           0%nat [[4%nat]] 0%nat 0%nat 2.0 "Ground Front Window 1"%string [4%nat]
           0 0 house_length 0 "Front Wall"%string).
  - reflexivity.
  - reflexivity.
  - reflexivity.
  - apply Rgt_not_eq. apply wall_length_pos.
    intros [= H]. unfold house_length in H. lra.
Defined.

(** ** Where a wall is drawn *)











(** ** Where a window is placed *)

(** The point that a product is placed at: [ObjectPlacement] is attribute 5
    of a product, [RelativePlacement] attribute 1 of a local placement,
    [Location] attribute 0 of an axis placement and [Coordinates] attribute
    0 of a point. *)
Definition position (m : list Instance) (product : nat) : option (R * R * R) :=
  match ref_arg m product 5 with
  | Some local_placement =>
      match ref_arg m local_placement 1 with
      | Some axis =>
          match ref_arg m axis 0 with
          | Some point =>
              match arg m point 0 with
              | Some (VList [VReal x; VReal y; VReal z]) => Some (x, y, z)
              | _ => None
              end
          | None => None
          end
      | None => None
      end
  | None => None
  end.

Lemma arg_app_first (m l : list Instance) (k : nat) :
  arg (m ++ l) (length m) k
  = match l !! 0%nat with
    | Some x => args x !! k
    | None => None
    end.
Proof.
  unfold arg. rewrite lookup_app_r by lia. rewrite Nat.sub_diag. reflexivity.
Qed.

Ltac locate :=
  unfold position, ref_arg;
  rewrite <- ?Nat.add_assoc; cbn [Nat.add];
  repeat (first [rewrite arg_app_r | rewrite arg_app_first];
          cbn [lookup list_lookup args reals map];
          rewrite <- ?Nat.add_assoc; cbn [Nat.add]).

(** The place of a window of the house in the plan, by the wall it is in:
    [offset] from the start of the wall along the wall, and half the
    thickness of the wall outwards in the two side walls. *)
Definition window_plan_position (wall_idx : nat) (offset : R) : option (R * R) :=
  match wall_idx with
  | 0%nat => Some (offset, 0)
  | 1%nat => Some (house_length + wall_thickness / 2, offset)
  | 2%nat => Some (house_length - offset, house_width)
  | 3%nat => Some (0 - wall_thickness / 2, house_width - offset)
  | _ => None
  end.

Lemma sqrt_sqr_pos (a : R) : 0 < a -> sqrt (a ^ 2 + 0 ^ 2) = a.
Proof.
  intros Ha. replace (a ^ 2 + 0 ^ 2) with (Rsqr a) by (unfold Rsqr; ring).
  rewrite sqrt_Rsqr_abs. apply Rabs_right. lra.
Qed.

Lemma sqrt_sqr_neg (a : R) : a < 0 -> sqrt (a ^ 2 + 0 ^ 2) = - a.
Proof.
  intros Ha. replace (a ^ 2 + 0 ^ 2) with (Rsqr a) by (unfold Rsqr; ring).
  rewrite sqrt_Rsqr_abs. apply Rabs_left. exact Ha.
Qed.

Lemma sqrt_sqr_pos_y (a : R) : 0 < a -> sqrt (0 ^ 2 + a ^ 2) = a.
Proof. intros Ha. rewrite Rplus_comm. apply sqrt_sqr_pos. exact Ha. Qed.

Lemma sqrt_sqr_neg_y (a : R) : a < 0 -> sqrt (0 ^ 2 + a ^ 2) = - a.
Proof. intros Ha. rewrite Rplus_comm. apply sqrt_sqr_neg. exact Ha. Qed.

(** The coordinates that [add_window] computes for a wall of the house. *)
Lemma window_point_of_wall wall_idx offset sx sy ex ey nm :
  wall_configs !! wall_idx = Some (sx, sy, ex, ey, nm) ->
  let t := offset / sqrt ((ex - sx) ^ 2 + (ey - sy) ^ 2) in
  let shift := if Req_dec_T sx ex
               then ((if Nat.eqb wall_idx 1 then wall_thickness / 2
                      else - wall_thickness / 2), 0)
               else (0, 0) in
  window_plan_position wall_idx offset
  = Some (sx + t * (ex - sx) + fst shift, sy + t * (ey - sy) + snd shift).
Proof.
  unfold wall_configs, window_plan_position, house_length, house_width, wall_thickness.
  destruct wall_idx as [|[|[|[|?]]]]; cbn [lookup list_lookup]; intros [= <- <- <- <- <-];
    cbv zeta.
  - destruct (Req_dec_T 0 8.0) as [H|_]; [lra|]. cbn [fst snd].
    replace ((8.0 - 0) ^ 2 + (0 - 0) ^ 2) with (8 ^ 2 + 0 ^ 2) by lra.
    rewrite sqrt_sqr_pos by lra. f_equal. f_equal; field_simplify; lra.
  - destruct (Req_dec_T 8.0 8.0) as [_|H]; [|lra]. cbn [fst snd Nat.eqb].
    replace ((8.0 - 8.0) ^ 2 + (6.0 - 0) ^ 2) with (0 ^ 2 + 6 ^ 2) by lra.
    rewrite sqrt_sqr_pos_y by lra. f_equal. f_equal; field_simplify; lra.
  - destruct (Req_dec_T 8.0 0) as [H|_]; [lra|]. cbn [fst snd].
    replace ((0 - 8.0) ^ 2 + (6.0 - 6.0) ^ 2) with ((-8) ^ 2 + 0 ^ 2) by lra.
    rewrite sqrt_sqr_neg by lra. f_equal. f_equal; field_simplify; lra.
  - destruct (Req_dec_T 0 0) as [_|H]; [|lra]. cbn [fst snd Nat.eqb].
    replace ((0 - 0) ^ 2 + (0 - 6.0) ^ 2) with (0 ^ 2 + (-6) ^ 2) by lra.
    rewrite sqrt_sqr_neg_y by lra. f_equal. f_equal; field_simplify; lra.
Qed.

(** X15: a window that [add_window] creates is placed on its wall: in the
    plan at [offset] from the start of the wall (half the wall thickness
    further out in a side wall), and one metre above the floor of its
    storey.  Its opening has no placement of its own: it uses that of the
    window. *)
Theorem window_is_placed_on_its_wall s window_type all_walls storey_idx wall_idx
    offset window_name st window opening st' :
  add_window s window_type all_walls (storey_idx, wall_idx, offset, window_name) st
  = (Returns (window, opening), st') ->
  exists x y,
    window_plan_position wall_idx offset = Some (x, y)
    /\ position (model st') window
       = Some (x, y, (if Nat.eqb storey_idx 0 then 0.0 else wall_height) + 1.0)
    /\ position (model st') opening = position (model st') window
    /\ ref_arg (model st') opening 5 = ref_arg (model st') window 5.
Proof.
  destruct st as [m gc]. unfold add_window. intros H.
  unfold bind at 1, lift at 1, item at 1 in H.
  destruct (all_walls !! storey_idx) as [storey_walls|]; [|discriminate].
  unfold bind at 1, lift at 1, item at 1 in H.
  destruct (storey_walls !! wall_idx) as [host|]; [|discriminate].
  unfold bind at 1, lift at 1, item at 1 in H.
  destruct (wall_configs !! wall_idx) as [[[[[sx sy] ex] ey] nm]|] eqn:Hcfg;
    [|discriminate].
  pose proof (window_point_of_wall wall_idx offset sx sy ex ey nm Hcfg) as Hpos.
  cbv zeta in Hpos.
  unfold bind at 1, lift at 1, div in H.
  destruct (Req_dec_T (sqrt ((ex - sx) ^ 2 + (ey - sy) ^ 2)) 0) as [|_];
    [discriminate|].
  cbv zeta in H.
  destruct (if Req_dec_T sx ex
            then ((if Nat.eqb wall_idx 1 then wall_thickness / 2
                   else - wall_thickness / 2), 0)
            else (0, 0)) as [offset_x offset_y].
  cbn [fst snd] in Hpos. cbv beta iota in H.
  repeat step_in H.
  erewrite bind_returns in H by apply cut_window_opening_run.
  unfold window_opening_batch in H.
  rewrite length_app, <- app_assoc in H. cbn [length app] in H.
  rewrite <- ?Nat.add_assoc in H. cbn [Nat.add] in H.
  repeat step_in H.
  unfold ret in H. injection H as <- <- <-. cbn [model] in *.
  eexists _, _. split; [exact Hpos|].
  split; [locate; reflexivity|].
  split; [locate; reflexivity|].
  locate. reflexivity.
Qed.

Lemma window_is_placed_on_its_wall_witness :
  exists x y,
    window_plan_position 0 2.0 = Some (x, y)
    /\ position
         (model (snd (add_window one_wall_site 0 [[4%nat]]
                        (0%nat, 0%nat, 2.0, "Ground Front Window 1"%string) one_wall)))
         (length (model one_wall) + 10)
       = Some (x, y, 0.0 + 1.0).
Proof.
  destruct (add_window_returns one_wall_site 0%nat [[4%nat]] 0%nat 0%nat 2.0
              "Ground Front Window 1"%string [4%nat] 4%nat 0 0 house_length 0
              "Front Wall"%string (model one_wall) (guid_calls one_wall)
              eq_refl eq_refl eq_refl) as [st' Hrun].
  { apply Rgt_not_eq. apply wall_length_pos.
    intros [= H]. unfold house_length in H. lra. }
  destruct (window_is_placed_on_its_wall one_wall_site 0%nat [[4%nat]] 0%nat 0%nat 2.0
              "Ground Front Window 1"%string one_wall _ _ st' Hrun)
    as (x & y & Hp & Hw & _).
  exists x, y. split; [exact Hp|].
  change one_wall with (mkState (model one_wall) (guid_calls one_wall)) at 1.
  rewrite Hrun. exact Hw.
Defined.


(** ** The opening of test_ifc_window.py *)

(** X16: the opening that test_ifc_window.py cuts is 2 cm wider and 1 cm
    higher than the window, whose sizes are given in millimetres, and it is
    placed at the offsets of the window; its depth is the constant 0.25,
    whatever the host is.  For the window of the script, 1000 by 1200, that
    is 1.02 by 1.21. *)
Theorem test_opening_dimensions (world_placement body_context wall window : nat)
    (window_params : WindowParams) (st : State) :
  exists opening st',
    cut_test_opening world_placement body_context wall window window_params st
    = (Returns opening, st')
    /\ class_of (model st') opening = Some "IfcOpeningElement"%string
    /\ plan_width (model st') opening = Some (wp_width window_params / 1000 + 0.02)
    /\ plan_depth (model st') opening = Some 0.25
    /\ extrusion (model st') opening = Some (wp_height window_params / 1000 + 0.01)
    /\ position (model st') opening
       = Some (wp_offset_x window_params / 1000, wp_offset_y window_params / 1000,
               wp_offset_z window_params / 1000)
    /\ (wp_width window_params = 1000 -> wp_height window_params = 1200 ->
        plan_width (model st') opening = Some 1.02
        /\ extrusion (model st') opening = Some 1.21).
Proof.
  destruct st as [m gc]. eexists _, _.
  split; [apply cut_test_opening_run|]. cbn [model].
  unfold test_opening_batch.
  assert (Hm : forall v, to_m v = v / 1000) by (intros v; unfold to_m; lra).
  assert (Hw : plan_width
                 (m ++ test_opening_batch (length m) world_placement body_context
                         wall window window_params gc) (length m + 10)
               = Some (wp_width window_params / 1000 + 0.02)).
  { unfold test_opening_batch. measure. rewrite Hm. reflexivity. }
  assert (He : extrusion
                 (m ++ test_opening_batch (length m) world_placement body_context
                         wall window window_params gc) (length m + 10)
               = Some (wp_height window_params / 1000 + 0.01)).
  { unfold test_opening_batch. measure. rewrite Hm. reflexivity. }
  unfold test_opening_batch in Hw, He.
  split; [measure; reflexivity|].
  split; [exact Hw|].
  split; [measure; reflexivity|].
  split; [exact He|].
  split; [locate; rewrite !Hm; reflexivity|].
  intros H1 H2. rewrite Hw, He, H1, H2. split; f_equal; lra.
Qed.

Lemma test_opening_dimensions_witness :
  exists opening st',
    cut_test_opening 3 9 20 40
      {| wp_name := "Test Window"; wp_width := 1000; wp_depth := 150;
         wp_height := 1200; wp_offset_x := 1600; wp_offset_y := 25;
         wp_offset_z := 1200 |} (mkState [] 0)
    = (Returns opening, st')
    /\ plan_width (model st') opening = Some 1.02
    /\ plan_depth (model st') opening = Some 0.25
    /\ extrusion (model st') opening = Some 1.21.
Proof.
  destruct (test_opening_dimensions 3 9 20 40
              {| wp_name := "Test Window"; wp_width := 1000; wp_depth := 150;
                 wp_height := 1200; wp_offset_x := 1600; wp_offset_y := 25;
                 wp_offset_z := 1200 |} (mkState [] 0))
    as (opening & st' & Hrun & _ & _ & Hd & _ & _ & Hn).
  destruct (Hn eq_refl eq_refl) as [Hw He].
  exists opening, st'. auto.
Defined.

(** ** The slab that is created *)

(** The instances that [create_slab] creates in a model of [n] instances
    when [gc] identifiers have been drawn. *)
Definition slab_batch (n world_placement body_context : nat)
    (length width base_z thickness : R) (slab_name : string) (gc : nat)
  : list Instance :=
  let grey := if contains "Roof" slab_name then 0.7 else 0.8 in
  [mkInstance "IfcCartesianPoint" [reals [length / 2; width / 2; base_z]];
   mkInstance "IfcAxis2Placement3D" [VRef n];
   mkInstance "IfcLocalPlacement" [VRef world_placement; VRef (n + 1)];
   mkInstance "IfcCartesianPoint" [reals [0.0; 0.0]];
   mkInstance "IfcAxis2Placement2D" [VRef (n + 3)];
   mkInstance "IfcRectangleProfileDef"
     [VStr "AREA"; VNone; VRef (n + 4); VReal length; VReal width];
   mkInstance "IfcDirection" [reals [0.0; 0.0; 1.0]];
   mkInstance "IfcExtrudedAreaSolid"
     [VRef (n + 5); VRef (n + 4); VRef (n + 6); VReal thickness];
   mkInstance "IfcShapeRepresentation"
     [VRef body_context; VStr "Body"; VStr "SweptSolid"; refs [(n + 7)%nat]];
   mkInstance "IfcProductDefinitionShape" [VNone; VNone; refs [(n + 8)%nat]];
   mkInstance "IfcSlab"
     [VGuid gc; VNone; VStr slab_name; VNone; VNone; VRef (n + 2); VRef (n + 9);
      VNone; VStr "FLOOR"];
   mkInstance "IfcColourRgb" [VNone; VReal grey; VReal grey; VReal grey];
   mkInstance "IfcSurfaceStyleRendering"
     [VRef (n + 11); VReal 0.0; VRef (n + 11); VNone; VNone; VNone; VNone; VNone;
      VStr "FLAT"];
   mkInstance "IfcSurfaceStyle"
     [VStr "SlabStyle"; VStr "BOTH"; refs [(n + 12)%nat]];
   mkInstance "IfcStyledItem"
     [VRef (n + 7); refs [(n + 13)%nat]; VStr "SlabStyle"]].

Lemma create_slab_run world_placement body_context length width base_z thickness
    slab_name m gc :
  create_slab world_placement body_context length width base_z thickness slab_name
    (mkState m gc)
  = (Returns (List.length m + 10)%nat,
     mkState (m ++ slab_batch (List.length m) world_placement body_context length
                     width base_z thickness slab_name gc) (S gc)).
Proof.
  unfold create_slab, slab_batch.
  destruct (contains "Roof" slab_name); repeat step; reflexivity.
Qed.

(** The colour that the style of a styled item gives to its solid:
    [Styles] is attribute 1 of a styled item and attribute 2 of a surface
    style, [SurfaceColour] attribute 0 of a rendering. *)
Definition style_colour (m : list Instance) (styled_item : nat) : option (R * R * R) :=
  match first_ref m styled_item 1 with
  | Some style =>
      match first_ref m style 2 with
      | Some rendering =>
          match ref_arg m rendering 0 with
          | Some colour =>
              match real_arg m colour 1, real_arg m colour 2, real_arg m colour 3 with
              | Some r, Some g, Some b => Some (r, g, b)
              | _, _, _ => None
              end
          | None => None
          end
      | None => None
      end
  | None => None
  end.

(** X17: [create_slab] always returns the slab: a rectangle of the given
    length and width, centred on the middle of the plan at the given
    height, swept up by the thickness.  Its predefined type is FLOOR
    whatever the slab is, the roof included; only the grey of its style
    depends on the name: 0.7 when the name contains "Roof", 0.8
    otherwise. *)
Theorem slab_as_created (world_placement body_context : nat)
    (length width base_z thickness : R) (slab_name : string) (st : State) :
  exists slab st',
    create_slab world_placement body_context length width base_z thickness slab_name st
    = (Returns slab, st')
    /\ class_of (model st') slab = Some "IfcSlab"%string
    /\ arg (model st') slab 8 = Some (VStr "FLOOR")
    /\ plan_width (model st') slab = Some length
    /\ plan_depth (model st') slab = Some width
    /\ extrusion (model st') slab = Some thickness
    /\ position (model st') slab = Some (length / 2, width / 2, base_z)
    /\ exists styled_item,
         class_of (model st') styled_item = Some "IfcStyledItem"%string
         /\ ref_arg (model st') styled_item 0 = body_solid (model st') slab
         /\ style_colour (model st') styled_item
            = Some (if contains "Roof" slab_name then (0.7, 0.7, 0.7)
                    else (0.8, 0.8, 0.8)).
Proof.
  destruct st as [m gc]. eexists _, _.
  split; [apply create_slab_run|]. cbn [model]. unfold slab_batch. cbv zeta.
  split; [measure; reflexivity|].
  split; [rewrite arg_app_r; reflexivity|].
  split; [measure; reflexivity|].
  split; [measure; reflexivity|].
  split; [measure; reflexivity|].
  split; [locate; reflexivity|].
  exists (List.length m + 14)%nat.
  split; [measure; reflexivity|].
  split; [measure; reflexivity|].
  unfold style_colour. measure.
  destruct (contains "Roof" slab_name); reflexivity.
Qed.


(** ** The house as a whole *)

(** The classes that [main] of create_small_house.py counts in the model
    it has written, in the order of its report. *)
Definition counted : list string :=
  ["IfcBuildingStorey"; "IfcWall"; "IfcWindow"; "IfcDoor"; "IfcSlab";
   "IfcOpeningElement"; "IfcStyledItem"; "IfcWindowType"; "IfcDoorType";
   "IfcWindowLiningProperties"; "IfcWindowPanelProperties"; "IfcRelDefinesByType"].

Definition is_class (cls : string) (x : Instance) : bool := String.eqb (is_a x) cls.

(** [len(model.by_type(cls))] for each counted class; none of them has a
    subclass among the classes that the script creates. *)
Definition census (m : list Instance) : list nat :=
  map (fun cls => length (select m (is_class cls))) counted.

(** The same, read off a list of instances. *)
Definition tally (l : list Instance) : list nat :=
  map (fun cls => length (List.filter (is_class cls) l)) counted.

Definition plus_each (t1 t2 : list nat) : list nat :=
  map (fun p => (fst p + snd p)%nat) (combine t1 t2).

Definition scale (n : nat) (t : list nat) : list nat := map (Nat.mul n) t.

Lemma select_length (m : list Instance) p :
  length (select m p) = length (List.filter p m).
Proof.
  induction m as [|x m IH] using rev_ind; [reflexivity|].
  rewrite select_snoc, List.filter_app, !length_app, IH. simpl.
  destruct (p x); reflexivity.
Qed.

Lemma census_tally m : census m = tally m.
Proof.
  unfold census, tally. apply map_ext. intros cls. apply select_length.
Qed.

Lemma plus_each_map {A} (f g : A -> nat) (l : list A) :
  plus_each (map f l) (map g l) = map (fun a => (f a + g a)%nat) l.
Proof.
  unfold plus_each. induction l as [|a l IH]; [reflexivity|].
  simpl. f_equal. exact IH.
Qed.

Lemma tally_app l1 l2 : tally (l1 ++ l2) = plus_each (tally l1) (tally l2).
Proof.
  unfold tally. rewrite plus_each_map. apply map_ext. intros cls.
  rewrite List.filter_app, length_app. reflexivity.
Qed.

Lemma tally_length l : length (tally l) = length counted.
Proof. unfold tally. apply length_map. Qed.

Lemma plus_each_zero t : length t = length counted -> plus_each (tally []) t = t.
Proof.
  unfold tally, counted. cbn [map List.filter length].
  do 12 (destruct t as [|? t]; [discriminate|]).
  destruct t; [reflexivity | discriminate].
Qed.

(** An instance that is neither an opening nor a relationship of one. *)
Definition harmless (x : Instance) : bool :=
  negb (is_opening x)
  && match opening_of x with
     | None => true
     | Some _ => false
     end.

(** The invariant of the openings: no relationship of an opening dangles,
    and every opening has exactly one of each kind. *)
Definition paired_up (m : list Instance) : Prop := closed m = true /\ paired m.

Lemma select_harmless (l : list Instance) p :
  forallb harmless l = true ->
  (forall x, p x = true -> harmless x = false) ->
  select l p = [].
Proof.
  intros Hl Hp. apply select_nil. intros i x Hx.
  destruct (p x) eqn:E; [|reflexivity].
  rewrite forallb_forall in Hl.
  assert (In x l) as Hin
    by (apply list_elem_of_In; eapply list_elem_of_lookup_2; exact Hx).
  specialize (Hl x Hin). rewrite (Hp x E) in Hl. discriminate.
Qed.

Lemma paired_up_harmless (m l : list Instance) :
  paired_up m -> forallb harmless l = true -> paired_up (m ++ l).
Proof.
  intros [Hc Hp] Hl. split.
  - apply closed_app; [exact Hc|].
    rewrite forallb_forall in Hl |- *. intros x Hx. specialize (Hl x Hx).
    unfold harmless in Hl. apply andb_prop in Hl as [_ Hl].
    destruct (opening_of x); [discriminate | reflexivity].
  - assert (Ho : openings (m ++ l) = openings m).
    { unfold openings. rewrite select_batch, (select_harmless l) by
        (try exact Hl; intros x Hx; unfold harmless; rewrite Hx; reflexivity).
      apply app_nil_r. }
    intros o Hin. rewrite Ho in Hin. destruct (Hp o Hin) as [Hv Hf].
    unfold voids_by, fills_of in *.
    rewrite !select_batch.
    rewrite (select_harmless l (voids_it o)), (select_harmless l (fills_it o)).
    + rewrite !app_nil_r. split; assumption.
    + exact Hl.
    + intros x Hx. apply fills_it_opening_of in Hx. unfold harmless.
      rewrite Hx. apply andb_false_r.
    + exact Hl.
    + intros x Hx. apply voids_it_opening_of in Hx. unfold harmless.
      rewrite Hx. apply andb_false_r.
Qed.

(** [c] returns in every model that satisfies the invariant: it appends
    instances that keep it, in the numbers [t], and returns a value that
    satisfies [R]. *)
Definition emits {A} (c : Eff A) (t : list nat) (R : A -> Prop) : Prop :=
  forall m gc, paired_up m ->
    exists a l gc',
      c (mkState m gc) = (Returns a, mkState (m ++ l) gc')
      /\ paired_up (m ++ l) /\ tally l = t /\ R a.

Lemma emits_ret {A} (a : A) (R : A -> Prop) : R a -> emits (ret a) (tally []) R.
Proof.
  intros Ha m gc Hm. exists a, [], gc. rewrite app_nil_r. auto.
Qed.

Lemma emits_bind {A B} (c : Eff A) (k : A -> Eff B) t1 t2 (R1 : A -> Prop)
    (R2 : B -> Prop) :
  emits c t1 R1 -> (forall a, R1 a -> emits (k a) t2 R2) ->
  emits (bind c k) (plus_each t1 t2) R2.
Proof.
  intros Hc Hk m gc Hm.
  destruct (Hc m gc Hm) as (a & l1 & gc1 & Hrun1 & Hm1 & Ht1 & Ha).
  destruct (Hk a Ha (m ++ l1) gc1 Hm1) as (b & l2 & gc2 & Hrun2 & Hm2 & Ht2 & Hb).
  exists b, (l1 ++ l2), gc2. unfold bind. rewrite Hrun1, Hrun2, <- app_assoc in *.
  split; [reflexivity|]. split; [exact Hm2|].
  split; [rewrite tally_app, Ht1, Ht2; reflexivity | exact Hb].
Qed.

Lemma emits_tally {A} (c : Eff A) t t' (R : A -> Prop) :
  emits c t R -> t = t' -> emits c t' R.
Proof. intros H <-. exact H. Qed.

Lemma emits_weaken {A} (c : Eff A) t (R R' : A -> Prop) :
  emits c t R -> (forall a, R a -> R' a) -> emits c t R'.
Proof.
  intros H HR m gc Hm. destruct (H m gc Hm) as (a & l & gc' & H1 & H2 & H3 & H4).
  exists a, l, gc'. auto.
Qed.

Lemma emits_length {A} (c : Eff A) t (R : A -> Prop) :
  emits c t R -> length t = length counted.
Proof.
  intros H. destruct (H [] 0%nat) as (a & l & gc' & _ & _ & <- & _).
  - split; [reflexivity|]. intros o [].
  - apply tally_length.
Qed.

Lemma emits_run {A} (c : Eff A) (R : A -> Prop) (batch : nat -> nat -> list Instance)
    (result : nat -> A) (draws : nat) t :
  (forall m gc,
     c (mkState m gc)
     = (Returns (result (length m)), mkState (m ++ batch (length m) gc) (gc + draws))) ->
  (forall n gc, forallb harmless (batch n gc) = true) ->
  (forall n gc, tally (batch n gc) = t) ->
  (forall n, R (result n)) ->
  emits c t R.
Proof.
  intros Hrun Hh Ht HR m gc Hm. exists (result (length m)), (batch (length m) gc), (gc + draws)%nat.
  split; [apply Hrun|]. split; [apply paired_up_harmless; auto|]. auto.
Qed.

Lemma emits_bind_guid {B} (k : Value -> Eff B) t (R : B -> Prop) :
  (forall g, emits (k g) t R) -> emits (bind guid_new k) t R.
Proof.
  intros Hk m gc Hm. destruct (Hk (VGuid gc) m (S gc) Hm) as (b & l & gc' & H & H').
  exists b, l, gc'. rewrite bind_guid_new. auto.
Qed.

Lemma emits_bind_lift {A B} (o : Outcome A) (a : A) (k : A -> Eff B) t (R : B -> Prop) :
  o = Returns a -> emits (k a) t R -> emits (bind (lift o) k) t R.
Proof.
  intros -> Hk m gc Hm. destruct (Hk m gc Hm) as (b & l & gc' & H & H').
  exists b, l, gc'. unfold bind, lift. auto.
Qed.

(** How many instances of the counted classes one instance of [cls] is. *)
Definition one (cls : string) : list nat := tally [mkInstance cls []].

Lemma tally_one cls a : tally [mkInstance cls a] = one cls.
Proof.
  unfold one, tally. apply map_ext. intros c. cbn [List.filter].
  unfold is_class. cbn [is_a]. destruct (String.eqb cls c); reflexivity.
Qed.

Lemma emits_bind_create {B} cls a (k : nat -> Eff B) t (R : B -> Prop) :
  harmless (mkInstance cls a) = true ->
  (forall i, emits (k i) t R) ->
  emits (bind (create cls a) k) (plus_each (one cls) t) R.
Proof.
  intros Hh Hk. rewrite <- (tally_one cls a).
  apply (emits_bind _ _ _ _ (fun _ => True)); [|intros i _; apply Hk].
  intros m gc Hm. exists (length m), [mkInstance cls a], gc.
  split; [reflexivity|]. split; [|auto].
  apply paired_up_harmless; [exact Hm|]. simpl. rewrite Hh. reflexivity.
Qed.

Lemma scale_succ n t : scale (S n) t = plus_each t (scale n t).
Proof.
  unfold scale, plus_each. induction t as [|a t IH]; [reflexivity|].
  simpl. f_equal. exact IH.
Qed.

Lemma scale_zero t : length t = length counted -> scale 0 t = tally [].
Proof.
  unfold scale, tally, counted. cbn [map List.filter length].
  do 12 (destruct t as [|? t]; [discriminate|]).
  destruct t; [reflexivity | discriminate].
Qed.

Lemma plus_each_zero_r t : length t = length counted -> plus_each t (tally []) = t.
Proof.
  unfold tally, counted. cbn [map List.filter length].
  do 12 (destruct t as [|? t]; [discriminate|]).
  destruct t; [|discriminate]. unfold plus_each. cbn [combine map fst snd].
  rewrite !Nat.add_0_r. reflexivity.
Qed.

Lemma emits_for_each {A} (body : A -> Eff unit) (l : list A) t :
  length t = length counted ->
  (forall x, In x l -> emits (body x) t (fun _ => True)) ->
  emits (for_each body l) (scale (length l) t) (fun _ => True).
Proof.
  intros Ht. induction l as [|x l IH]; intros Hbody.
  - rewrite scale_zero by exact Ht. apply emits_ret. exact I.
  - cbn [for_each length]. rewrite scale_succ.
    apply (emits_bind _ _ _ _ (fun _ => True)).
    + apply Hbody. left. reflexivity.
    + intros _ _. apply IH. intros y Hy. apply Hbody. right. exact Hy.
Qed.

Lemma emits_map_each {A B} (body : A -> Eff B) (l : list A) t :
  length t = length counted ->
  (forall x, emits (body x) t (fun _ => True)) ->
  emits (map_each body l) (scale (length l) t) (fun ys => length ys = length l).
Proof.
  intros Ht Hbody. induction l as [|x l IH].
  - rewrite scale_zero by exact Ht. apply emits_ret. reflexivity.
  - cbn [map_each length]. rewrite scale_succ.
    apply (emits_bind _ _ _ _ (fun _ => True)); [apply Hbody|].
    intros y _.
    rewrite <- (plus_each_zero_r (scale (length l) t)).
    + apply (emits_bind _ _ _ _ (fun ys => length ys = length l)); [exact IH|].
      intros ys Hys. apply emits_ret. simpl. rewrite Hys. reflexivity.
    + unfold scale. rewrite length_map. exact Ht.
Qed.


Ltac emit :=
  repeat match goal with
         | |- emits (bind guid_new _) _ _ => eapply emits_bind_guid; intros ?
         | |- emits (bind (create _ _) _) _ _ =>
             eapply emits_bind_create; [reflexivity | intros ?]
         end.

Lemma emits_wall world_placement world_z world_x body_context start_x start_y
    end_x end_y wall_name base_height wall_height :
  emits (create_wall_with_proper_joins world_placement world_z world_x body_context
           start_x start_y end_x end_y wall_name base_height wall_height)
    (one "IfcWall") (fun _ => True).
Proof.
  intros m gc Hm. eexists _, _, _.
  split; [apply create_wall_with_proper_joins_run|].
  split; [|split; [|exact I]].
  - apply paired_up_harmless; [exact Hm|]. unfold wall_batch.
    destruct (Req_dec_T _ 0); reflexivity.
  - unfold wall_batch. destruct (Req_dec_T _ 0); reflexivity.
Qed.

Lemma emits_storey_walls s storey rename base_height :
  emits (create_storey_walls s storey rename base_height)
    (scale 4 (one "IfcWall")) (fun walls => length walls = 4%nat).
Proof.
  unfold create_storey_walls.
  apply (emits_map_each _ wall_configs (one "IfcWall")); [reflexivity|].
  intros [[[[start_x start_y] end_x] end_y] wall_name].
  eapply emits_tally.
  - eapply emits_bind; [apply emits_wall|]. intros wall _.
    emit. apply emits_ret. exact I.
  - reflexivity.
Qed.

Lemma emits_slab world_placement body_context length width base_z thickness
    slab_name :
  emits (create_slab world_placement body_context length width base_z thickness
           slab_name)
    (plus_each (one "IfcSlab") (one "IfcStyledItem")) (fun _ => True).
Proof.
  intros m gc Hm. eexists _, _, _.
  split; [apply create_slab_run|].
  split; [|split; [|exact I]].
  - apply paired_up_harmless; [exact Hm | reflexivity].
  - reflexivity.
Qed.

Lemma emits_slabs s :
  emits (create_slabs s) (scale 3 (plus_each (one "IfcSlab") (one "IfcStyledItem")))
    (fun slabs => List.length slabs = 3%nat).
Proof.
  unfold create_slabs. cbv zeta. eapply emits_tally.
  - eapply emits_bind; [apply emits_slab|]. intros ground_slab _. emit.
    eapply emits_bind; [apply emits_slab|]. intros first_slab _. emit.
    eapply emits_bind; [apply emits_slab|]. intros roof_slab _. emit.
    apply emits_ret. reflexivity.
  - reflexivity.
Qed.

Lemma emits_hierarchy :
  emits create_hierarchy (scale 2 (one "IfcBuildingStorey")) (fun _ => True).
Proof.
  unfold create_hierarchy. eapply emits_tally.
  - emit. apply emits_ret. exact I.
  - reflexivity.
Qed.

Lemma emits_material concrete_material axis name element :
  emits (associate_material concrete_material axis name element) (tally [])
    (fun _ => True).
Proof.
  unfold associate_material. eapply emits_tally.
  - emit. apply emits_ret. exact I.
  - reflexivity.
Qed.

(** The four instances that [create_types] creates; the window type has
    its two property collections set. *)
Definition types_batch (n gc : nat) : list Instance :=
  [mkInstance "IfcWindowType"
     [VGuid gc; VNone; VStr "Standard Window Type";
      VStr "Standard single-hung window"; VNone; refs [(n + 1)%nat; (n + 2)%nat];
      VNone; VNone; VStr "Standard Window Type"; VStr "WINDOW";
      VStr "SINGLE_PANEL"; VBool true; VNone];
   mkInstance "IfcWindowLiningProperties"
     [VGuid (gc + 1); VNone; VStr "Window Lining Properties"; VNone; VReal 0.05;
      VReal 0.025; VReal 0.01; VReal 0.01; VNone; VNone; VNone; VNone; VNone;
      VReal 0.075; VReal 0.01; VReal 0.01];
   mkInstance "IfcWindowPanelProperties"
     [VGuid (gc + 2); VNone; VStr "Window Panel Properties"; VNone;
      VStr "SIDEHUNGRIGHTHAND"; VStr "RIGHT"; VReal 1.5; VReal 1.2; VNone];
   mkInstance "IfcDoorType"
     [VGuid (gc + 3); VNone; VStr "Standard Door Type"; VStr "Standard hinged door";
      VNone; VNone; VNone; VNone; VStr "Standard Door Type"; VStr "DOOR";
      VStr "SINGLE_SWING_RIGHT"; VBool true; VNone]].

Lemma bind_set_attr_first {B} (k : nat) v (kont : unit -> Eff B) (m l : list Instance)
    x gc :
  bind (set_attr (length m) k v) kont (mkState (m ++ x :: l) gc)
  = kont tt (mkState (m ++ mkInstance (is_a x) (<[k := v]> (args x)) :: l) gc).
Proof.
  unfold bind, set_attr. cbn [model guid_calls].
  rewrite lookup_app_r, Nat.sub_diag by lia. cbn [lookup list_lookup].
  rewrite <- (Nat.add_0_r (length m)) at 1. rewrite insert_app_r. reflexivity.
Qed.

Lemma create_types_run (m : list Instance) gc :
  create_types (mkState m gc)
  = (Returns (length m, (length m + 3)%nat),
     mkState (m ++ types_batch (length m) gc) (gc + 4)).
Proof.
  unfold create_types, types_batch.
  do 6 step. rewrite bind_set_attr_first. cbv beta. repeat step.
  unfold ret. cbn [is_a args insert list_insert].
  repeat f_equal; lia.
Qed.

Lemma emits_types :
  emits create_types
    (plus_each (one "IfcWindowType")
       (plus_each (one "IfcWindowLiningProperties")
          (plus_each (one "IfcWindowPanelProperties") (one "IfcDoorType"))))
    (fun _ => True).
Proof.
  intros m gc Hm. eexists _, _, _.
  split; [apply create_types_run|].
  split; [|split; [|exact I]].
  - apply paired_up_harmless; [exact Hm | reflexivity].
  - reflexivity.
Qed.

Lemma paired_up_empty : paired_up [].
Proof. split; [reflexivity|]. intros o []. Qed.

Lemma emits_cut_window body_context profile_placement window_placement wall window
    window_name window_width window_height wall_thickness :
  emits (cut_window_opening body_context profile_placement window_placement wall
           window window_name window_width window_height wall_thickness)
    (one "IfcOpeningElement") (fun _ => True).
Proof.
  intros m gc [Hc Hp]. eexists _, _, _.
  split; [apply cut_window_opening_run|].
  split; [|split; [reflexivity | exact I]].
  split; [apply window_opening_batch_closed; exact Hc|].
  eapply one_to_one_paired; [|exact Hp].
  apply window_opening_batch_one_to_one. exact Hc.
Qed.

Lemma emits_cut_door body_context profile_placement door_placement door ground_walls
    wall door_width door_height wall_thickness :
  ground_walls !! 1%nat = Some wall ->
  emits (cut_door_opening body_context profile_placement door_placement door
           ground_walls door_width door_height wall_thickness)
    (one "IfcOpeningElement") (fun _ => True).
Proof.
  intros Hw m gc [Hc Hp]. eexists _, _, _.
  split; [apply cut_door_opening_run; exact Hw|].
  split; [|split; [reflexivity | exact I]].
  split; [apply door_opening_batch_closed; exact Hc|].
  eapply one_to_one_paired; [|exact Hp].
  apply door_opening_batch_one_to_one. exact Hc.
Qed.

Definition window_tally : list nat :=
  plus_each (one "IfcWindow")
    (plus_each (one "IfcStyledItem")
       (plus_each (one "IfcOpeningElement") (one "IfcRelDefinesByType"))).

Lemma emits_add_window s window_type all_walls storey_idx wall_idx offset
    window_name storey_walls host sx sy ex ey nm :
  all_walls !! storey_idx = Some storey_walls ->
  storey_walls !! wall_idx = Some host ->
  wall_configs !! wall_idx = Some (sx, sy, ex, ey, nm) ->
  wall_length sx sy ex ey <> 0 ->
  emits (add_window s window_type all_walls (storey_idx, wall_idx, offset, window_name))
    window_tally (fun _ => True).
Proof.
  intros Hs Hw Hc Hl. unfold add_window. cbv zeta.
  eapply emits_bind_lift; [unfold item; rewrite Hs; reflexivity|].
  eapply emits_bind_lift; [unfold item; rewrite Hw; reflexivity|].
  eapply emits_bind_lift; [unfold item; rewrite Hc; reflexivity|].
  cbv beta iota.
  eapply emits_bind_lift.
  { unfold div. unfold wall_length in Hl.
    destruct (Req_dec_T (sqrt ((ex - sx) ^ 2 + (ey - sy) ^ 2)) 0);
      [contradiction | reflexivity]. }
  destruct (if Req_dec_T sx ex
            then ((if Nat.eqb wall_idx 1 then wall_thickness / 2
                   else - wall_thickness / 2), 0)
            else (0, 0)) as [offset_x offset_y].
  eapply emits_tally.
  - emit. eapply emits_bind; [apply emits_cut_window|]. intros opening _.
    emit. apply emits_ret. exact I.
  - reflexivity.
Qed.

Lemma emits_add_door s door_type ground_walls wall :
  ground_walls !! 1%nat = Some wall ->
  emits (add_door s door_type ground_walls)
    (plus_each (one "IfcDoor")
       (plus_each (one "IfcStyledItem")
          (plus_each (one "IfcOpeningElement") (one "IfcRelDefinesByType"))))
    (fun _ => True).
Proof.
  intros Hw. unfold add_door. cbv zeta.
  eapply emits_bind_lift; [reflexivity|].
  eapply emits_tally.
  - emit. eapply emits_bind; [apply (emits_cut_door _ _ _ _ _ wall); exact Hw|].
    intros opening _. emit. apply emits_ret. exact I.
  - reflexivity.
Qed.


Lemma emits_for_each_silent {A} (body : A -> Eff unit) (l : list A) :
  (forall x, emits (body x) (tally []) (fun _ => True)) ->
  emits (for_each body l) (tally []) (fun _ => True).
Proof.
  intros Hbody. induction l as [|x l IH]; [apply emits_ret; exact I|].
  cbn [for_each].
  apply (emits_tally _ (plus_each (tally []) (tally []))); [|reflexivity].
  apply (emits_bind _ _ _ _ (fun _ => True)); [apply Hbody|].
  intros _ _. exact IH.
Qed.

Lemma front_wall_has_length : wall_length 0 0 house_length 0 <> 0.
Proof.
  apply Rgt_not_eq. apply wall_length_pos.
  intros [= H]. unfold house_length in H. lra.
Qed.

Lemma back_wall_has_length : wall_length house_length house_width 0 house_width <> 0.
Proof.
  apply Rgt_not_eq. apply wall_length_pos.
  intros [= H]. unfold house_length in H. lra.
Qed.

Lemma emits_windows s window_type (ground_walls first_walls : list nat) :
  length ground_walls = 4%nat -> length first_walls = 4%nat ->
  emits (for_each
           (fun cfg =>
              let* _ := add_window s window_type [ground_walls; first_walls] cfg in
              ret tt)
           window_configs)
    (scale 6 window_tally) (fun _ => True).
Proof.
  intros Hg Hf.
  destruct ground_walls as [|g0 [|g1 [|g2 [|g3 [|]]]]]; try discriminate.
  destruct first_walls as [|f0 [|f1 [|f2 [|f3 [|]]]]]; try discriminate.
  apply (emits_for_each _ window_configs window_tally); [reflexivity|].
  intros cfg Hin.
  apply (emits_tally _ (plus_each window_tally (tally []))); [|reflexivity].
  apply (emits_bind _ _ _ _ (fun _ => True)); [|intros; apply emits_ret; exact I].
  unfold window_configs in Hin. cbn [In] in Hin.
  destruct Hin as [<-|[<-|[<-|[<-|[<-|[<-|[]]]]]]];
    (eapply emits_add_window;
     [reflexivity | reflexivity | reflexivity
     | first [apply front_wall_has_length | apply back_wall_has_length]]).
Qed.

(** The counts of the house: two storeys, eight walls, six windows, one
    door, three slabs, seven openings, ten styled items, the two types with
    the two property collections of the window type, seven type
    relationships. *)
Definition house_census : list nat := [2; 8; 6; 1; 3; 7; 10; 1; 1; 1; 1; 7]%nat.

Lemma create_small_house_emits : emits create_small_house house_census (fun _ => True).
Proof.
  unfold create_small_house. eapply emits_tally.
  - eapply emits_bind; [apply emits_hierarchy|]. intros s _.
    eapply emits_bind; [apply emits_storey_walls|]. intros ground_walls Hg.
    eapply emits_bind; [apply emits_storey_walls|]. intros first_walls Hf.
    cbv zeta.
    eapply emits_bind; [apply emits_types|]. intros types _.
    eapply emits_bind; [apply emits_windows; assumption|]. intros _ _.
    destruct ground_walls as [|g0 [|g1 rest]]; try discriminate.
    eapply emits_bind; [apply (emits_add_door _ _ _ g1); reflexivity|]. intros _ _.
    eapply emits_bind; [apply emits_slabs|]. intros slabs _.
    emit.
    eapply emits_bind;
      [apply emits_for_each_silent; intros; apply emits_material|].
    intros _ _.
    apply emits_for_each_silent; intros; apply emits_material.
  - reflexivity.
Qed.

(** X18: [create_small_house] returns, and in the model that it has built
    no opening is left over or shared: every voiding and filling
    relationship refers to an instance of the model, and each of its
    openings is the opening of exactly one voiding and of exactly one
    filling relationship. *)
Theorem house_openings_are_paired :
  exists st',
    create_small_house (mkState [] 0) = (Returns tt, st')
    /\ closed (model st') = true
    /\ paired (model st').
Proof.
  destruct (create_small_house_emits [] 0%nat paired_up_empty)
    as ([] & l & gc' & Hrun & [Hc Hp] & _ & _).
  eexists. split; [exact Hrun|]. split; assumption.
Qed.

(** X19: the model that [create_small_house] builds holds what [main]
    reports after reading it back: 2 storeys, 8 walls, 6 windows, 1 door,
    3 slabs, 7 openings (one for each window and door), 10 styled items,
    1 window type, 1 door type, 1 lining and 1 panel property collection and
    7 type relationships. *)
Theorem house_holds_what_main_reports :
  exists st',
    create_small_house (mkState [] 0) = (Returns tt, st')
    /\ census (model st') = [2; 8; 6; 1; 3; 7; 10; 1; 1; 1; 1; 7]%nat.
Proof.
  destruct (create_small_house_emits [] 0%nat paired_up_empty)
    as ([] & l & gc' & Hrun & _ & Ht & _).
  eexists. split; [exact Hrun|]. cbn [model app].
  rewrite census_tally. exact Ht.
Qed.

End HouseProofs.
